(** * easyTTY: rule codec, rule store and control bridge

    A shallow embedding of the parts of easyTTY that decide how persistent
    naming rules are matched, rendered, parsed, stored and applied:

    - [include/common/Utils.hpp]   (namespace [utils])
    - [include/common/Types.hpp]   ([DeviceInfo], [UdevRule], [OperationResult])
    - [src/udev/UdevManager.cpp]   ([UdevManager])

    [std::string] is [string] (a sequence of 8-bit characters), [int] is [Z]
    with the range check written out where the code can leave the range,
    [std::optional] is [option], [std::vector] is [list].  Everything the
    program asks of the operating system (file system, [popen], [system],
    [geteuid]) goes through the interface [OsOps]; the member functions of
    [UdevManager] that touch the object or the system are written in a small
    state monad over [Machine]. *)

From Stdlib Require Import String Ascii List ZArith NArith Lia Bool.
From Stdlib Require Import DecimalString Permutation Sorted.
Import ListNotations.

Local Open Scope string_scope.
Local Open Scope list_scope.

(* ================================================================== *)
(** ** Characters and string primitives of the C++ standard library *)
(* ================================================================== *)

(** The double quote and the line feed, which have no escape in a literal. *)
Definition dq : ascii := "034"%char.
Definition lf : ascii := "010"%char.
Definition Q : string := String dq EmptyString.
Definition NL : string := String lf EmptyString.

Definition code (c : ascii) : N := N_of_ascii c.

Definition in_range (lo hi c : ascii) : bool :=
  ((code lo <=? code c) && (code c <=? code hi))%N.

(** [::isspace] in the "C" locale: space, and the controls 9..13. *)
Definition isspace (c : ascii) : bool :=
  ((code c =? 32) || ((9 <=? code c) && (code c <=? 13)))%N.

Definition isdigit (c : ascii) : bool := in_range "0" "9" c.

(** [std::string::empty]. *)
Definition empty (s : string) : bool :=
  match s with EmptyString => true | String _ _ => false end.

Fixpoint forallb_str (p : ascii -> bool) (s : string) : bool :=
  match s with
  | EmptyString => true
  | String c r => p c && forallb_str p r
  end.

(** [s.find(pat)]: index of the first occurrence, [None] for [npos]. *)
Fixpoint str_find (pat s : string) : option nat :=
  if prefix pat s then Some 0%nat
  else match s with
       | EmptyString => None
       | String _ r => option_map S (str_find pat r)
       end.

(** [s.find(pat) != std::string::npos]. *)
Definition contains (pat s : string) : bool :=
  match str_find pat s with Some _ => true | None => false end.

(** [s.substr(pos)] for [pos <= s.size()]. *)
Fixpoint substr_from (pos : nat) (s : string) : string :=
  match pos with
  | O => s
  | S p => match s with
           | EmptyString => EmptyString
           | String _ r => substr_from p r
           end
  end.

(** The NUL byte, which ends a C string. *)
Definition nul : ascii := "000"%char.

(** [fgets(buffer, room + 1, stream)]: at most [room] characters are read,
    and none after a line feed.  Returns what was stored in the buffer and
    what is left of the stream; nothing is stored at the end of the stream,
    where [fgets] returns the null pointer. *)
Fixpoint fgets (room : nat) (stream : string) {struct stream} : string * string :=
  match room, stream with
  | S room', String c r =>
      if (c =? lf)%char then (String c EmptyString, r)
      else let '(buffer, rest) := fgets room' r in (String c buffer, rest)
  | _, _ => (EmptyString, stream)
  end.

(** The C string a buffer holds: its characters before the first NUL. *)
Fixpoint c_str (buffer : string) : string :=
  match buffer with
  | EmptyString => EmptyString
  | String c r => if (c =? nul)%char then EmptyString else String c (c_str r)
  end.

(** The loop [while (fgets(buffer.data(), buffer.size(), pipe) != nullptr)
    result += buffer.data()] over a buffer of 128 characters, run for at most
    [fuel] turns; [None] when the turns are used up before the stream is. *)
Fixpoint readLoop (fuel : nat) (result stream : string) : option string :=
  match fuel with
  | O => None
  | S fuel' =>
      match stream with
      | EmptyString => Some result
      | _ =>
          let '(buffer, rest) := fgets 127 stream in
          readLoop fuel' (result ++ c_str buffer) rest
      end
  end.

(** What the loop collects of a stream.  Every turn but the last takes at
    least one character, so one turn more than the stream has characters is
    enough (see [readLoop_ends]). *)
Definition readPipe (stream : string) : string :=
  match readLoop (S (String.length stream)) EmptyString stream with
  | Some result => result
  | None => EmptyString
  end.

(** Successive [std::getline(file, line)] calls until the stream fails: the
    text is cut at every line feed, and a final piece is returned only when
    it holds at least one character. *)
Fixpoint getlines (s : string) : list string :=
  match s with
  | EmptyString => []
  | String c r =>
      if (c =? lf)%char then EmptyString :: getlines r
      else match getlines r with
           | [] => [String c EmptyString]
           | l :: ls => String c l :: ls
           end
  end.

(** [std::filesystem::path(p).filename().string()]: what follows the last
    directory separator. *)
Fixpoint path_filename (p : string) : string :=
  match p with
  | EmptyString => EmptyString
  | String c r =>
      if (c =? "/")%char then path_filename r
      else if contains "/" r then path_filename r
      else p
  end.

(** [std::to_string(int)]. *)
Definition to_string (z : Z) : string := NilZero.string_of_int (Z.to_int z).

Definition INT_MIN : Z := - 2 ^ 31.
Definition INT_MAX : Z := 2 ^ 31 - 1.

Fixpoint skip_space (s : string) : string :=
  match s with
  | String c r => if isspace c then skip_space r else s
  | EmptyString => EmptyString
  end.

Definition digit_val (c : ascii) : Z := Z.of_N (code c) - 48.

(** Value of the longest run of decimal digits at the start of [s]. *)
Fixpoint digits_val (acc : Z) (s : string) : Z :=
  match s with
  | String c r => if isdigit c then digits_val (10 * acc + digit_val c) r else acc
  | EmptyString => acc
  end.

(** [std::stoi(s)] in base 10: leading white space is skipped, one sign is
    accepted, then the longest run of digits is converted.  [None] stands for
    the two exceptions, [std::invalid_argument] (no digit) and
    [std::out_of_range]. *)
Definition stoi (s : string) : option Z :=
  let s1 := skip_space s in
  let '(neg, s2) :=
    match s1 with
    | String c r =>
        if (c =? "-")%char then (true, r)
        else if (c =? "+")%char then (false, r)
        else (false, s1)
    | EmptyString => (false, s1)
    end in
  match s2 with
  | String c _ =>
      if isdigit c then
        let v := digits_val 0 s2 in
        let v := if neg then (- v)%Z else v in
        if ((INT_MIN <=? v) && (v <=? INT_MAX))%Z then Some v else None
      else None
  | EmptyString => None
  end.

(* ================================================================== *)
(** ** The regular expressions in use *)
(* ================================================================== *)

(** Character classes. *)
Definition cls_alpha (c : ascii) : bool :=          (* [a-zA-Z] *)
  in_range "a" "z" c || in_range "A" "Z" c.
Definition cls_word (c : ascii) : bool :=           (* [a-zA-Z0-9_-] *)
  in_range "a" "z" c || in_range "A" "Z" c || in_range "0" "9" c
  || (c =? "_")%char || (c =? "-")%char.
Definition cls_hex (c : ascii) : bool :=            (* [0-9a-fA-F] *)
  in_range "0" "9" c || in_range "a" "f" c || in_range "A" "F" c.
Definition cls_notquote (c : ascii) : bool :=       (* every character but the double quote *)
  negb (c =? dq)%char.

(** Every pattern handed to [std::regex_search] in the program has the shape
    [lit([cls]+)dq]: a literal, one capture group holding one or more
    characters of a class, and a closing double quote [dq]. *)
Record CaptureRe := { re_lit : string; re_cls : ascii -> bool }.

(** The literal part, matched at the start of [s]; the rest of [s]. *)
Fixpoint strip_prefix (pat s : string) : option string :=
  match pat with
  | EmptyString => Some s
  | String p pat' =>
      match s with
      | String c s' => if (p =? c)%char then strip_prefix pat' s' else None
      | EmptyString => None
      end
  end.

(** [[cls]*dq] by backtracking: the star first tries to take one more
    character and only then to stop, where the quote has to follow.
    Returns what the star consumed. *)
Fixpoint star_quote (cls : ascii -> bool) (s : string) : option string :=
  match s with
  | EmptyString => None
  | String c r =>
      let stop := if (c =? dq)%char then Some EmptyString else None in
      if cls c then
        match star_quote cls r with
        | Some m => Some (String c m)
        | None => stop
        end
      else stop
  end.

(** [[cls]+dq]: one character of the class, then the star. *)
Definition plus_quote (cls : ascii -> bool) (s : string) : option string :=
  match s with
  | String c r => if cls c then option_map (String c) (star_quote cls r) else None
  | EmptyString => None
  end.

(** A match that starts at the first character of [s]; the capture. *)
Definition match_at (re : CaptureRe) (s : string) : option string :=
  match strip_prefix (re_lit re) s with
  | Some r => plus_quote (re_cls re) r
  | None => None
  end.

(** [std::regex_search(s, match, re)] followed by [match[1].str()]: the
    capture of the leftmost match, [None] when nothing matches. *)
Fixpoint regex_search (re : CaptureRe) (s : string) : option string :=
  match match_at re s with
  | Some m => Some m
  | None => match s with
            | EmptyString => None
            | String _ r => regex_search re r
            end
  end.

Definition vendorLit : string := Eval cbv in ("ATTRS{idVendor}==" ++ Q)%string.
Definition productLit : string := Eval cbv in ("ATTRS{idProduct}==" ++ Q)%string.
Definition serialLit : string := Eval cbv in ("ATTRS{serial}==" ++ Q)%string.
Definition symlinkLit : string := Eval cbv in ("SYMLINK+=" ++ Q)%string.

Definition vendorRegex : CaptureRe := {| re_lit := vendorLit; re_cls := cls_hex |}.
Definition productRegex : CaptureRe := {| re_lit := productLit; re_cls := cls_hex |}.
Definition serialRegex : CaptureRe := {| re_lit := serialLit; re_cls := cls_notquote |}.
Definition symlinkRegex : CaptureRe := {| re_lit := symlinkLit; re_cls := cls_notquote |}.

(** [std::regex_match(name, "^[a-zA-Z][a-zA-Z0-9_-]*$")]: the whole string is
    one letter followed by word characters. *)
Definition name_regex_match (name : string) : bool :=
  match name with
  | String c r => cls_alpha c && forallb_str cls_word r
  | EmptyString => false
  end.

(* ================================================================== *)
(** ** include/common/Utils.hpp *)
(* ================================================================== *)

Module utils.

Fixpoint trim_left (s : string) : string :=
  match s with
  | String c r => if isspace c then trim_left r else s
  | EmptyString => EmptyString
  end.

Fixpoint trim_right (s : string) : string :=
  match s with
  | EmptyString => EmptyString
  | String c r =>
      match trim_right r with
      | EmptyString => if isspace c then EmptyString else String c EmptyString
      | r' => String c r'
      end
  end.

(** [trim]: the text between the first and the last character that is not
    white space, empty when there is none. *)
Definition trim (s : string) : string := trim_right (trim_left s).

Definition startsWith (str pre : string) : bool :=
  (String.length pre <=? String.length str)%nat && prefix pre str.

Definition endsWith (str suffix : string) : bool :=
  (String.length suffix <=? String.length str)%nat
  && (substr_from (String.length str - String.length suffix) str =? suffix)%string.

Definition isValidSymlinkName (name : string) : bool :=
  if empty name || (64 <? String.length name)%nat then false
  else name_regex_match name.

(** [std::getline(ss, token, delimiter)] until the stream fails: the text is
    cut at every delimiter, and a final piece is a token only when it holds at
    least one character. *)
Fixpoint split (str : string) (delimiter : ascii) : list string :=
  match str with
  | EmptyString => []
  | String c r =>
      if (c =? delimiter)%char then EmptyString :: split r delimiter
      else match split r delimiter with
           | [] => [String c EmptyString]
           | token :: tokens => String c token :: tokens
           end
  end.

(** [::tolower] and [::toupper] in the "C" locale. *)
Definition tolower (c : ascii) : ascii :=
  if in_range "A" "Z" c then ascii_of_N (code c + 32) else c.
Definition toupper (c : ascii) : ascii :=
  if in_range "a" "z" c then ascii_of_N (code c - 32) else c.

(** [std::transform] over the characters of a string. *)
Fixpoint transform (f : ascii -> ascii) (s : string) : string :=
  match s with
  | EmptyString => EmptyString
  | String c r => String (f c) (transform f r)
  end.

Definition toLower (str : string) : string := transform tolower str.
Definition toUpper (str : string) : string := transform toupper str.

(** [std::isalnum] in the "C" locale. *)
Definition isalnum (c : ascii) : bool :=
  in_range "0" "9" c || in_range "a" "z" c || in_range "A" "Z" c.

Fixpoint sanitizeForUdev (str : string) : string :=
  match str with
  | EmptyString => EmptyString
  | String c r =>
      if isalnum c || (c =? "_")%char || (c =? "-")%char
      then String c (sanitizeForUdev r)
      else if (c =? " ")%char then String "_" (sanitizeForUdev r)
      else sanitizeForUdev r
  end.

(** The loop [while (result.length() < 4) result = "0" + result], run for at
    most [fuel] turns. *)
Fixpoint padLoop (fuel : nat) (result : string) : string :=
  match fuel with
  | O => result
  | S fuel' =>
      if (String.length result <? 4)%nat then padLoop fuel' (String "0" result)
      else result
  end.

(** [formatHexId]; four turns of the padding loop are enough for it to
    finish (see [padLoop_done]). *)
Definition formatHexId (id : string) : string :=
  let result :=
    match id with
    | String c0 (String c1 rest) =>
        if (2 <? String.length id)%nat && (c0 =? "0")%char
           && ((c1 =? "x")%char || (c1 =? "X")%char)
        then rest else id
    | _ => id
    end in
  toLower (padLoop 4 result).

End utils.

(* ================================================================== *)
(** ** include/common/Types.hpp *)
(* ================================================================== *)

Module DeviceInfo.

Record t := mk {
  devPath : string;
  sysPath : string;
  subsystem : string;
  vendor : string;
  vendorId : string;
  productId : string;
  serial : string;
  manufacturer : string;
  product : string;
  driver : string;
  devNode : string;
  busNum : string;
  devNum : string;
  interfaceNum : string
}.

Definition isValid (d : t) : bool :=
  negb (empty (devPath d)) && negb (empty (vendorId d)).

Definition getDisplayName (d : t) : string :=
  if negb (empty (product d)) then (product d ++ " (" ++ devNode d ++ ")")%string
  else devNode d.

Definition getUniqueId (d : t) : string :=
  if negb (empty (serial d)) then
    (vendorId d ++ ":" ++ productId d ++ ":" ++ serial d)%string
  else
    (vendorId d ++ ":" ++ productId d ++ ":bus" ++ busNum d ++ "dev" ++ devNum d)%string.

End DeviceInfo.

Module UdevRule.

Record t := mk {
  name : string;
  vendorId : string;
  productId : string;
  serial : string;
  symlink : string;
  filePath : string;
  interfaceNum : string;
  priority : Z;
  isActive : bool
}.

(** A default-initialised [UdevRule] as [parseRuleFile] sees it: the strings
    are empty; [priority] and [isActive] are assigned before they are read. *)
Definition blank : t := mk "" "" "" "" "" "" "" 0 false.

Definition set_name (v : string) (r : t) : t :=
  mk v (vendorId r) (productId r) (serial r) (symlink r) (filePath r)
     (interfaceNum r) (priority r) (isActive r).
Definition set_vendorId (v : string) (r : t) : t :=
  mk (name r) v (productId r) (serial r) (symlink r) (filePath r)
     (interfaceNum r) (priority r) (isActive r).
Definition set_productId (v : string) (r : t) : t :=
  mk (name r) (vendorId r) v (serial r) (symlink r) (filePath r)
     (interfaceNum r) (priority r) (isActive r).
Definition set_serial (v : string) (r : t) : t :=
  mk (name r) (vendorId r) (productId r) v (symlink r) (filePath r)
     (interfaceNum r) (priority r) (isActive r).
Definition set_symlink (v : string) (r : t) : t :=
  mk (name r) (vendorId r) (productId r) (serial r) v (filePath r)
     (interfaceNum r) (priority r) (isActive r).
Definition set_filePath (v : string) (r : t) : t :=
  mk (name r) (vendorId r) (productId r) (serial r) (symlink r) v
     (interfaceNum r) (priority r) (isActive r).
Definition set_priority (v : Z) (r : t) : t :=
  mk (name r) (vendorId r) (productId r) (serial r) (symlink r) (filePath r)
     (interfaceNum r) v (isActive r).
Definition set_isActive (v : bool) (r : t) : t :=
  mk (name r) (vendorId r) (productId r) (serial r) (symlink r) (filePath r)
     (interfaceNum r) (priority r) v.

(** [UdevRule::matchesDevice]: three early returns, then [true]. *)
Definition matchesDevice (r : t) (device : DeviceInfo.t) : bool :=
  if negb (vendorId r =? DeviceInfo.vendorId device)%string
     || negb (productId r =? DeviceInfo.productId device)%string
  then false
  else if negb (empty (serial r)) && negb (serial r =? DeviceInfo.serial device)%string
  then false
  else if empty (serial r) && negb (empty (DeviceInfo.serial device))
  then false
  else true.

(** [UdevRule::generateRule] (UdevManager.cpp). *)
Definition generateRule (r : t) : string :=
  ("# EasyTTY auto-generated rule for " ++ name r ++ NL
   ++ "# Created by easyTTY - USB device persistent naming" ++ NL
   ++ "SUBSYSTEM==" ++ Q ++ "tty" ++ Q ++ ", "
   ++ "ATTRS{idVendor}==" ++ Q ++ vendorId r ++ Q ++ ", "
   ++ "ATTRS{idProduct}==" ++ Q ++ productId r ++ Q
   ++ (if negb (empty (serial r))
       then ", ATTRS{serial}==" ++ Q ++ serial r ++ Q else "")
   ++ ", SYMLINK+=" ++ Q ++ symlink r ++ Q ++ ", MODE=" ++ Q ++ "0666" ++ Q)%string.

(** [UdevRule::getFileName] (UdevManager.cpp). *)
Definition getFileName (r : t) : string :=
  (to_string (priority r) ++ "-easytty-" ++ symlink r ++ ".rules")%string.

End UdevRule.

Record OperationResult := mkResult { success : bool; message : string }.

Definition Success (msg : string) : OperationResult := mkResult true msg.
Definition Success0 : OperationResult := Success "Operation completed successfully".
Definition Failure (msg : string) : OperationResult := mkResult false msg.

(* ================================================================== *)
(** ** The operating system as the program sees it *)
(* ================================================================== *)

(** What a child process run through [popen] leaves behind: the text it
    wrote and the status [pclose] would report. *)
Record PopenResult := { pr_output : string; pr_status : Z }.

(** One entry handed out by [fs::directory_iterator]. *)
Record DirEntry := { de_path : string; de_is_regular_file : bool }.

(** The calls the program makes, over a state [W] of the system.  Calls that
    only observe return a value; calls that can change the system return the
    new state as well. *)
Class OsOps (W : Type) := {
  (** [geteuid() == 0] *)
  os_isRoot : W -> bool;
  (** [fs::exists(p)] *)
  os_exists : W -> string -> bool;
  (** [fs::directory_iterator(p)], in iteration order *)
  os_listDir : W -> string -> list DirEntry;
  (** [std::ifstream file(p)]: the content when the file opens *)
  os_ifstream : W -> string -> option string;
  (** [std::ofstream file(p); file << content; file.close()]: [None] when the
      file does not open *)
  os_ofstream : W -> string -> string -> option W;
  (** [fs::remove(p)]: [inl what] when it throws *)
  os_remove : W -> string -> string + W;
  (** [system(cmd)]: the return value *)
  os_system : W -> string -> Z * W;
  (** [popen(cmd, "r")], reading to the end, [pclose]: [None] when the pipe
      is not created *)
  os_popen : W -> string -> option PopenResult * W
}.

(** The state-changing calls, recorded in the order they are made. *)
Inductive Event :=
| EvPopen (cmd : string)
| EvSystem (cmd : string)
| EvOfstream (path content : string)
| EvRemove (path : string).

(** A [UdevManager] object ([rules_]) together with the system it runs on
    and the calls it has made so far. *)
Record Machine (W : Type) := mkMachine {
  rules_ : list UdevRule.t;
  world : W;
  trace : list Event
}.
Arguments mkMachine {W} _ _ _.
Arguments rules_ {W} _.
Arguments world {W} _.
Arguments trace {W} _.

(** State monad over [Machine]. *)
Definition M (W A : Type) : Type := Machine W -> A * Machine W.

Definition ret {W A} (a : A) : M W A := fun m => (a, m).
Definition bind {W A B} (c : M W A) (k : A -> M W B) : M W B :=
  fun m => let '(a, m') := c m in k a m'.

Declare Scope store_scope.
Delimit Scope store_scope with store.
Notation "x <- c ;; k" := (bind c (fun x => k))
  (at level 61, c at next level, right associativity) : store_scope.
Notation "c ;;; k" := (bind c (fun _ => k))
  (at level 61, right associativity) : store_scope.

(* ================================================================== *)
(** ** src/udev/UdevManager.cpp and src/common/Utils.cpp *)
(* ================================================================== *)

Definition DEFAULT_PRIORITY : Z := 99.
Definition RULES_DIR : string := "/etc/udev/rules.d".
Definition RULE_PREFIX : string := "99-easytty-".

(** [std::sort] with the comparison [a.symlink < b.symlink], as the insertion
    sort libstdc++ runs on up to sixteen elements: each record in turn is put
    into the sorted part before it, behind the records that are not greater,
    so that records with equal symlinks keep the order they came in.  (The
    standard leaves the order of equal records open.) *)
Fixpoint insert_by_symlink (r : UdevRule.t) (l : list UdevRule.t) : list UdevRule.t :=
  match l with
  | [] => [r]
  | x :: xs =>
      if String.ltb (UdevRule.symlink r) (UdevRule.symlink x) then r :: l
      else x :: insert_by_symlink r xs
  end.

Definition sort_by_symlink (l : list UdevRule.t) : list UdevRule.t :=
  fold_left (fun sorted r => insert_by_symlink r sorted) l [].

(** [generateRuleContent] streams out a block of comments, an empty line and
    the rule line.  The comments, given what [date] printed: *)
Definition commentHeader (created : string) (device : DeviceInfo.t) : string :=
  ("# EasyTTY auto-generated rule" ++ NL
   ++ "# Device: " ++ DeviceInfo.getDisplayName device ++ NL
   ++ "# Vendor: " ++ DeviceInfo.manufacturer device
        ++ " (" ++ DeviceInfo.vendorId device ++ ")" ++ NL
   ++ "# Product: " ++ DeviceInfo.product device
        ++ " (" ++ DeviceInfo.productId device ++ ")" ++ NL
   ++ (if negb (empty (DeviceInfo.serial device))
       then "# Serial: " ++ DeviceInfo.serial device ++ NL else "")
   ++ "# Original: " ++ DeviceInfo.devPath device ++ NL
   ++ "# Created: " ++ created ++ NL)%string.

(** The rule line, without the line feed that ends it. *)
Definition ruleLine (device : DeviceInfo.t) (symlinkName : string) : string :=
  ("SUBSYSTEM==" ++ Q ++ "tty" ++ Q ++ ", "
   ++ "ATTRS{idVendor}==" ++ Q ++ DeviceInfo.vendorId device ++ Q ++ ", "
   ++ "ATTRS{idProduct}==" ++ Q ++ DeviceInfo.productId device ++ Q
   ++ (if negb (empty (DeviceInfo.serial device))
       then ", ATTRS{serial}==" ++ Q ++ DeviceInfo.serial device ++ Q else "")
   ++ ", SYMLINK+=" ++ Q ++ symlinkName ++ Q ++ ", MODE=" ++ Q ++ "0666" ++ Q)%string.

(** The whole text. *)
Definition ruleContent (created : string) (device : DeviceInfo.t)
    (symlinkName : string) : string :=
  (commentHeader created device ++ NL ++ ruleLine device symlinkName ++ NL)%string.

Definition generateRuleFileName (symlinkName : string) : string :=
  (to_string DEFAULT_PRIORITY ++ "-easytty-" ++ symlinkName ++ ".rules")%string.

(** The body of the [while (std::getline(file, line))] loop of
    [parseRuleFile]. *)
Definition parseLine (rule : UdevRule.t) (line : string) : UdevRule.t :=
  let rule :=
    if contains "# Device:" line then
      (* line.find(":") + 1, where npos + 1 wraps to 0 *)
      let pos := match str_find ":" line with Some i => S i | None => O end in
      UdevRule.set_name (utils.trim (substr_from pos line)) rule
    else rule in
  match line with
  | EmptyString => rule
  | String c _ =>
      if (c =? "#")%char then rule
      else
        let rule := match regex_search vendorRegex line with
                    | Some m => UdevRule.set_vendorId m rule | None => rule end in
        let rule := match regex_search productRegex line with
                    | Some m => UdevRule.set_productId m rule | None => rule end in
        let rule := match regex_search serialRegex line with
                    | Some m => UdevRule.set_serial m rule | None => rule end in
        let rule := match regex_search symlinkRegex line with
                    | Some m => UdevRule.set_symlink m rule | None => rule end in
        rule
  end.

(** [parseRuleFile] once the file is open: [text] is what the stream holds. *)
Definition parseRuleText (filePath text : string) : option UdevRule.t :=
  let rule := UdevRule.set_isActive true (UdevRule.set_filePath filePath UdevRule.blank) in
  let filename := path_filename filePath in
  let rule :=
    UdevRule.set_priority
      (match stoi (substring 0 2 filename) with
       | Some v => v
       | None => DEFAULT_PRIORITY
       end) rule in
  let rule := fold_left parseLine (getlines text) rule in
  if empty (UdevRule.vendorId rule) || empty (UdevRule.symlink rule) then None
  else
    let rule := if empty (UdevRule.name rule)
                then UdevRule.set_name (UdevRule.symlink rule) rule else rule in
    Some rule.

(** The test written out in both [createRule] and [ruleExists]. *)
Definition sameDeviceTest (device : DeviceInfo.t) (rule : UdevRule.t) : bool :=
  (UdevRule.vendorId rule =? DeviceInfo.vendorId device)%string
  && (UdevRule.productId rule =? DeviceInfo.productId device)%string
  && (empty (DeviceInfo.serial device)
      || (UdevRule.serial rule =? DeviceInfo.serial device)%string).

(** [UdevManager::ruleExists], reading [rules_]. *)
Definition ruleExists (rules : list UdevRule.t) (device : DeviceInfo.t) : bool :=
  existsb (sameDeviceTest device) rules.

(** [UdevManager::symlinkExists], reading [rules_]. *)
Definition symlinkExists (rules : list UdevRule.t) (symlinkName : string) : bool :=
  existsb (fun rule => (UdevRule.symlink rule =? symlinkName)%string) rules.

(** Does [output] hold one of the two markers [reloadRules] and
    [triggerRules] look for? *)
Definition looksFailed (output : string) : bool :=
  contains "error" output || contains "failed" output.

Section UdevManager.

Context {W : Type} {OS : OsOps W}.

Local Open Scope store_scope.

Definition getRules : M W (list UdevRule.t) := fun m => (rules_ m, m).
Definition setRules (rs : list UdevRule.t) : M W unit :=
  fun m => (tt, mkMachine rs (world m) (trace m)).
Definition observe {A} (f : W -> A) : M W A := fun m => (f (world m), m).

(** A call that can change the system, recorded in the trace. *)
Definition perform {A} (ev : Event) (f : W -> A * W) : M W A :=
  fun m => let '(a, w') := f (world m) in
           (a, mkMachine (rules_ m) w' (trace m ++ [ev])).

(** [utils::isRoot]. *)
Definition isRoot : M W bool := observe os_isRoot.

(** [utils::executeCommand]: the output of the command is read with [fgets]
    piece by piece, every piece is appended as a C string, and the sum is
    trimmed; the empty string when the pipe is not created. *)
Definition executeCommand (cmd : string) : M W string :=
  r <- perform (EvPopen cmd) (fun w => os_popen w cmd) ;;
  match r with
  | None => ret ""
  | Some pr => ret (utils.trim (readPipe (pr_output pr)))
  end.

(** [UdevManager::parseRuleFile]. *)
Definition parseRuleFile (w : W) (filePath : string) : option UdevRule.t :=
  match os_ifstream w filePath with
  | None => None
  | Some text => parseRuleText filePath text
  end.

(** One turn of the loop over the directory in [loadExistingRules]. *)
Definition loadEntry (w : W) (rules : list UdevRule.t) (entry : DirEntry)
    : list UdevRule.t :=
  if negb (de_is_regular_file entry) then rules
  else
    let filename := path_filename (de_path entry) in
    if negb (contains "easytty" filename) then rules
    else if negb (utils.endsWith filename ".rules") then rules
    else match parseRuleFile w (de_path entry) with
         | Some rule => rules ++ [rule]
         | None => rules
         end.

(** [UdevManager::loadExistingRules]. *)
Definition loadExistingRules : M W unit :=
  setRules [] ;;;
  ex <- observe (fun w => os_exists w RULES_DIR) ;;
  if negb ex then ret tt
  else
    w <- observe (fun w => w) ;;
    rules <- getRules ;;
    setRules (sort_by_symlink (fold_left (loadEntry w) (os_listDir w RULES_DIR) rules)).

(** The constructor [UdevManager::UdevManager], on a system in state [w]. *)
Definition UdevManager (w : W) : Machine W :=
  snd (loadExistingRules (mkMachine [] w [])).

(** [UdevManager::generateRuleContent]. *)
Definition generateRuleContent (device : DeviceInfo.t) (symlinkName : string)
    : M W string :=
  created <- executeCommand "date" ;;
  ret (ruleContent created device symlinkName).

(** [UdevManager::writeRuleFile]. *)
Definition writeRuleFile (filePath content : string) : M W OperationResult :=
  root <- isRoot ;;
  if root then
    opened <- perform (EvOfstream filePath content)
                (fun w => match os_ofstream w filePath content with
                          | Some w' => (true, w')
                          | None => (false, w)
                          end) ;;
    if negb opened then ret (Failure ("Failed to create rule file: " ++ filePath))
    else ret Success0
  else
    let cmd := ("echo '" ++ content ++ "' | sudo tee " ++ filePath
                ++ " > /dev/null 2>&1")%string in
    r <- perform (EvSystem cmd) (fun w => os_system w cmd) ;;
    if negb (r =? 0)%Z then ret (Failure "Failed to create rule file (sudo required)")
    else ret Success0.

(** [UdevManager::removeRuleFile]. *)
Definition removeRuleFile (filePath : string) : M W OperationResult :=
  ex <- observe (fun w => os_exists w filePath) ;;
  if negb ex then ret (Failure ("Rule file does not exist: " ++ filePath))
  else
    root <- isRoot ;;
    if root then
      thrown <- perform (EvRemove filePath)
                  (fun w => match os_remove w filePath with
                            | inl what => (Some what, w)
                            | inr w' => (None, w')
                            end) ;;
      match thrown with
      | None => ret (Success "Rule deleted successfully")
      | Some what => ret (Failure ("Failed to delete rule: " ++ what))
      end
    else
      let cmd := ("sudo rm -f " ++ filePath ++ " 2>&1")%string in
      output <- executeCommand cmd ;;
      still <- observe (fun w => os_exists w filePath) ;;
      if still then ret (Failure "Failed to delete rule file (sudo required)")
      else ret (Success "Rule deleted successfully").

(** [UdevManager::createRule]. *)
Definition createRule (device : DeviceInfo.t) (symlinkName : string)
    : M W OperationResult :=
  if negb (utils.isValidSymlinkName symlinkName) then
    ret (Failure "Invalid symlink name. Use only letters, numbers, underscores, and hyphens. Must start with a letter.")
  else if negb (DeviceInfo.isValid device) then
    ret (Failure "Invalid device information")
  else
    rules <- getRules ;;
    if symlinkExists rules symlinkName then
      ret (Failure ("Symlink name '" ++ symlinkName ++ "' is already in use"))
    else
      match List.find (sameDeviceTest device) rules with
      | Some rule =>
          ret (Failure ("A rule for this device already exists as '"
                        ++ UdevRule.symlink rule ++ "'"))
      | None =>
          content <- generateRuleContent device symlinkName ;;
          let fileName := generateRuleFileName symlinkName in
          let filePath := (RULES_DIR ++ "/" ++ fileName)%string in
          result <- writeRuleFile filePath content ;;
          if negb (success result) then ret result
          else
            loadExistingRules ;;;
            ret (Success ("Rule created successfully: /dev/" ++ symlinkName))
      end.

(** [UdevManager::deleteRuleFile]. *)
Definition deleteRuleFile (filePath : string) : M W OperationResult :=
  result <- removeRuleFile filePath ;;
  if success result then loadExistingRules ;;; ret result
  else ret result.

(** [UdevManager::deleteRule]. *)
Definition deleteRule (ruleName : string) : M W OperationResult :=
  rules <- getRules ;;
  match List.find (fun rule => (UdevRule.symlink rule =? ruleName)%string
                               || (UdevRule.name rule =? ruleName)%string) rules with
  | None => ret (Failure ("Rule not found: " ++ ruleName))
  | Some it => deleteRuleFile (UdevRule.filePath it)
  end.

(** [UdevManager::refresh]. *)
Definition refresh : M W unit := loadExistingRules.

Definition reloadCmd : string := "sudo udevadm control --reload-rules 2>&1".
Definition triggerCmd : string := "sudo udevadm trigger 2>&1".

(** [UdevManager::reloadRules]. *)
Definition reloadRules : M W OperationResult :=
  output <- executeCommand reloadCmd ;;
  if looksFailed output then ret (Failure ("Failed to reload rules: " ++ output))
  else ret (Success "Rules reloaded successfully").

(** [UdevManager::triggerRules]. *)
Definition triggerRules : M W OperationResult :=
  output <- executeCommand triggerCmd ;;
  if looksFailed output then ret (Failure ("Failed to trigger rules: " ++ output))
  else ret (Success "Rules triggered successfully").

(** [UdevManager::applyRules]. *)
Definition applyRules : M W OperationResult :=
  reloadResult <- reloadRules ;;
  if negb (success reloadResult) then ret reloadResult
  else
    triggerResult <- triggerRules ;;
    if negb (success triggerResult) then ret triggerResult
    else ret (Success "Rules reloaded and applied successfully").

(** [UdevManager::verifySymlink]. *)
Definition verifySymlink (w : W) (symlinkName : string) : bool :=
  os_exists w ("/dev/" ++ symlinkName).

(** [UdevManager::hasWriteAccess] is not modelled: nothing calls it. *)

End UdevManager.

(* ================================================================== *)
(** ** A small machine to run the program on *)
(* ================================================================== *)

(** A system that holds regular files under their full paths, has the rule
    directory, answers [date] with one fixed line and every other [popen]
    command with the text [udevadm], and refuses every [system] command (no
    [sudo]). *)
Module Sim.

Record World := mkWorld {
  root : bool;
  files : list (string * string);
  udevadm : string
}.

Definition lookup (p : string) (fs : list (string * string)) : option string :=
  option_map snd (List.find (fun f => (fst f =? p)%string) fs).

Definition delete (p : string) (fs : list (string * string)) : list (string * string) :=
  filter (fun f => negb (fst f =? p)%string) fs.

Definition reply (w : World) (cmd : string) : string :=
  if (cmd =? "date")%string then ("Tue Nov  3 06:26:00 UTC 2026" ++ NL)%string
  else udevadm w.

#[global] Instance os : OsOps World := {
  os_isRoot w := root w;
  os_exists w p :=
    (p =? RULES_DIR)%string
    || match lookup p (files w) with Some _ => true | None => false end;
  os_listDir w p :=
    map (fun f => {| de_path := fst f; de_is_regular_file := true |})
        (filter (fun f => prefix (p ++ "/") (fst f)) (files w));
  os_ifstream w p := lookup p (files w);
  os_ofstream w p content :=
    Some (mkWorld (root w) (delete p (files w) ++ [(p, content)]) (udevadm w));
  os_remove w p := inr (mkWorld (root w) (delete p (files w)) (udevadm w));
  os_system w cmd := (1%Z, w);
  os_popen w cmd := (Some {| pr_output := reply w cmd; pr_status := 0 |}, w)
}.

(** A USB serial adapter with a serial number, and its twin without one. *)
Definition ftdi : DeviceInfo.t :=
  DeviceInfo.mk "/dev/ttyUSB0" "/sys/devices/usb1/1-1" "tty" "FTDI" "0403" "6001"
    "A50285BI" "FTDI" "USB-Serial Controller" "ftdi_sio" "ttyUSB0" "001" "004" "00".

Definition ftdi_noserial : DeviceInfo.t :=
  DeviceInfo.mk "/dev/ttyUSB1" "/sys/devices/usb1/1-2" "tty" "FTDI" "0403" "6001"
    "" "FTDI" "USB-Serial Controller" "ftdi_sio" "ttyUSB1" "001" "005" "00".

(** Valid devices whose attributes the parser does not read back: a vendor
    id that is not hexadecimal, a serial that holds a double quote, a serial
    that ends in the symlink key, a product id that is not hexadecimal, and a
    product name that holds a line feed. *)
Definition odd_vendor : DeviceInfo.t :=
  DeviceInfo.mk "/dev/ttyUSB0" "" "tty" "" "04g3" "6001" "A1" "ACME" "Adapter" ""
    "ttyUSB0" "001" "002" "00".

Definition quoted_serial : DeviceInfo.t :=
  DeviceInfo.mk "/dev/ttyUSB0" "" "tty" "" "0403" "6001" ("A" ++ Q ++ "1") "ACME"
    "Adapter" "" "ttyUSB0" "001" "002" "00".

Definition symlink_serial : DeviceInfo.t :=
  DeviceInfo.mk "/dev/ttyUSB0" "" "tty" "" "0403" "6001" "xSYMLINK+=" "ACME"
    "Adapter" "" "ttyUSB0" "001" "002" "00".

Definition odd_product : DeviceInfo.t :=
  DeviceInfo.mk "/dev/ttyUSB0" "" "tty" "" "0403" "60g1" "A1" "ACME" "Adapter" ""
    "ttyUSB0" "001" "002" "00".

Definition two_line_product : DeviceInfo.t :=
  DeviceInfo.mk "/dev/ttyUSB0" "" "tty" "" "0403" "6001" "" "ACME"
    ("Adapter" ++ NL ++ "ATTRS{serial}==" ++ Q ++ "zz" ++ Q) ""
    "ttyUSB0" "001" "002" "00".

(** A root user's machine with an empty rule directory. *)
Definition fresh : World := mkWorld true [] "".

(** A machine on which the device manager answers with a complaint. *)
Definition broken : World :=
  mkWorld true [] ("udevadm control: error: permission denied" ++ NL).

(** A machine of a user who is not root. *)
Definition unprivileged : World := mkWorld false [] "".

(** The fresh machine after [createRule ftdi "RS485_1"]. *)
Definition one_rule : Machine World :=
  snd (createRule ftdi "RS485_1" (UdevManager fresh)).

(** The record the file written by that call is parsed into. *)
Definition rule_RS485_1 : UdevRule.t :=
  UdevRule.mk "USB-Serial Controller (ttyUSB0)" "0403" "6001" "A50285BI" "RS485_1"
    "/etc/udev/rules.d/99-easytty-RS485_1.rules" "" 99 true.

(** A machine whose only rule file has a three-digit priority in its name. *)
Definition prio100 : World :=
  mkWorld true
    [("/etc/udev/rules.d/100-easytty-x.rules",
      ruleContent "Tue Nov  3 06:26:00 UTC 2026" ftdi "x")] "".

(** An adapter of another make. *)
Definition cp210x : DeviceInfo.t :=
  DeviceInfo.mk "/dev/ttyUSB2" "/sys/devices/usb1/1-3" "tty" "Silicon Labs" "10c4" "ea60"
    "0001" "Silicon Labs" "CP2102 USB to UART Bridge Controller" "cp210x" "ttyUSB2"
    "001" "006" "00".

(** The fresh machine after [createRule ftdi "RS485_1"] and then
    [createRule cp210x "GPS"]: the directory lists the older file first. *)
Definition two_rules : Machine World :=
  snd (createRule cp210x "GPS" one_rule).

(** The system that holds the rule file of [one_rule], in the hands of a user
    who is not root and cannot use [sudo]: [system] returns 1 and [sudo rm]
    removes nothing. *)
Definition locked : World :=
  mkWorld false
    [("/etc/udev/rules.d/99-easytty-RS485_1.rules",
      ruleContent "Tue Nov  3 06:26:00 UTC 2026" ftdi "RS485_1")] "".

(** A machine with two rule files whose names start with a sign and a digit,
    and with two digits. *)
Definition priorities : World :=
  mkWorld true
    [("/etc/udev/rules.d/-5-easytty-a.rules",
      ruleContent "Tue Nov  3 06:26:00 UTC 2026" ftdi "a");
     ("/etc/udev/rules.d/42-easytty-b.rules",
      ruleContent "Tue Nov  3 06:26:00 UTC 2026" cp210x "b")] "".

(** The records these two files are parsed into. *)
Definition rule_a : UdevRule.t :=
  UdevRule.mk "USB-Serial Controller (ttyUSB0)" "0403" "6001" "A50285BI" "a"
    "/etc/udev/rules.d/-5-easytty-a.rules" "" (-5) true.

Definition rule_b : UdevRule.t :=
  UdevRule.mk "CP2102 USB to UART Bridge Controller (ttyUSB2)" "10c4" "ea60" "0001" "b"
    "/etc/udev/rules.d/42-easytty-b.rules" "" 42 true.

(** A machine with two rule files for one symlink, the one with the greater
    file name first in the directory. *)
Definition twins : World :=
  mkWorld true
    [("/etc/udev/rules.d/99-easytty-x.rules",
      ruleContent "Tue Nov  3 06:26:00 UTC 2026" ftdi "x");
     ("/etc/udev/rules.d/98-easytty-x.rules",
      ruleContent "Tue Nov  3 06:26:00 UTC 2026" cp210x "x")] "".


End Sim.

(* ================================================================== *)
(** ** src/device/DeviceDetector.cpp *)
(* ================================================================== *)

Module DeviceDetector.

(** A parent [udev_device] as the detector reads it: its sysfs attributes
    ([udev_device_get_sysattr_value]) and its driver
    ([udev_device_get_driver]); [None] is the null pointer. *)
Record UsbNode := {
  un_sysattr : string -> option string;
  un_driver : option string
}.

(** A [udev_device] of the tty subsystem: device node, syspath, subsystem,
    and the parents found by [udev_device_get_parent_with_subsystem_devtype]
    for ["usb"]/["usb_device"] and ["usb"]/["usb_interface"]. *)
Record TtyDevice := {
  td_devnode : option string;
  td_syspath : option string;
  td_subsystem : option string;
  td_usb_device : option UsbNode;
  td_usb_interface : option UsbNode
}.

(** The udev context: the syspaths an enumeration of the tty subsystem lists
    ([None] when [udev_enumerate_new] fails), and
    [udev_device_new_from_syspath]. *)
Record Udev := {
  enumerate_tty : option (list string);
  device_from_syspath : string -> option TtyDevice
}.

(** [s.rfind(c)]: index of the last occurrence. *)
Fixpoint rfind (c : ascii) (s : string) : option nat :=
  match s with
  | EmptyString => None
  | String a r =>
      match rfind c r with
      | Some i => Some (S i)
      | None => if (a =? c)%char then Some O else None
      end
  end.

(** [s.substr(s.rfind('/') + 1)], where [npos + 1] wraps to 0. *)
Definition afterLastSlash (s : string) : string :=
  substr_from (match rfind "/" s with Some i => S i | None => O end) s.

(** [DeviceDetector::getSysAttr]. *)
Definition getSysAttr (dev : UsbNode) (attr : string) : string :=
  match un_sysattr dev attr with
  | Some value => utils.trim value
  | None => ""
  end.

(** [DeviceDetector::extractDeviceInfo].  The source also stores the sysname
    of the USB parent in a field [kernelPath], which the [DeviceInfo] of
    Types.hpp does not have; that assignment has no counterpart here. *)
Definition extractDeviceInfo (dev : TtyDevice) : DeviceInfo.t :=
  let devPath := match td_devnode dev with Some n => n | None => "" end in
  let devNode := match td_devnode dev with Some n => afterLastSlash n | None => "" end in
  let sysPath := match td_syspath dev with Some p => p | None => "" end in
  let subsystem := match td_subsystem dev with Some p => p | None => "" end in
  let usb f := match td_usb_device dev with Some u => f u | None => "" end in
  let driver0 :=
    match td_usb_device dev with
    | Some u => match un_driver u with Some v => v | None => "" end
    | None => ""
    end in
  let driver :=
    match td_usb_interface dev with
    | Some i => match un_driver i with Some v => v | None => driver0 end
    | None => driver0
    end in
  let interfaceNum :=
    match td_usb_interface dev with
    | Some i => getSysAttr i "bInterfaceNumber"
    | None => ""
    end in
  DeviceInfo.mk devPath sysPath subsystem ""
    (usb (fun u => utils.formatHexId (getSysAttr u "idVendor")))
    (usb (fun u => utils.formatHexId (getSysAttr u "idProduct")))
    (usb (fun u => getSysAttr u "serial"))
    (usb (fun u => getSysAttr u "manufacturer"))
    (usb (fun u => getSysAttr u "product"))
    driver devNode
    (usb (fun u => getSysAttr u "busnum"))
    (usb (fun u => getSysAttr u "devnum"))
    interfaceNum.

(** The filter of [scanDevices] on the device node. *)
Definition isSerialNode (devPath : string) : bool :=
  contains "ttyUSB" devPath || contains "ttyACM" devPath
  || contains "ttyAMA" devPath || contains "ttySC" devPath.

(** One turn of the loop over the enumeration in [scanDevices]. *)
Definition scanEntry (u : Udev) (devices : list DeviceInfo.t) (path : string)
    : list DeviceInfo.t :=
  match device_from_syspath u path with
  | Some dev =>
      match td_devnode dev with
      | Some devNode =>
          if isSerialNode devNode then
            let info := extractDeviceInfo dev in
            if DeviceInfo.isValid info then devices ++ [info] else devices
          else devices
      | None => devices
      end
  | None => devices
  end.

(** [std::sort] with the comparison [a.devPath < b.devPath], as the insertion
    sort libstdc++ runs on up to sixteen elements; devices with equal paths
    keep the order they came in. *)
Fixpoint insert_by_devPath (d : DeviceInfo.t) (l : list DeviceInfo.t)
    : list DeviceInfo.t :=
  match l with
  | [] => [d]
  | x :: xs =>
      if String.ltb (DeviceInfo.devPath d) (DeviceInfo.devPath x) then d :: l
      else x :: insert_by_devPath d xs
  end.

Definition sort_by_devPath (l : list DeviceInfo.t) : list DeviceInfo.t :=
  fold_left (fun sorted d => insert_by_devPath d sorted) l [].

(** [DeviceDetector::scanDevices()]: the new value of [devices_], which is
    also what is returned. *)
Definition scanDevices (u : Udev) : list DeviceInfo.t :=
  match enumerate_tty u with
  | None => []
  | Some paths => sort_by_devPath (fold_left (scanEntry u) paths [])
  end.

(** [DeviceDetector::scanDevices(pattern)]. *)
Definition scanDevicesMatching (u : Udev) (pattern : string) : list DeviceInfo.t :=
  filter (fun dev => contains pattern (DeviceInfo.devPath dev)) (scanDevices u).

(** [DeviceDetector::getDeviceInfo].  The device the source first asks for by
    device number is dropped at once and plays no part. *)
Definition getDeviceInfo (u : Udev) (devPath : string) : option DeviceInfo.t :=
  let sysPath := ("/sys/class/tty/" ++ afterLastSlash devPath)%string in
  match device_from_syspath u sysPath with
  | None =>
      List.find (fun device => (DeviceInfo.devPath device =? devPath)%string)
        (scanDevices u)
  | Some dev =>
      let info := extractDeviceInfo dev in
      if DeviceInfo.isValid info then Some info else None
  end.

End DeviceDetector.

(* ================================================================== *)
(** ** src/tui/Menu.cpp: items, selection and scrolling *)
(* ================================================================== *)

Inductive MenuItemType := Action | Submenu | Toggle | Input | Separator | Back.

Module Menu.

(** A [MenuItem] without its [action], which only the caller's code runs. *)
Record MenuItem := {
  label : string;
  description : string;
  type : MenuItemType;
  enabled : bool;
  value : string
}.

(** The part of a [Menu] the navigation works on. *)
Record t := mk {
  items_ : list MenuItem;
  selectedIndex_ : Z;
  scrollOffset_ : Z
}.

Definition blankItem : MenuItem := Build_MenuItem "" "" Separator false "".

(** [items_[i]] for an index inside the vector. *)
Definition item_at (items : list MenuItem) (i : Z) : MenuItem :=
  nth (Z.to_nat i) items blankItem.

Definition size (items : list MenuItem) : Z := Z.of_nat (List.length items).

(** [Menu::isSelectable]. *)
Definition isSelectable (item : MenuItem) : bool :=
  match type item with Separator => false | _ => enabled item end.

(** [Menu::ensureVisible], given what [getVisibleHeight] returns. *)
Definition ensureVisible (visibleHeight : Z) (menu : t) : t :=
  if (selectedIndex_ menu <? scrollOffset_ menu)%Z then
    mk (items_ menu) (selectedIndex_ menu) (selectedIndex_ menu)
  else if (selectedIndex_ menu >=? scrollOffset_ menu + visibleHeight)%Z then
    mk (items_ menu) (selectedIndex_ menu) (selectedIndex_ menu - visibleHeight + 1)
  else menu.

(** [Menu::getVisibleHeight], given the height of the screen if there is
    one. *)
Definition getVisibleHeight (screenHeight : option Z) : Z :=
  match screenHeight with
  | None => 10
  | Some height => height - 8
  end.

(** [Menu::setSelectedIndex]. *)
Definition setSelectedIndex (visibleHeight : Z) (index : Z) (menu : t) : t :=
  if ((index >=? 0) && (index <? size (items_ menu)))%Z
  then ensureVisible visibleHeight (mk (items_ menu) index (scrollOffset_ menu))
  else menu.

(** [Menu::clearItems], [Menu::addItems] and [Menu::setItems]. *)
Definition clearItems (menu : t) : t := mk [] 0 0.
Definition addItems (items : list MenuItem) (menu : t) : t :=
  mk (items_ menu ++ items) (selectedIndex_ menu) (scrollOffset_ menu).
Definition setItems (items : list MenuItem) (menu : t) : t :=
  addItems items (clearItems menu).

(** The [do ... while] loop of [Menu::moveDown], run for at most [fuel]
    turns; [None] when the turns are used up before the loop ends. *)
Fixpoint moveDownLoop (fuel : nat) (items : list MenuItem) (start sel : Z) : option Z :=
  match fuel with
  | O => None
  | S fuel' =>
      let sel := (sel + 1)%Z in
      let sel := if (sel >=? size items)%Z then 0%Z else sel in
      if negb (isSelectable (item_at items sel)) && negb (sel =? start)%Z
      then moveDownLoop fuel' items start sel
      else Some sel
  end.

(** The loop of [Menu::moveUp]. *)
Fixpoint moveUpLoop (fuel : nat) (items : list MenuItem) (start sel : Z) : option Z :=
  match fuel with
  | O => None
  | S fuel' =>
      let sel := (sel - 1)%Z in
      let sel := if (sel <? 0)%Z then (size items - 1)%Z else sel in
      if negb (isSelectable (item_at items sel)) && negb (sel =? start)%Z
      then moveUpLoop fuel' items start sel
      else Some sel
  end.

(** [Menu::moveDown] and [Menu::moveUp]; [None] when the loop does not end
    within [fuel] turns. *)
Definition moveDown (fuel : nat) (visibleHeight : Z) (menu : t) : option t :=
  match items_ menu with
  | [] => Some menu
  | _ =>
      match moveDownLoop fuel (items_ menu) (selectedIndex_ menu) (selectedIndex_ menu) with
      | Some sel => Some (ensureVisible visibleHeight
                            (mk (items_ menu) sel (scrollOffset_ menu)))
      | None => None
      end
  end.

Definition moveUp (fuel : nat) (visibleHeight : Z) (menu : t) : option t :=
  match items_ menu with
  | [] => Some menu
  | _ =>
      match moveUpLoop fuel (items_ menu) (selectedIndex_ menu) (selectedIndex_ menu) with
      | Some sel => Some (ensureVisible visibleHeight
                            (mk (items_ menu) sel (scrollOffset_ menu)))
      | None => None
      end
  end.

(** The loop at the start of [Menu::run] that looks for the first selectable
    item from [selectedIndex_] on: [rest] is the part of the vector from
    [sel]. *)
Fixpoint firstSelectable (rest : list MenuItem) (sel : Z) : Z :=
  match rest with
  | [] => sel
  | item :: rest' =>
      if negb (isSelectable item) then firstSelectable rest' (sel + 1)%Z else sel
  end.

End Menu.

(* ================================================================== *)
(** ** src/app/Application.cpp: labels and the create dialog *)
(* ================================================================== *)

Module Application.

(** The serial as the two list labels show it. *)
Definition shortSerial (serial : string) : string :=
  if (8 <? String.length serial)%nat then (substring 0 8 serial ++ "..")%string
  else serial.

(** [Application::formatDeviceForList]. *)
Definition formatDeviceForList (device : DeviceInfo.t) : string :=
  (DeviceInfo.devNode device
   ++ (if negb (empty (DeviceInfo.product device))
       then " - " ++ DeviceInfo.product device
       else if negb (empty (DeviceInfo.manufacturer device))
            then " - " ++ DeviceInfo.manufacturer device
            else "")
   ++ " [" ++ DeviceInfo.vendorId device ++ ":" ++ DeviceInfo.productId device
   ++ (if negb (empty (DeviceInfo.serial device))
       then " S:" ++ shortSerial (DeviceInfo.serial device) else "")
   ++ "]")%string.

(** [Application::formatRuleForList]. *)
Definition formatRuleForList (rule : UdevRule.t) : string :=
  (UdevRule.symlink rule
   ++ " [" ++ UdevRule.vendorId rule ++ ":" ++ UdevRule.productId rule
   ++ (if negb (empty (UdevRule.serial rule))
       then " S:" ++ shortSerial (UdevRule.serial rule) else "")
   ++ "]")%string.

(** A message dialog: title, message, error flag. *)
Record Dialog := { dlg_title : string; dlg_message : string; dlg_isError : bool }.

Section CreateDialog.

Context {W : Type} {OS : OsOps W}.

Local Open Scope store_scope.

(** [Application::createRuleForDevice], given what the input dialog returned
    and what the confirmation dialog would answer; the result is the message
    dialog shown at the end, if any. *)
Definition createRuleForDevice (input : string) (confirmed : bool)
    (device : DeviceInfo.t) : M W (option Dialog) :=
  let symlinkName := utils.trim input in
  if empty symlinkName then
    ret (Some {| dlg_title := "Cancelled";
                 dlg_message := "No name entered, rule not created.";
                 dlg_isError := false |})
  else if negb (utils.isValidSymlinkName symlinkName) then
    ret (Some {| dlg_title := "Invalid Name";
                 dlg_message := "Name must start with letter, contain only letters, numbers, _ or -";
                 dlg_isError := true |})
  else if negb confirmed then ret None
  else
    result <- createRule device symlinkName ;;
    if success result then
      applyResult <- applyRules ;;
      ret (Some {| dlg_title := "Success";
                   dlg_message :=
                     ("Rule created: /dev/" ++ symlinkName
                      ++ (if success applyResult
                          then NL ++ "Rules applied successfully!" else ""))%string;
                   dlg_isError := false |})
    else
      ret (Some {| dlg_title := "Error"; dlg_message := message result;
                   dlg_isError := true |}).

End CreateDialog.

End Application.

(* ================================================================== *)
(** ** What the specification says, in its own words *)
(* ================================================================== *)

(** The matching predicate of the specification: vendor and product are
    equal and the serial-presence conditions agree. *)
Definition spec_matches (r : UdevRule.t) (d : DeviceInfo.t) : Prop :=
  UdevRule.vendorId r = DeviceInfo.vendorId d
  /\ UdevRule.productId r = DeviceInfo.productId d
  /\ (UdevRule.serial r <> "" -> UdevRule.serial r = DeviceInfo.serial d)
  /\ (UdevRule.serial r = "" -> DeviceInfo.serial d = "").

(** The test the store applies: vendor and product are equal, and the device
    has no serial or the rule carries the device's serial. *)
Definition store_matches (r : UdevRule.t) (d : DeviceInfo.t) : Prop :=
  UdevRule.vendorId r = DeviceInfo.vendorId d
  /\ UdevRule.productId r = DeviceInfo.productId d
  /\ (DeviceInfo.serial d = "" \/ UdevRule.serial r = DeviceInfo.serial d).

(** The failure [createRule] reports for a device that is already bound. *)
Definition isDuplicateFailure (res : OperationResult) : bool :=
  negb (success res)
  && prefix "A rule for this device already exists as '" (message res).

(** The naming grammar: the name starts with a letter, the remaining
    characters are letters, digits, underscores or hyphens, and the length is
    at most 64. *)
Definition is_letter (c : ascii) : Prop :=
  (code "a" <= code c <= code "z" \/ code "A" <= code c <= code "Z")%N.

Definition is_name_char (c : ascii) : Prop :=
  is_letter c \/ (code "0" <= code c <= code "9")%N \/ c = "_"%char \/ c = "-"%char.

Definition spec_name_grammar (n : string) : Prop :=
  (exists c r, n = String c r /\ is_letter c
               /\ forall x, In x (list_ascii_of_string r) -> is_name_char x)
  /\ (String.length n <= 64)%nat.

Definition invalidNameFailure : OperationResult :=
  Failure "Invalid symlink name. Use only letters, numbers, underscores, and hyphens. Must start with a letter.".

(** What the cache is expected to hold: records with a vendor id, a symlink
    and a name. *)
Definition complete (r : UdevRule.t) : Prop :=
  UdevRule.vendorId r <> "" /\ UdevRule.symlink r <> "" /\ UdevRule.name r <> "".

Section Lifecycle.

Context {W : Type} {OS : OsOps W}.

(** The states a [UdevManager] goes through: it is constructed on some
    system, its public operations are called in any order with any
    arguments, and between calls the system may change on its own. *)
Inductive Reachable : Machine W -> Prop :=
| reach_new (w : W) : Reachable (UdevManager w)
| reach_createRule m d n : Reachable m -> Reachable (snd (createRule d n m))
| reach_deleteRule m n : Reachable m -> Reachable (snd (deleteRule n m))
| reach_deleteRuleFile m p : Reachable m -> Reachable (snd (deleteRuleFile p m))
| reach_refresh m : Reachable m -> Reachable (snd (refresh m))
| reach_reloadRules m : Reachable m -> Reachable (snd (reloadRules m))
| reach_triggerRules m : Reachable m -> Reachable (snd (triggerRules m))
| reach_applyRules m : Reachable m -> Reachable (snd (applyRules m))
| reach_outside m w' : Reachable m -> Reachable (mkMachine (rules_ m) w' (trace m)).

End Lifecycle.

(** Text that holds no line feed. *)
Definition single_line (s : string) : bool :=
  forallb_str (fun c => negb (c =? lf)%char) s.

(** Text that can stand between double quotes on one line. *)
Definition quotable (s : string) : bool :=
  forallb_str (fun c => cls_notquote c && negb (c =? lf)%char) s.

(** The device attributes and the time stamp that go into comment lines hold
    no line feed. *)
Definition comments_single_line (created : string) (d : DeviceInfo.t) : bool :=
  single_line (DeviceInfo.product d) && single_line (DeviceInfo.devNode d)
  && single_line (DeviceInfo.manufacturer d) && single_line (DeviceInfo.devPath d)
  && single_line created.

(* ================================================================== *)
(** ** Definitions the proofs use *)
(* ================================================================== *)

(** The priority [parseRuleFile] derives from a file name. *)
Definition filePriority (filename : string) : Z :=
  match stoi (substring 0 2 filename) with
  | Some v => v
  | None => DEFAULT_PRIORITY
  end.

(** The last character of [pat] exists and is not white space. *)
Fixpoint ends_nonspace (pat : string) : bool :=
  match pat with
  | EmptyString => false
  | String c EmptyString => negb (isspace c)
  | String _ r => ends_nonspace r
  end.

Definition starts_nonspace (pat : string) : bool :=
  match pat with
  | EmptyString => false
  | String c _ => negb (isspace c)
  end.

(** [clash pat s]: matching [pat] at the start of [s] meets a character of
    [s] that differs, whatever follows [s]. *)
Fixpoint clash (pat s : string) : bool :=
  match pat, s with
  | String p pat', String c s' => if (p =? c)%char then clash pat' s' else true
  | _, _ => false
  end.

Fixpoint all_clash (pat s : string) : bool :=
  match s with
  | EmptyString => true
  | String _ s' => clash pat s && all_clash pat s'
  end.

(** The fixed pieces of a rule line. *)
Definition lineStart : string :=
  Eval cbv in ("SUBSYSTEM==" ++ Q ++ "tty" ++ Q ++ ", ")%string.
Definition sep : string := Eval cbv in (Q ++ ", ")%string.
Definition lineEnd : string := Eval cbv in (Q ++ ", MODE=" ++ Q ++ "0666" ++ Q)%string.

(** From the quote that closes the value before the symlink to the end. *)
Definition symlinkPart (n : string) : string :=
  (sep ++ symlinkLit ++ n ++ lineEnd)%string.

Definition serialPart (s n : string) : string :=
  match s with
  | EmptyString => symlinkPart n
  | String _ _ => (sep ++ serialLit ++ s ++ symlinkPart n)%string
  end.

Definition lineOf (v p s n : string) : string :=
  (lineStart ++ vendorLit ++ v ++ sep ++ productLit ++ p ++ serialPart s n)%string.

(** Lines, each closed by a line feed. *)
Definition unlines (ls : list string) : string :=
  fold_right (fun l acc => (l ++ NL ++ acc)%string) "" ls.

(** The comment lines of [commentHeader]. *)
Definition headerLines (created : string) (d : DeviceInfo.t) : list string :=
  [ "# EasyTTY auto-generated rule";
    ("# Device: " ++ DeviceInfo.getDisplayName d)%string;
    ("# Vendor: " ++ DeviceInfo.manufacturer d
       ++ " (" ++ DeviceInfo.vendorId d ++ ")")%string;
    ("# Product: " ++ DeviceInfo.product d
       ++ " (" ++ DeviceInfo.productId d ++ ")")%string ]
  ++ (if negb (empty (DeviceInfo.serial d))
      then [("# Serial: " ++ DeviceInfo.serial d)%string] else [])
  ++ [ ("# Original: " ++ DeviceInfo.devPath d)%string;
       ("# Created: " ++ created)%string ].

(** The four fields the round trip is about. *)
Definition fieldsOf (r : UdevRule.t) : string * string * string * string :=
  (UdevRule.vendorId r, UdevRule.productId r, UdevRule.serial r, UdevRule.symlink r).

(** What [parseRuleFile] reads back from the text rendered for [d] under the
    name [RS485_1]. *)
Definition readBack (d : DeviceInfo.t) : option (string * string * string * string) :=
  option_map fieldsOf
    (parseRuleText "/etc/udev/rules.d/99-easytty-RS485_1.rules"
       (ruleContent "Tue Nov  3 06:26:00 UTC 2026" d "RS485_1")).


Section Observations.

Context {W : Type} {OS : OsOps W}.

(** The files a reload reads: regular, with the tool's name in the file name
    and the rule-file extension. *)
Definition accepted (w : W) (e : DirEntry) (r : UdevRule.t) : Prop :=
  de_is_regular_file e = true
  /\ contains "easytty" (path_filename (de_path e)) = true
  /\ utils.endsWith (path_filename (de_path e)) ".rules" = true
  /\ exists text, os_ifstream w (de_path e) = Some text
                  /\ parseRuleText (de_path e) text = Some r.


(** What [executeCommand] collects of it, before trimming: of every piece
    [fgets] hands over, the characters before the first NUL. *)
Definition commandRead (w : W) (cmd : string) : string :=
  match fst (os_popen w cmd) with
  | Some pr => readPipe (pr_output pr)
  | None => ""
  end.

End Observations.

(* ================================================================== *)
(** ** Definitions the further properties use *)
(* ================================================================== *)

(** What [split] is undone by: every token followed by the delimiter. *)
Definition joinTokens (delimiter : ascii) (tokens : list string) : string :=
  fold_right (fun t acc => (t ++ String delimiter acc)%string) "" tokens.

(** A token that does not hold the delimiter. *)
Definition delimiter_free (delimiter : ascii) (t : string) : bool :=
  forallb_str (fun c => negb (c =? delimiter)%char) t.

(** A line the parser passes over for the four fields: empty, or a comment. *)
Definition passedOver (l : string) : Prop := l = "" \/ exists t, l = String "#" t.

(** The order [loadExistingRules] sorts by: [b.symlink < a.symlink] does not
    hold. *)
Definition symlink_le (a b : UdevRule.t) : Prop :=
  String.leb (UdevRule.symlink a) (UdevRule.symlink b) = true.

(** What a reload leaves in every record beyond C9: the flags the parser
    sets, the shape of the file name and the range of the priority. *)
Definition wellFormed (r : UdevRule.t) : Prop :=
  UdevRule.isActive r = true
  /\ UdevRule.interfaceNum r = ""
  /\ contains "easytty" (path_filename (UdevRule.filePath r)) = true
  /\ utils.endsWith (path_filename (UdevRule.filePath r)) ".rules" = true
  /\ (-9 <= UdevRule.priority r <= 99)%Z.

(** The four checks [createRule] makes before it touches the system. *)
Definition createChecks (rules : list UdevRule.t) (d : DeviceInfo.t) (n : string) : bool :=
  utils.isValidSymlinkName n && DeviceInfo.isValid d
  && negb (symlinkExists rules n) && negb (ruleExists rules d).

(** The command [writeRuleFile] hands to [system] when the user is not root. *)
Definition teeCommand (filePath content : string) : string :=
  ("echo '" ++ content ++ "' | sudo tee " ++ filePath ++ " > /dev/null 2>&1")%string.

(** The command [removeRuleFile] runs when the user is not root. *)
Definition rmCommand (filePath : string) : string :=
  ("sudo rm -f " ++ filePath ++ " 2>&1")%string.

(** The order [scanDevices] sorts by: [b.devPath < a.devPath] does not
    hold. *)
Definition devPath_le (a b : DeviceInfo.t) : Prop :=
  String.leb (DeviceInfo.devPath a) (DeviceInfo.devPath b) = true.

(** What [scanDevices] keeps of one enumerated syspath. *)
Definition scanned (u : DeviceDetector.Udev) (path : string) (d : DeviceInfo.t) : Prop :=
  exists dev node,
    DeviceDetector.device_from_syspath u path = Some dev
    /\ DeviceDetector.td_devnode dev = Some node
    /\ DeviceDetector.isSerialNode node = true
    /\ d = DeviceDetector.extractDeviceInfo dev
    /\ DeviceInfo.isValid d = true.

(** A menu of four lines: an action, a separator, a disabled action and the
    way back. *)
Definition sampleItems : list Menu.MenuItem :=
  [ Menu.Build_MenuItem "Create rule" "" Action true "";
    Menu.Build_MenuItem "" "" Separator false "";
    Menu.Build_MenuItem "Delete rule" "" Action false "";
    Menu.Build_MenuItem "Back" "" Back true "" ].

(** That menu with the first line selected. *)
Definition sampleMenu : Menu.t := Menu.mk sampleItems 0 0.

(** A menu whose only lines are a separator and a disabled action. *)
Definition deadItems : list Menu.MenuItem :=
  [ Menu.Build_MenuItem "" "" Separator false "";
    Menu.Build_MenuItem "Delete rule" "" Action false "" ].

(** The part of a label that shows the serial. *)
Definition serialLabel (serial : string) : string :=
  if negb (empty serial) then (" S:" ++ Application.shortSerial serial)%string else "".

(** Two adapters of one make whose serials differ after the eighth
    character. *)
Definition ftdi_long_1 : DeviceInfo.t :=
  DeviceInfo.mk "/dev/ttyUSB0" "/sys/devices/usb1/1-1" "tty" "FTDI" "0403" "6001"
    "A50285BI-0001" "FTDI" "USB-Serial Controller" "ftdi_sio" "ttyUSB0" "001" "004" "00".

Definition ftdi_long_2 : DeviceInfo.t :=
  DeviceInfo.mk "/dev/ttyUSB0" "/sys/devices/usb1/1-2" "tty" "FTDI" "0403" "6001"
    "A50285BI-0002" "FTDI" "USB-Serial Controller" "ftdi_sio" "ttyUSB0" "001" "005" "00".

(** A udev context with three tty devices: two adapters on USB, listed
    out of order, and a serial port of the board with no USB ancestor. *)
Definition sampleUsb (serial : string) : DeviceDetector.UsbNode :=
  {| DeviceDetector.un_sysattr := fun attr =>
       if (attr =? "idVendor")%string then Some ("403" ++ NL)%string
       else if (attr =? "idProduct")%string then Some "6001"
       else if (attr =? "serial")%string then Some (serial ++ NL)%string
       else if (attr =? "product")%string then Some "FT232R USB UART"
       else None;
     DeviceDetector.un_driver := Some "usb" |}.

Definition sampleTty (node : string) (usb : option DeviceDetector.UsbNode)
    : DeviceDetector.TtyDevice :=
  {| DeviceDetector.td_devnode := Some ("/dev/" ++ node)%string;
     DeviceDetector.td_syspath := Some ("/sys/class/tty/" ++ node)%string;
     DeviceDetector.td_subsystem := Some "tty";
     DeviceDetector.td_usb_device := usb;
     DeviceDetector.td_usb_interface :=
       option_map (fun _ => {| DeviceDetector.un_sysattr := fun _ => None;
                               DeviceDetector.un_driver := Some "ftdi_sio" |}) usb |}.

Definition sampleUdev : DeviceDetector.Udev :=
  {| DeviceDetector.enumerate_tty :=
       Some ["/sys/class/tty/ttyUSB1"; "/sys/class/tty/ttyAMA0"; "/sys/class/tty/ttyUSB0"];
     DeviceDetector.device_from_syspath := fun path =>
       if (path =? "/sys/class/tty/ttyUSB0")%string
       then Some (sampleTty "ttyUSB0" (Some (sampleUsb "A50285BI")))
       else if (path =? "/sys/class/tty/ttyUSB1")%string
       then Some (sampleTty "ttyUSB1" (Some (sampleUsb "")))
       else if (path =? "/sys/class/tty/ttyAMA0")%string
       then Some (sampleTty "ttyAMA0" None)
       else None |}.

(* ================================================================== *)
(** ** Strings: general facts *)
(* ================================================================== *)

Lemma empty_true_iff (s : string) : empty s = true <-> s = "".
Proof. destruct s; simpl; split; congruence. Qed.

Lemma empty_false_iff (s : string) : empty s = false <-> s <> "".
Proof. destruct s; simpl; split; congruence. Qed.

Lemma append_assoc (a b c : string) : ((a ++ b) ++ c = a ++ b ++ c)%string.
Proof. induction a as [|x a IH]; simpl; congruence. Qed.

Lemma append_nil_r (a : string) : (a ++ "")%string = a.
Proof. induction a as [|x a IH]; simpl; congruence. Qed.

Lemma length_append (a b : string) :
  String.length (a ++ b) = (String.length a + String.length b)%nat.
Proof. induction a as [|x a IH]; simpl; congruence. Qed.

Lemma forallb_str_append (p : ascii -> bool) (a b : string) :
  forallb_str p (a ++ b) = forallb_str p a && forallb_str p b.
Proof.
  induction a as [|c a IH]; [reflexivity|].
  cbn [append forallb_str]. now rewrite IH, andb_assoc.
Qed.

Lemma prefix_append (p s : string) : prefix p (p ++ s) = true.
Proof.
  induction p as [|c p IH]; simpl.
  - now destruct s.
  - destruct (ascii_dec c c); [assumption | congruence].
Qed.

(* ================================================================== *)
(** ** The matching predicate *)
(* ================================================================== *)

Lemma matchesDevice_iff (r : UdevRule.t) (d : DeviceInfo.t) :
  UdevRule.matchesDevice r d = true <-> spec_matches r d.
Proof.
  unfold UdevRule.matchesDevice, spec_matches.
  destruct (String.eqb_spec (UdevRule.vendorId r) (DeviceInfo.vendorId d)) as [Hv|Hv];
  destruct (String.eqb_spec (UdevRule.productId r) (DeviceInfo.productId d)) as [Hp|Hp];
  destruct (String.eqb_spec (UdevRule.serial r) (DeviceInfo.serial d)) as [Hs|Hs];
  destruct (UdevRule.serial r) as [|a s] eqn:Er;
  destruct (DeviceInfo.serial d) as [|b t] eqn:Ed;
  simpl; split; intros H; try congruence; try tauto;
  try (repeat split; intros; congruence);
  destruct H as (H1 & H2 & H3 & H4); try congruence;
  try (specialize (H4 eq_refl); congruence);
  try (specialize (H3 ltac:(discriminate)); congruence).
Qed.

Lemma sameDeviceTest_iff (d : DeviceInfo.t) (r : UdevRule.t) :
  sameDeviceTest d r = true <-> store_matches r d.
Proof.
  unfold sameDeviceTest, store_matches.
  rewrite !andb_true_iff, orb_true_iff, !String.eqb_eq, empty_true_iff. tauto.
Qed.

(** Whatever [UdevRule::matchesDevice] accepts, the store's test accepts. *)
Lemma matchesDevice_sameDeviceTest (d : DeviceInfo.t) (r : UdevRule.t) :
  UdevRule.matchesDevice r d = true -> sameDeviceTest d r = true.
Proof.
  rewrite matchesDevice_iff, sameDeviceTest_iff.
  unfold spec_matches, store_matches. intros (Hv & Hp & Hs1 & Hs2).
  repeat split; try assumption.
  destruct (UdevRule.serial r) as [|a s] eqn:E.
  - left. now apply Hs2.
  - right. apply Hs1. discriminate.
Qed.

(** C1. [UdevRule::matchesDevice] returns [true] exactly when vendor and
    product are equal and the serial-presence conditions agree: a rule with a
    serial needs the device to carry the same serial, a rule without one
    needs the device to have none.  In particular a rule with no serial does
    not match a device that has one, and a rule with a serial does not match
    a device that has none. *)
Theorem matchesDevice_spec (r : UdevRule.t) (d : DeviceInfo.t) :
  (UdevRule.matchesDevice r d = true <-> spec_matches r d)
  /\ (UdevRule.serial r = "" -> DeviceInfo.serial d <> "" ->
      UdevRule.matchesDevice r d = false)
  /\ (UdevRule.serial r <> "" -> DeviceInfo.serial d = "" ->
      UdevRule.matchesDevice r d = false).
Proof.
  split; [apply matchesDevice_iff|].
  split; intros Hr Hd; apply not_true_is_false; rewrite matchesDevice_iff;
    intros (_ & _ & H1 & H2).
  - apply Hd. now apply H2.
  - apply Hr. rewrite (H1 Hr). exact Hd.
Qed.

(* ================================================================== *)
(** ** Running the store *)
(* ================================================================== *)

Section StoreFacts.

Context {W : Type} {OS : OsOps W}.

Lemma executeCommand_run (cmd : string) (m : Machine W) :
  executeCommand cmd m =
  (match fst (os_popen (world m) cmd) with
   | None => ""
   | Some pr => utils.trim (readPipe (pr_output pr))
   end,
   mkMachine (rules_ m) (snd (os_popen (world m) cmd)) (trace m ++ [EvPopen cmd])).
Proof.
  unfold executeCommand, bind, perform, ret.
  destruct (os_popen (world m) cmd) as [[pr|] w']; reflexivity.
Qed.

Lemma executeCommand_rules (cmd : string) (m : Machine W) :
  rules_ (snd (executeCommand cmd m)) = rules_ m.
Proof. rewrite executeCommand_run. reflexivity. Qed.

(** [writeRuleFile] leaves [rules_] alone, and what it returns is one of
    three values. *)
Lemma writeRuleFile_run (filePath content : string) (m : Machine W) :
  rules_ (snd (writeRuleFile filePath content m)) = rules_ m
  /\ (fst (writeRuleFile filePath content m) = Success0
      \/ fst (writeRuleFile filePath content m)
         = Failure ("Failed to create rule file: " ++ filePath)
      \/ fst (writeRuleFile filePath content m)
         = Failure "Failed to create rule file (sudo required)").
Proof.
  unfold writeRuleFile, bind, isRoot, observe, perform, ret.
  destruct (os_isRoot (world m)).
  - destruct (os_ofstream (world m) filePath content); simpl; auto.
  - destruct (os_system (world m) _) as [r w']. destruct (r =? 0)%Z; simpl; auto.
Qed.

Lemma loadExistingRules_run (m : Machine W) :
  loadExistingRules m =
  (tt, mkMachine
         (if os_exists (world m) RULES_DIR
          then sort_by_symlink
                 (fold_left (loadEntry (world m)) (os_listDir (world m) RULES_DIR) [])
          else [])
         (world m) (trace m)).
Proof.
  unfold loadExistingRules, bind, setRules, observe, getRules, ret. simpl.
  destruct (os_exists (world m) RULES_DIR); reflexivity.
Qed.

(** What [createRule] does once name and device are accepted and the name is
    free: the duplicate test decides between the failure and the write. *)
Lemma createRule_checked (d : DeviceInfo.t) (n : string) (m : Machine W) :
  DeviceInfo.isValid d = true ->
  utils.isValidSymlinkName n = true ->
  symlinkExists (rules_ m) n = false ->
  createRule d n m =
  match List.find (sameDeviceTest d) (rules_ m) with
  | Some rule =>
      (Failure ("A rule for this device already exists as '"
                ++ UdevRule.symlink rule ++ "'"), m)
  | None =>
      let '(content, m1) := generateRuleContent d n m in
      let '(result, m2) :=
        writeRuleFile (RULES_DIR ++ "/" ++ generateRuleFileName n) content m1 in
      if success result
      then (Success ("Rule created successfully: /dev/" ++ n),
            snd (loadExistingRules m2))
      else (result, m2)
  end.
Proof.
  intros Hd Hn Hs. unfold createRule. rewrite Hn, Hd. simpl.
  unfold bind at 1. unfold getRules at 1. rewrite Hs.
  destruct (List.find (sameDeviceTest d) (rules_ m)) as [rule|]; [reflexivity|].
  unfold bind.
  destruct (generateRuleContent d n m) as [content m1].
  destruct (writeRuleFile _ content m1) as [result m2].
  destruct (success result); simpl; [|reflexivity].
  destruct (loadExistingRules m2) as [[] m3]. reflexivity.
Qed.

End StoreFacts.

(* ================================================================== *)
(** ** Which devices the store takes as already bound *)
(* ================================================================== *)

Section Binding.

Context {W : Type} {OS : OsOps W}.

(** C4, as the code has it.  [ruleExists] returns [true] exactly when some
    cached rule has the device's vendor and product and, unless the device has
    no serial, the device's serial.  Every rule that [matchesDevice] accepts
    passes this test, so a match under the matching predicate always makes
    [ruleExists] true. *)
Theorem ruleExists_iff (rules : list UdevRule.t) (d : DeviceInfo.t) :
  (ruleExists rules d = true <-> exists r, In r rules /\ store_matches r d)
  /\ ((exists r, In r rules /\ UdevRule.matchesDevice r d = true) ->
      ruleExists rules d = true).
Proof.
  unfold ruleExists. split.
  - rewrite existsb_exists. split; intros (r & Hin & Hr); exists r;
      (split; [assumption|]); now apply sameDeviceTest_iff.
  - intros (r & Hin & Hr). apply existsb_exists. exists r.
    split; [assumption|]. now apply matchesDevice_sameDeviceTest.
Qed.

(** C2, as the code has it.  For a valid device and a grammatical name that no
    cached rule uses, [createRule] reports the duplicate binding exactly when
    some cached rule has the device's vendor and product and, unless the
    device has no serial, the device's serial. *)
Theorem createRule_duplicate_iff (m : Machine W) (d : DeviceInfo.t) (n : string) :
  DeviceInfo.isValid d = true ->
  utils.isValidSymlinkName n = true ->
  symlinkExists (rules_ m) n = false ->
  (isDuplicateFailure (fst (createRule d n m)) = true
   <-> exists r, In r (rules_ m) /\ store_matches r d).
Proof.
  intros Hd Hn Hs. rewrite (createRule_checked d n m Hd Hn Hs).
  destruct (List.find (sameDeviceTest d) (rules_ m)) as [rule|] eqn:Ef.
  - apply find_some in Ef. destruct Ef as [Hin Ht]. split.
    + intros _. exists rule. split; [assumption|]. now apply sameDeviceTest_iff.
    + intros _. unfold isDuplicateFailure. cbn [fst success message Failure negb andb].
      apply prefix_append.
  - split.
    + destruct (generateRuleContent d n m) as [content m1].
      pose proof (writeRuleFile_run (RULES_DIR ++ "/" ++ generateRuleFileName n)
                    content m1) as [_ Hw].
      destruct (writeRuleFile _ content m1) as [result m2]. simpl in Hw.
      destruct (success result) eqn:Es.
      * discriminate.
      * unfold isDuplicateFailure. simpl.
        destruct Hw as [Hw|[Hw|Hw]]; rewrite Hw; discriminate.
    + intros (r & Hin & Hr). apply sameDeviceTest_iff in Hr.
      pose proof (find_none _ _ Ef r Hin) as Hnone. simpl in Hnone. congruence.
Qed.

End Binding.

(** A run of C2's theorem: with the adapter's rule in the cache, a second
    rule for the same adapter under a free name is reported as a duplicate. *)
Lemma createRule_duplicate_iff_witness :
  DeviceInfo.isValid Sim.ftdi = true
  /\ utils.isValidSymlinkName "RS485_2" = true
  /\ symlinkExists (rules_ Sim.one_rule) "RS485_2" = false
  /\ (isDuplicateFailure (fst (createRule Sim.ftdi "RS485_2" Sim.one_rule)) = true
      <-> exists r, In r (rules_ Sim.one_rule) /\ store_matches r Sim.ftdi).
Proof.
  assert (H1 : DeviceInfo.isValid Sim.ftdi = true) by reflexivity.
  assert (H2 : utils.isValidSymlinkName "RS485_2" = true) by reflexivity.
  assert (H3 : symlinkExists (rules_ Sim.one_rule) "RS485_2" = false)
    by (vm_compute; reflexivity).
  repeat (split; [assumption|]).
  exact (createRule_duplicate_iff Sim.one_rule Sim.ftdi "RS485_2" H1 H2 H3).
Defined.

(** C4 as stated fails: with the rule of the adapter that has a serial in the
    cache, [ruleExists] answers [true] for its twin without a serial, although
    no cached rule matches the twin under the matching predicate. *)
Lemma ruleExists_without_match :
  ruleExists (rules_ Sim.one_rule) Sim.ftdi_noserial = true
  /\ ~ (exists r, In r (rules_ Sim.one_rule)
                  /\ (UdevRule.matchesDevice r Sim.ftdi_noserial = true
                      \/ spec_matches r Sim.ftdi_noserial)).
Proof.
  split; [vm_compute; reflexivity|].
  intros (r & Hin & Hr).
  assert (Hm : UdevRule.matchesDevice r Sim.ftdi_noserial = true)
    by (destruct Hr as [Hr|Hr]; [assumption | now apply matchesDevice_iff]).
  vm_compute in Hin. destruct Hin as [Hin|[]]. subst r.
  vm_compute in Hm. discriminate.
Qed.

(** C2 as stated fails: in the same state, [createRule] for the twin without
    a serial, under a free and grammatical name, reports a duplicate binding,
    although no cached rule matches the twin under the matching predicate. *)
Lemma createRule_duplicate_without_match :
  DeviceInfo.isValid Sim.ftdi_noserial = true
  /\ utils.isValidSymlinkName "RS485_2" = true
  /\ symlinkExists (rules_ Sim.one_rule) "RS485_2" = false
  /\ fst (createRule Sim.ftdi_noserial "RS485_2" Sim.one_rule)
     = Failure "A rule for this device already exists as 'RS485_1'"
  /\ isDuplicateFailure (fst (createRule Sim.ftdi_noserial "RS485_2" Sim.one_rule)) = true
  /\ ~ (exists r, In r (rules_ Sim.one_rule)
                  /\ (UdevRule.matchesDevice r Sim.ftdi_noserial = true
                      \/ spec_matches r Sim.ftdi_noserial)).
Proof.
  repeat (split; [vm_compute; reflexivity|]).
  intros (r & Hin & Hr).
  assert (Hm : UdevRule.matchesDevice r Sim.ftdi_noserial = true)
    by (destruct Hr as [Hr|Hr]; [assumption | now apply matchesDevice_iff]).
  vm_compute in Hin. destruct Hin as [Hin|[]]. subst r.
  vm_compute in Hm. discriminate.
Qed.

(* ================================================================== *)
(** ** Name validation *)
(* ================================================================== *)

Lemma in_range_iff (lo hi c : ascii) :
  in_range lo hi c = true <-> (code lo <= code c <= code hi)%N.
Proof. unfold in_range. rewrite andb_true_iff, !N.leb_le. tauto. Qed.

Lemma cls_alpha_iff (c : ascii) : cls_alpha c = true <-> is_letter c.
Proof.
  unfold cls_alpha, is_letter. rewrite orb_true_iff, !in_range_iff. tauto.
Qed.

Lemma cls_word_iff (c : ascii) : cls_word c = true <-> is_name_char c.
Proof.
  unfold cls_word, is_name_char, is_letter.
  rewrite !orb_true_iff, !in_range_iff, !Ascii.eqb_eq. tauto.
Qed.

Lemma forallb_str_iff (p : ascii -> bool) (s : string) :
  forallb_str p s = true <-> forall x, In x (list_ascii_of_string s) -> p x = true.
Proof.
  induction s as [|c s IH]; simpl.
  - split; [intros _ x [] | reflexivity].
  - rewrite andb_true_iff, IH. split.
    + intros [Hc Hs] x [<-|Hx]; auto.
    + intros H. split; [apply H; now left | intros x Hx; apply H; now right].
Qed.

Lemma name_regex_match_iff (n : string) :
  name_regex_match n = true <->
  exists c r, n = String c r /\ is_letter c
              /\ forall x, In x (list_ascii_of_string r) -> is_name_char x.
Proof.
  destruct n as [|c r]; simpl.
  - split; [discriminate | intros (c & r & H & _); discriminate].
  - rewrite andb_true_iff, cls_alpha_iff, forallb_str_iff. split.
    + intros [Hc Hr]. exists c, r. repeat split; [assumption|].
      intros x Hx. apply cls_word_iff. now apply Hr.
    + intros (c' & r' & E & Hc & Hr). injection E as <- <-. split; [assumption|].
      intros x Hx. apply cls_word_iff. now apply Hr.
Qed.

Lemma isValidSymlinkName_iff (n : string) :
  utils.isValidSymlinkName n = true <-> spec_name_grammar n.
Proof.
  unfold utils.isValidSymlinkName, spec_name_grammar.
  destruct (Nat.ltb_spec 64 (String.length n)) as [Hlen|Hlen].
  - rewrite orb_true_r. split; [discriminate | intros [_ H]; lia].
  - rewrite orb_false_r. destruct n as [|c r].
    + simpl. split; [discriminate | intros [(c & r & H & _) _]; discriminate].
    + cbn [empty]. rewrite name_regex_match_iff. tauto.
Qed.

Section Validation.

Context {W : Type} {OS : OsOps W}.

(** C6. The validation step of [createRule] accepts exactly the names of the
    naming grammar.  For every other name, among them ["1abc"], ["ab cd"] and
    every name of 65 characters, [createRule] returns the validation failure
    and hands back the machine as it found it: the cache is the same, the
    system is the same, and no call to the system was made, so no file was
    written. *)
Theorem createRule_validates_name :
  (forall n, utils.isValidSymlinkName n = true <-> spec_name_grammar n)
  /\ (forall (m : Machine W) d n,
        ~ spec_name_grammar n -> createRule d n m = (invalidNameFailure, m))
  /\ ~ spec_name_grammar "1abc"
  /\ ~ spec_name_grammar "ab cd"
  /\ (forall n, String.length n = 65%nat -> ~ spec_name_grammar n).
Proof.
  split; [exact isValidSymlinkName_iff|].
  split; [|repeat split].
  - intros m d n Hn. unfold createRule.
    destruct (utils.isValidSymlinkName n) eqn:E.
    + exfalso. apply Hn. now apply isValidSymlinkName_iff.
    + reflexivity.
  - rewrite <- isValidSymlinkName_iff. vm_compute. discriminate.
  - rewrite <- isValidSymlinkName_iff. vm_compute. discriminate.
  - intros n Hlen [_ H]. lia.
Qed.

End Validation.

(* ================================================================== *)
(** ** What a reload puts in the cache *)
(* ================================================================== *)

Lemma parseLine_keeps (rule : UdevRule.t) (line : string) :
  UdevRule.filePath (parseLine rule line) = UdevRule.filePath rule
  /\ UdevRule.priority (parseLine rule line) = UdevRule.priority rule.
Proof.
  unfold parseLine.
  destruct (contains "# Device:" line); destruct line as [|c l];
    try (split; reflexivity);
    destruct (c =? "#")%char; try (split; reflexivity);
    destruct (regex_search vendorRegex _); destruct (regex_search productRegex _);
    destruct (regex_search serialRegex _); destruct (regex_search symlinkRegex _);
    split; reflexivity.
Qed.

Lemma fold_parseLine_keeps (lines : list string) (rule : UdevRule.t) :
  UdevRule.filePath (fold_left parseLine lines rule) = UdevRule.filePath rule
  /\ UdevRule.priority (fold_left parseLine lines rule) = UdevRule.priority rule.
Proof.
  revert rule. induction lines as [|l ls IH]; intros rule; simpl.
  - split; reflexivity.
  - destruct (IH (parseLine rule l)) as [H1 H2].
    destruct (parseLine_keeps rule l) as [H3 H4]. split; congruence.
Qed.

(** What every record that [parseRuleFile] returns satisfies. *)
Lemma parseRuleText_some (filePath text : string) (r : UdevRule.t) :
  parseRuleText filePath text = Some r ->
  UdevRule.filePath r = filePath
  /\ UdevRule.priority r = filePriority (path_filename filePath)
  /\ UdevRule.vendorId r <> ""
  /\ UdevRule.symlink r <> ""
  /\ UdevRule.name r <> "".
Proof.
  unfold parseRuleText.
  match goal with |- context [fold_left parseLine ?ls ?r0] =>
    destruct (fold_parseLine_keeps ls r0) as [Hf Hp];
    set (rule := fold_left parseLine ls r0) in *
  end.
  simpl in Hf, Hp.
  destruct (UdevRule.vendorId rule) as [|a v] eqn:Ev; [discriminate|].
  destruct (UdevRule.symlink rule) as [|b s] eqn:Es; [discriminate|].
  cbn [empty orb].
  destruct (UdevRule.name rule) as [|c n] eqn:En; cbn [empty];
    intros E; injection E as <-; simpl; rewrite ?Ev, ?Es, ?En;
    repeat split; try assumption; try discriminate.
Qed.

Lemma insert_by_symlink_perm (r : UdevRule.t) (l : list UdevRule.t) :
  Permutation (insert_by_symlink r l) (r :: l).
Proof.
  induction l as [|x xs IH]; simpl.
  - reflexivity.
  - destruct (String.ltb _ _); [reflexivity|].
    rewrite IH. apply perm_swap.
Qed.

(** Sorting rearranges the rules and nothing more. *)
Lemma sort_by_symlink_perm (l : list UdevRule.t) :
  Permutation (sort_by_symlink l) l.
Proof.
  unfold sort_by_symlink.
  enough (H : forall sorted,
             Permutation (fold_left (fun sorted r => insert_by_symlink r sorted) l sorted)
               (l ++ sorted))
    by (rewrite H, app_nil_r; reflexivity).
  induction l as [|x xs IH]; intros sorted; cbn [fold_left app]; [reflexivity|].
  rewrite IH, insert_by_symlink_perm. symmetry. apply Permutation_middle.
Qed.

Section Reload.

Context {W : Type} {OS : OsOps W}.

Lemma loadEntry_in (w : W) (acc : list UdevRule.t) (e : DirEntry) (r : UdevRule.t) :
  In r (loadEntry w acc e) -> In r acc \/ accepted w e r.
Proof.
  unfold loadEntry, accepted, parseRuleFile.
  destruct (de_is_regular_file e); cbn [negb]; [|now left].
  destruct (contains "easytty" _); cbn [negb]; [|now left].
  destruct (utils.endsWith _ _); cbn [negb]; [|now left].
  destruct (os_ifstream w (de_path e)) as [text|]; [|now left].
  destruct (parseRuleText (de_path e) text) as [rule|] eqn:Ep; [|now left].
  intros Hin. apply in_app_or in Hin. destruct Hin as [Hin|[<-|[]]]; [now left|].
  right. repeat split. exists text. now split.
Qed.

Lemma fold_loadEntry_in (w : W) (es : list DirEntry) (acc : list UdevRule.t)
    (r : UdevRule.t) :
  In r (fold_left (loadEntry w) es acc) ->
  In r acc \/ exists e, In e es /\ accepted w e r.
Proof.
  revert acc. induction es as [|e es IH]; intros acc; simpl.
  - now left.
  - intros Hin. destruct (IH _ Hin) as [H|(e' & He' & Ha)].
    + destruct (loadEntry_in _ _ _ _ H) as [H'|H']; [now left|].
      right. exists e. split; [now left | assumption].
    + right. exists e'. split; [now right | assumption].
Qed.

(** Every record in the cache after a reload was parsed from an accepted
    file of the rule directory. *)
Lemma loadExistingRules_in (m : Machine W) (r : UdevRule.t) :
  In r (rules_ (snd (loadExistingRules m))) ->
  exists e, In e (os_listDir (world m) RULES_DIR) /\ accepted (world m) e r.
Proof.
  rewrite loadExistingRules_run. cbn [snd rules_].
  destruct (os_exists (world m) RULES_DIR); [|intros []].
  intros Hin. apply (Permutation_in _ (sort_by_symlink_perm _)) in Hin.
  destruct (fold_loadEntry_in _ _ _ _ Hin) as [[]|H]. exact H.
Qed.

End Reload.

(* ================================================================== *)
(** ** Priority *)
(* ================================================================== *)

Lemma isdigit_facts (a : ascii) :
  isdigit a = true ->
  isspace a = false /\ (a =? "-")%char = false /\ (a =? "+")%char = false
  /\ (0 <= digit_val a <= 9)%Z.
Proof.
  destruct a as [[] [] [] [] [] [] [] []]; vm_compute; intros H;
    try discriminate H; repeat split; congruence.
Qed.

Lemma filePriority_two_digits (a b : ascii) (rest : string) :
  isdigit a = true -> isdigit b = true ->
  filePriority (String a (String b rest)) = (10 * digit_val a + digit_val b)%Z.
Proof.
  intros Ha Hb.
  destruct (isdigit_facts a Ha) as (Hs & Hm & Hp & Hr).
  destruct (isdigit_facts b Hb) as (_ & _ & _ & Hr').
  unfold filePriority, stoi.
  replace (substring 0 2 (String a (String b rest)))
    with (String a (String b EmptyString)) by (destruct rest; reflexivity).
  cbn [skip_space]. rewrite Hs, Hm, Hp, Ha.
  cbn [digits_val]. rewrite Ha, Hb.
  replace (10 * 0 + digit_val a)%Z with (digit_val a) by lia.
  destruct (andb _ _) eqn:E; [reflexivity|].
  apply andb_false_iff in E. unfold INT_MIN, INT_MAX in E.
  destruct E as [E|E]; apply Z.leb_gt in E; lia.
Qed.

Lemma filePriority_one_digit (a : ascii) (rest : string) :
  isdigit a = true ->
  match rest with String b _ => isdigit b = false | EmptyString => True end ->
  filePriority (String a rest) = digit_val a.
Proof.
  intros Ha Hb.
  destruct (isdigit_facts a Ha) as (Hs & Hm & Hp & Hr).
  unfold filePriority, stoi.
  assert (E : exists t, substring 0 2 (String a rest) = String a t
                        /\ digits_val (digit_val a) t = digit_val a).
  { destruct rest as [|b rest']; cbn [substring].
    - exists EmptyString. now split.
    - exists (String b EmptyString).
      split; [destruct rest'; reflexivity|]. cbn. now rewrite Hb. }
  destruct E as (t & -> & Ht). cbn [skip_space]. rewrite Hs, Hm, Hp, Ha.
  cbn [digits_val]. rewrite Ha.
  replace (10 * 0 + digit_val a)%Z with (digit_val a) by lia. rewrite Ht.
  destruct (andb _ _) eqn:E; [reflexivity|].
  apply andb_false_iff in E. unfold INT_MIN, INT_MAX in E.
  destruct E as [E|E]; apply Z.leb_gt in E; lia.
Qed.

Lemma filePriority_no_number (f : string) :
  match f with
  | String a _ => isdigit a = false /\ isspace a = false /\ a <> "-"%char /\ a <> "+"%char
  | EmptyString => True
  end ->
  filePriority f = 99%Z.
Proof.
  destruct f as [|a rest]; [reflexivity|].
  intros (Hd & Hs & Hm & Hp).
  apply Ascii.eqb_neq in Hm. apply Ascii.eqb_neq in Hp.
  unfold filePriority, stoi.
  assert (E : exists t, substring 0 2 (String a rest) = String a t)
    by (destruct rest; cbn; eauto).
  destruct E as (t & ->). cbn [skip_space]. now rewrite Hs, Hm, Hp, Hd.
Qed.

Lemma isspace_facts (a : ascii) :
  isspace a = true ->
  isdigit a = false /\ (a =? "-")%char = false /\ (a =? "+")%char = false.
Proof.
  destruct a as [[] [] [] [] [] [] [] []]; vm_compute; intros H;
    try discriminate H; repeat split.
Qed.

(** A sign and a digit. *)
Lemma filePriority_signed (b : ascii) (rest : string) :
  isdigit b = true ->
  filePriority (String "-" (String b rest)) = (- digit_val b)%Z
  /\ filePriority (String "+" (String b rest)) = digit_val b.
Proof.
  intros Hb. destruct (isdigit_facts b Hb) as (_ & _ & _ & Hr).
  unfold filePriority, stoi.
  replace (substring 0 2 (String "-" (String b rest)))
    with (String "-" (String b EmptyString)) by (destruct rest; reflexivity).
  replace (substring 0 2 (String "+" (String b rest)))
    with (String "+" (String b EmptyString)) by (destruct rest; reflexivity).
  cbn [skip_space]. change (isspace "-") with false. change (isspace "+") with false.
  cbn iota. change ("-" =? "-")%char with true. change ("+" =? "-")%char with false.
  change ("+" =? "+")%char with true. cbn iota.
  rewrite Hb. cbn [digits_val]. rewrite Hb.
  replace (10 * 0 + digit_val b)%Z with (digit_val b) by lia.
  unfold INT_MIN, INT_MAX.
  destruct (Z.leb_spec (- 2 ^ 31) (- digit_val b)); [|lia].
  destruct (Z.leb_spec (- digit_val b) (2 ^ 31 - 1)); [|lia].
  destruct (Z.leb_spec (- 2 ^ 31) (digit_val b)); [|lia].
  destruct (Z.leb_spec (digit_val b) (2 ^ 31 - 1)); [|lia].
  split; reflexivity.
Qed.

(** White space and a digit. *)
Lemma filePriority_spaced (a b : ascii) (rest : string) :
  isspace a = true -> isdigit b = true ->
  filePriority (String a (String b rest)) = digit_val b.
Proof.
  intros Ha Hb. destruct (isdigit_facts b Hb) as (Hs & Hm & Hp & Hr).
  unfold filePriority, stoi.
  replace (substring 0 2 (String a (String b rest)))
    with (String a (String b EmptyString)) by (destruct rest; reflexivity).
  cbn [skip_space]. rewrite Ha, Hs, Hm, Hp, Hb. cbn [digits_val]. rewrite Hb.
  replace (10 * 0 + digit_val b)%Z with (digit_val b) by lia.
  unfold INT_MIN, INT_MAX.
  destruct (Z.leb_spec (- 2 ^ 31) (digit_val b)); [|lia].
  destruct (Z.leb_spec (digit_val b) (2 ^ 31 - 1)); [|lia].
  reflexivity.
Qed.

(** A sign or white space with no digit behind it. *)
Lemma filePriority_no_digit (a : ascii) (rest : string) :
  a = "-"%char \/ a = "+"%char \/ isspace a = true ->
  match rest with String b _ => isdigit b = false | EmptyString => True end ->
  filePriority (String a rest) = 99%Z.
Proof.
  intros Ha Hrest. unfold filePriority, stoi.
  assert (E : substring 0 2 (String a rest) = String a EmptyString
              \/ exists b, isdigit b = false
                           /\ substring 0 2 (String a rest) = String a (String b EmptyString)).
  { destruct rest as [|b rest']; [left; reflexivity|].
    right. exists b. split; [exact Hrest | destruct rest'; reflexivity]. }
  destruct E as [-> | (b & Hb & ->)].
  - destruct Ha as [-> | [-> | Ha]]; [reflexivity | reflexivity |].
    cbn [skip_space]. now rewrite Ha.
  - destruct Ha as [-> | [-> | Ha]].
    + cbn [skip_space]. change (isspace "-") with false. cbn iota.
      change ("-" =? "-")%char with true. cbn iota. now rewrite Hb.
    + cbn [skip_space]. change (isspace "+") with false. cbn iota.
      change ("+" =? "-")%char with false. change ("+" =? "+")%char with true.
      cbn iota. now rewrite Hb.
    + cbn [skip_space]. rewrite Ha.
      destruct (isspace b); [reflexivity|].
      destruct (b =? "-")%char; [reflexivity|].
      destruct (b =? "+")%char; [reflexivity|].
      now rewrite Hb.
Qed.

Section Priority.

Context {W : Type} {OS : OsOps W}.

(** C7, as the code has it.  For every record a reload puts in the cache, the
    priority is what [std::stoi] reads from the first two characters of the
    name of its file: two digits give the two-digit number, one digit followed
    by something else gives that digit, and a name that is empty or starts
    with a character that is no digit, no white space and no sign gives 99.
    A minus sign and a digit give the negated digit, a plus sign or a
    white-space character and a digit give the digit, and a sign or
    white-space character with no digit behind it gives 99.  These cases
    cover every file name. *)
Theorem loaded_priority (m : Machine W) (r : UdevRule.t) :
  In r (rules_ (snd (loadExistingRules m))) ->
  let f := path_filename (UdevRule.filePath r) in
  (forall a b rest, f = String a (String b rest) ->
     isdigit a = true -> isdigit b = true ->
     UdevRule.priority r = (10 * digit_val a + digit_val b)%Z)
  /\ (forall a rest, f = String a rest -> isdigit a = true ->
        match rest with String b _ => isdigit b = false | EmptyString => True end ->
        UdevRule.priority r = digit_val a)
  /\ (match f with
      | String a _ => isdigit a = false /\ isspace a = false
                      /\ a <> "-"%char /\ a <> "+"%char
      | EmptyString => True
      end -> UdevRule.priority r = 99%Z)
  /\ (forall b rest, f = String "-" (String b rest) -> isdigit b = true ->
        UdevRule.priority r = (- digit_val b)%Z)
  /\ (forall a b rest, f = String a (String b rest) ->
        a = "+"%char \/ isspace a = true -> isdigit b = true ->
        UdevRule.priority r = digit_val b)
  /\ (forall a rest, f = String a rest ->
        a = "-"%char \/ a = "+"%char \/ isspace a = true ->
        match rest with String b _ => isdigit b = false | EmptyString => True end ->
        UdevRule.priority r = 99%Z).
Proof.
  intros Hin f.
  destruct (loadExistingRules_in m r Hin) as (e & _ & _ & _ & _ & text & _ & Hp).
  destruct (parseRuleText_some _ _ _ Hp) as (Hf & Hprio & _).
  assert (E : UdevRule.priority r = filePriority f) by (subst f; congruence).
  rewrite E. split; [|split; [|split; [|split; [|split]]]].
  - intros a b rest -> Ha Hb. now apply filePriority_two_digits.
  - intros a rest -> Ha Hb. now apply filePriority_one_digit.
  - apply filePriority_no_number.
  - intros b rest -> Hb. now apply filePriority_signed.
  - intros a b rest -> [-> | Ha] Hb;
      [now apply filePriority_signed | now apply filePriority_spaced].
  - intros a rest -> Ha Hb. now apply filePriority_no_digit.
Qed.

End Priority.

(** A run of C7's theorem: a reload of the directory that holds
    [-5-easytty-a.rules] and [42-easytty-b.rules] gives the two records the
    priorities -5 and 42. *)
Lemma loaded_priority_witness :
  rules_ (snd (loadExistingRules (UdevManager Sim.priorities))) = [Sim.rule_a; Sim.rule_b]
  /\ UdevRule.priority Sim.rule_a = (-5)%Z
  /\ UdevRule.priority Sim.rule_b = 42%Z.
Proof.
  assert (Hrun : rules_ (snd (loadExistingRules (UdevManager Sim.priorities)))
                 = [Sim.rule_a; Sim.rule_b])
    by (vm_compute; reflexivity).
  assert (Ha : In Sim.rule_a (rules_ (snd (loadExistingRules (UdevManager Sim.priorities)))))
    by (rewrite Hrun; left; reflexivity).
  assert (Hb : In Sim.rule_b (rules_ (snd (loadExistingRules (UdevManager Sim.priorities)))))
    by (rewrite Hrun; right; left; reflexivity).
  split; [exact Hrun|]. split.
  - exact (proj1 (proj2 (proj2 (proj2
             (loaded_priority (UdevManager Sim.priorities) Sim.rule_a Ha))))
             "5"%char "-easytty-a.rules" eq_refl eq_refl).
  - exact (proj1 (loaded_priority (UdevManager Sim.priorities) Sim.rule_b Hb)
             "4"%char "2"%char "-easytty-b.rules" eq_refl eq_refl eq_refl).
Defined.

(** C7 as stated fails: the file [100-easytty-x.rules] has the numeric prefix
    100, and the record a reload makes of it has priority 10. *)
Lemma priority_of_three_digit_prefix :
  map (fun r => (path_filename (UdevRule.filePath r), UdevRule.priority r))
      (rules_ (UdevManager Sim.prio100))
  = [("100-easytty-x.rules", 10%Z)].
Proof. vm_compute. reflexivity. Qed.

(* ================================================================== *)
(** ** Trimming does not hide a failure marker *)
(* ================================================================== *)

Lemma contains_cons (pat : string) (c : ascii) (r : string) :
  contains pat (String c r) = prefix pat (String c r) || contains pat r.
Proof.
  unfold contains. cbn [str_find].
  destruct (prefix pat (String c r)); [reflexivity|].
  destruct (str_find pat r); reflexivity.
Qed.

Lemma contains_nil (pat : string) : contains pat "" = prefix pat "".
Proof. unfold contains. cbn [str_find]. destruct (prefix pat ""); reflexivity. Qed.

Lemma contains_trim_left (pat s : string) :
  starts_nonspace pat = true ->
  contains pat (utils.trim_left s) = contains pat s.
Proof.
  destruct pat as [|p pat']; [discriminate|]. cbn [starts_nonspace]. intros Hp.
  induction s as [|c r IH]; [reflexivity|].
  cbn [utils.trim_left]. destruct (isspace c) eqn:Ec; [|reflexivity].
  rewrite IH, contains_cons. cbn [prefix].
  destruct (ascii_dec p c) as [->|]; [|reflexivity].
  rewrite Ec in Hp. discriminate.
Qed.

Lemma trim_right_cons (c : ascii) (r : string) :
  utils.trim_right (String c r) =
  if empty (utils.trim_right r) && isspace c then ""
  else String c (utils.trim_right r).
Proof.
  cbn [utils.trim_right]. destruct (utils.trim_right r); cbn [empty andb].
  - destruct (isspace c); reflexivity.
  - reflexivity.
Qed.

Lemma prefix_trim_right (pat s : string) :
  ends_nonspace pat = true ->
  prefix pat (utils.trim_right s) = prefix pat s.
Proof.
  revert pat. induction s as [|c r IH]; intros pat Hpat; [reflexivity|].
  destruct pat as [|p pat']; [discriminate|].
  assert (Htail : p = c -> prefix pat' (utils.trim_right r) = prefix pat' r).
  { intros _. destruct pat' as [|q pat''].
    - destruct (utils.trim_right r); now destruct r.
    - apply IH. exact Hpat. }
  rewrite trim_right_cons.
  destruct (empty (utils.trim_right r) && isspace c) eqn:E.
  - apply andb_true_iff in E. destruct E as [Er Ec].
    apply empty_true_iff in Er. cbn [prefix].
    destruct (ascii_dec p c) as [->|]; [|reflexivity].
    rewrite <- Htail, Er by reflexivity.
    destruct pat' as [|q pat'']; [|reflexivity].
    cbn [ends_nonspace] in Hpat. rewrite Ec in Hpat. discriminate.
  - cbn [prefix]. destruct (ascii_dec p c); [now apply Htail | reflexivity].
Qed.

Lemma contains_trim_right (pat s : string) :
  ends_nonspace pat = true ->
  contains pat (utils.trim_right s) = contains pat s.
Proof.
  intros Hpat. induction s as [|c r IH]; [reflexivity|].
  rewrite contains_cons, <- IH, <- (prefix_trim_right pat (String c r) Hpat).
  rewrite trim_right_cons.
  destruct (empty (utils.trim_right r) && isspace c) eqn:E.
  - apply andb_true_iff in E. destruct E as [Er _].
    apply empty_true_iff in Er. rewrite Er, !contains_nil.
    now destruct (prefix pat "").
  - apply contains_cons.
Qed.

Lemma looksFailed_trim (s : string) : looksFailed (utils.trim s) = looksFailed s.
Proof.
  unfold looksFailed, utils.trim.
  rewrite !contains_trim_right, !contains_trim_left; reflexivity.
Qed.

(* ================================================================== *)
(** ** Reading the output of a command *)
(* ================================================================== *)

(** [fgets] takes its characters from the front of the stream. *)
Lemma fgets_split (room : nat) (stream : string) :
  stream = (fst (fgets room stream) ++ snd (fgets room stream))%string.
Proof.
  revert room. induction stream as [|c r IH]; intros [|room]; try reflexivity.
  cbn [fgets]. destruct (c =? lf)%char; [reflexivity|].
  specialize (IH room). destruct (fgets room r) as [buffer rest].
  cbn [fst snd append] in *. now rewrite <- IH.
Qed.

(** With room in the buffer and something in the stream, it takes at least
    one. *)
Lemma fgets_shorter (room : nat) (c : ascii) (r : string) :
  (String.length (snd (fgets (S room) (String c r))) <= String.length r)%nat.
Proof.
  cbn [fgets]. destruct (c =? lf)%char; [cbn [snd]; lia|].
  pose proof (fgets_split room r) as H. apply (f_equal String.length) in H.
  rewrite length_append in H.
  destruct (fgets room r) as [buffer rest]. cbn [fst snd] in *. lia.
Qed.

(** The loop of [executeCommand] ends: one turn per character of the stream
    and one more are enough, and further turns change nothing. *)
Lemma readLoop_ends (stream : string) :
  forall fuel result,
    (String.length stream < fuel)%nat ->
    exists collected, readLoop fuel result stream = Some collected.
Proof.
  remember (String.length stream) as n eqn:En.
  revert stream En. induction n as [n IH] using lt_wf_ind.
  intros stream En [|fuel] result Hfuel; [lia|].
  destruct stream as [|c r]; cbn [readLoop]; [eauto|].
  pose proof (fgets_shorter 126 c r) as Hshort.
  destruct (fgets 127 (String c r)) as [buffer rest]. cbn [snd] in Hshort.
  cbn [String.length] in En.
  apply (IH (String.length rest)); [lia | reflexivity | lia].
Qed.

Lemma readLoop_more (fuel extra : nat) :
  forall result stream collected,
    readLoop fuel result stream = Some collected ->
    readLoop (fuel + extra) result stream = Some collected.
Proof.
  induction fuel as [|fuel IH]; intros result stream collected; [discriminate|].
  cbn [readLoop Nat.add]. destruct stream as [|c r]; [auto|].
  destruct (fgets 127 (String c r)) as [buffer rest]. apply IH.
Qed.




(* ================================================================== *)
(** ** The control bridge *)
(* ================================================================== *)

Section ControlBridge.

Context {W : Type} {OS : OsOps W}.

Lemma executeCommand_looksFailed (cmd : string) (m : Machine W) :
  looksFailed (fst (executeCommand cmd m)) = looksFailed (commandRead (world m) cmd).
Proof.
  rewrite executeCommand_run. unfold commandRead. cbn [fst].
  destruct (fst (os_popen (world m) cmd)); [apply looksFailed_trim | reflexivity].
Qed.


Lemma reloadRules_run (m : Machine W) :
  success (fst (reloadRules m)) = negb (looksFailed (commandRead (world m) reloadCmd))
  /\ snd (reloadRules m) = snd (executeCommand reloadCmd m).
Proof.
  unfold reloadRules, bind. rewrite <- executeCommand_looksFailed.
  destruct (executeCommand reloadCmd m) as [output m1]. cbn [fst snd].
  destruct (looksFailed output); split; reflexivity.
Qed.

Lemma triggerRules_run (m : Machine W) :
  success (fst (triggerRules m)) = negb (looksFailed (commandRead (world m) triggerCmd))
  /\ snd (triggerRules m) = snd (executeCommand triggerCmd m).
Proof.
  unfold triggerRules, bind. rewrite <- executeCommand_looksFailed.
  destruct (executeCommand triggerCmd m) as [output m1]. cbn [fst snd].
  destruct (looksFailed output); split; reflexivity.
Qed.


End ControlBridge.

(* ================================================================== *)
(** ** The cache across the store's operations *)
(* ================================================================== *)

Section Cache.

Context {W : Type} {OS : OsOps W}.

Lemma generateRuleContent_run (d : DeviceInfo.t) (n : string) (m : Machine W) :
  generateRuleContent d n m
  = (ruleContent (fst (executeCommand "date" m)) d n, snd (executeCommand "date" m)).
Proof.
  unfold generateRuleContent, bind, ret.
  destruct (executeCommand "date" m); reflexivity.
Qed.

Lemma removeRuleFile_rules (p : string) (m : Machine W) :
  rules_ (snd (removeRuleFile p m)) = rules_ m.
Proof.
  unfold removeRuleFile, isRoot, bind, observe, perform, ret.
  destruct (os_exists (world m) p); cbn [negb]; [|reflexivity].
  destruct (os_isRoot (world m)).
  - destruct (os_remove (world m) p) as [what|w']; reflexivity.
  - rewrite executeCommand_run. cbn [world].
    destruct (os_exists _ p); reflexivity.
Qed.

(** [createRule] either leaves [rules_] as it was or has succeeded and holds
    what a reload produced. *)
Lemma createRule_cache (d : DeviceInfo.t) (n : string) (m : Machine W) :
  rules_ (snd (createRule d n m)) = rules_ m
  \/ (success (fst (createRule d n m)) = true
      /\ exists m', snd (createRule d n m) = snd (loadExistingRules m')).
Proof.
  unfold createRule.
  destruct (utils.isValidSymlinkName n); cbn [negb]; [|now left].
  destruct (DeviceInfo.isValid d); cbn [negb]; [|now left].
  unfold bind, getRules.
  destruct (symlinkExists (rules_ m) n); [now left|].
  destruct (List.find (sameDeviceTest d) (rules_ m)); [now left|].
  rewrite generateRuleContent_run.
  pose proof (executeCommand_rules "date" m) as Hd.
  set (m1 := snd (executeCommand "date" m)) in *.
  match goal with |- context [writeRuleFile ?p ?c m1] =>
    pose proof (writeRuleFile_run p c m1) as [Hw _];
    destruct (writeRuleFile p c m1) as [result m2]
  end.
  cbn [snd] in Hw. destruct (success result); cbn [negb].
  - right. destruct (loadExistingRules m2) as [[] m3] eqn:El. cbn [fst snd ret].
    split; [reflexivity|]. exists m2. now rewrite El.
  - left. cbn [snd ret]. congruence.
Qed.

Lemma deleteRuleFile_cache (p : string) (m : Machine W) :
  (success (fst (deleteRuleFile p m)) = false
   /\ rules_ (snd (deleteRuleFile p m)) = rules_ m)
  \/ (success (fst (deleteRuleFile p m)) = true
      /\ exists m', snd (deleteRuleFile p m) = snd (loadExistingRules m')).
Proof.
  unfold deleteRuleFile, bind.
  pose proof (removeRuleFile_rules p m) as Hr.
  destruct (removeRuleFile p m) as [result m1]. cbn [snd] in Hr.
  destruct (success result) eqn:Es.
  - right. destruct (loadExistingRules m1) as [[] m2] eqn:El. cbn [fst snd ret].
    split; [assumption|]. exists m1. now rewrite El.
  - left. cbn [fst snd ret]. now split.
Qed.

Lemma deleteRule_cache (n : string) (m : Machine W) :
  (success (fst (deleteRule n m)) = false
   /\ rules_ (snd (deleteRule n m)) = rules_ m)
  \/ (success (fst (deleteRule n m)) = true
      /\ exists m', snd (deleteRule n m) = snd (loadExistingRules m')).
Proof.
  unfold deleteRule, bind, getRules.
  destruct (List.find _ (rules_ m)) as [it|].
  - apply deleteRuleFile_cache.
  - left. now split.
Qed.

(** C5.  When [createRule], [deleteRule] or [deleteRuleFile] returns a
    failure, [rules_] is what it was before the call.  [deleteRuleFile] on a
    path that does not exist returns a failure and hands back the machine as
    it found it. *)
Theorem failed_mutation_keeps_cache (m : Machine W) :
  (forall d n, success (fst (createRule d n m)) = false ->
               rules_ (snd (createRule d n m)) = rules_ m)
  /\ (forall n, success (fst (deleteRule n m)) = false ->
                rules_ (snd (deleteRule n m)) = rules_ m)
  /\ (forall p, success (fst (deleteRuleFile p m)) = false ->
                rules_ (snd (deleteRuleFile p m)) = rules_ m)
  /\ (forall p, os_exists (world m) p = false ->
                deleteRuleFile p m = (Failure ("Rule file does not exist: " ++ p), m)).
Proof.
  repeat split.
  - intros d n Hf. destruct (createRule_cache d n m) as [H|[H _]]; congruence.
  - intros n Hf. destruct (deleteRule_cache n m) as [[_ H]|[H _]]; congruence.
  - intros p Hf. destruct (deleteRuleFile_cache p m) as [[_ H]|[H _]]; congruence.
  - intros p Hp. unfold deleteRuleFile, removeRuleFile, bind, observe.
    rewrite Hp. reflexivity.
Qed.

Lemma loadExistingRules_complete (m : Machine W) :
  Forall complete (rules_ (snd (loadExistingRules m))).
Proof.
  apply Forall_forall. intros r Hin.
  destruct (loadExistingRules_in m r Hin) as (e & _ & _ & _ & _ & text & _ & Hp).
  destruct (parseRuleText_some _ _ _ Hp) as (_ & _ & Hv & Hs & Hn).
  repeat split; assumption.
Qed.

Lemma reloadRules_rules (m : Machine W) : rules_ (snd (reloadRules m)) = rules_ m.
Proof.
  destruct (reloadRules_run m) as [_ ->]. apply executeCommand_rules.
Qed.

Lemma triggerRules_rules (m : Machine W) : rules_ (snd (triggerRules m)) = rules_ m.
Proof.
  destruct (triggerRules_run m) as [_ ->]. apply executeCommand_rules.
Qed.

Lemma applyRules_rules (m : Machine W) : rules_ (snd (applyRules m)) = rules_ m.
Proof.
  unfold applyRules, bind.
  pose proof (reloadRules_rules m) as Hr.
  destruct (reloadRules m) as [res m1]. cbn [snd] in Hr.
  destruct (success res); cbn [negb]; [|exact Hr].
  pose proof (triggerRules_rules m1) as Ht.
  destruct (triggerRules m1) as [tres m2]. cbn [snd] in Ht.
  destruct (success tres); cbn [negb snd ret]; congruence.
Qed.

(** A line without the marker leaves the name alone. *)
Lemma parseLine_name (rule : UdevRule.t) (line : string) :
  contains "# Device:" line = false ->
  UdevRule.name (parseLine rule line) = UdevRule.name rule.
Proof.
  intros Hc. unfold parseLine. rewrite Hc.
  destruct line as [|c l]; [reflexivity|].
  destruct (c =? "#")%char; [reflexivity|].
  destruct (regex_search vendorRegex _); destruct (regex_search productRegex _);
    destruct (regex_search serialRegex _); destruct (regex_search symlinkRegex _);
    reflexivity.
Qed.

Lemma fold_parseLine_name (lines : list string) (rule : UdevRule.t) :
  (forall l, In l lines -> contains "# Device:" l = false) ->
  UdevRule.name (fold_left parseLine lines rule) = UdevRule.name rule.
Proof.
  revert rule. induction lines as [|l ls IH]; intros rule Hl; [reflexivity|].
  cbn [fold_left]. rewrite IH by (intros l' Hl'; apply Hl; now right).
  apply parseLine_name. apply Hl. now left.
Qed.

Lemma parseRuleText_default_name (filePath text : string) (r : UdevRule.t) :
  parseRuleText filePath text = Some r ->
  (forall l, In l (getlines text) -> contains "# Device:" l = false) ->
  UdevRule.name r = UdevRule.symlink r.
Proof.
  unfold parseRuleText. intros Hp Hl.
  match type of Hp with context [fold_left parseLine ?ls ?r0] =>
    pose proof (fold_parseLine_name ls r0 Hl) as Hn;
    set (rule := fold_left parseLine ls r0) in *
  end.
  cbn in Hn. rewrite Hn in Hp. cbn [empty] in Hp.
  destruct (empty (UdevRule.vendorId rule) || empty (UdevRule.symlink rule));
    [discriminate|].
  injection Hp as <-. reflexivity.
Qed.

(** C9.  In every state a [UdevManager] can reach, every cached record has a
    vendor id, a symlink and a name.  The reason lies in [parseRuleFile]:
    whatever it returns has all three, and when no line of the file holds the
    ["# Device:"] marker the name is the symlink. *)
Theorem cache_records_complete :
  (forall m : Machine W, Reachable m -> Forall complete (rules_ m))
  /\ (forall filePath text r,
        parseRuleText filePath text = Some r ->
        complete r
        /\ ((forall l, In l (getlines text) -> contains "# Device:" l = false) ->
            UdevRule.name r = UdevRule.symlink r)).
Proof.
  split.
  - intros m Hm. induction Hm as
      [w | m d n Hm IH | m n Hm IH | m p Hm IH | m Hm IH
       | m Hm IH | m Hm IH | m Hm IH | m w' Hm IH].
    + apply loadExistingRules_complete.
    + destruct (createRule_cache d n m) as [->|[_ [m' ->]]];
        [assumption | apply loadExistingRules_complete].
    + destruct (deleteRule_cache n m) as [[_ ->]|[_ [m' ->]]];
        [assumption | apply loadExistingRules_complete].
    + destruct (deleteRuleFile_cache p m) as [[_ ->]|[_ [m' ->]]];
        [assumption | apply loadExistingRules_complete].
    + apply loadExistingRules_complete.
    + now rewrite reloadRules_rules.
    + now rewrite triggerRules_rules.
    + now rewrite applyRules_rules.
    + exact IH.
  - intros filePath text r Hp. split.
    + destruct (parseRuleText_some _ _ _ Hp) as (_ & _ & Hv & Hs & Hn).
      repeat split; assumption.
    + now apply (parseRuleText_default_name filePath text).
Qed.

End Cache.

(* ================================================================== *)
(** ** A device without product id and serial *)
(* ================================================================== *)

Lemma isValid_iff (d : DeviceInfo.t) :
  DeviceInfo.isValid d = true
  <-> DeviceInfo.devPath d <> "" /\ DeviceInfo.vendorId d <> "".
Proof.
  unfold DeviceInfo.isValid.
  rewrite andb_true_iff, !negb_true_iff, !empty_false_iff. tauto.
Qed.

Lemma contains_prefix (pat s : string) : prefix pat s = true -> contains pat s = true.
Proof.
  intros H. unfold contains. destruct s; cbn [str_find]; now rewrite H.
Qed.

Lemma contains_append (pat a s : string) :
  contains pat s = true -> contains pat (a ++ s) = true.
Proof.
  intros H. induction a as [|c a IH]; [exact H|].
  cbn [append]. rewrite contains_cons, IH. apply orb_true_r.
Qed.

Section BareDevice.

Context {W : Type} {OS : OsOps W}.

(** C10.  A device is valid as soon as its device path and its vendor id are
    not empty.  For such a device with an empty product id and an empty
    serial, [createRule] never answers with the invalid-device failure, and
    the text it renders ends in a rule line that compares [idProduct] with the
    empty string and goes from there straight to the symlink: no serial
    attribute is written. *)
Theorem createRule_bare_device (m : Machine W) (d : DeviceInfo.t) (n : string) :
  DeviceInfo.devPath d <> "" ->
  DeviceInfo.vendorId d <> "" ->
  DeviceInfo.productId d = "" ->
  DeviceInfo.serial d = "" ->
  DeviceInfo.isValid d = true
  /\ fst (createRule d n m) <> Failure "Invalid device information"
  /\ (forall m0, exists created,
        fst (generateRuleContent d n m0) = ruleContent created d n)
  /\ (forall created,
        ruleContent created d n
        = (commentHeader created d ++ NL
           ++ "SUBSYSTEM==" ++ Q ++ "tty" ++ Q
           ++ ", ATTRS{idVendor}==" ++ Q ++ DeviceInfo.vendorId d ++ Q
           ++ ", ATTRS{idProduct}==" ++ Q ++ Q
           ++ ", SYMLINK+=" ++ Q ++ n ++ Q
           ++ ", MODE=" ++ Q ++ "0666" ++ Q ++ NL)%string
        /\ contains ("ATTRS{idProduct}==" ++ Q ++ Q) (ruleContent created d n) = true).
Proof.
  intros Hpath Hvendor Hprod Hser.
  assert (Hvalid : DeviceInfo.isValid d = true) by (apply isValid_iff; now split).
  assert (Hshape : forall created,
            ruleContent created d n
            = (commentHeader created d ++ NL
               ++ "SUBSYSTEM==" ++ Q ++ "tty" ++ Q
               ++ ", ATTRS{idVendor}==" ++ Q ++ DeviceInfo.vendorId d ++ Q
               ++ ", ATTRS{idProduct}==" ++ Q ++ Q
               ++ ", SYMLINK+=" ++ Q ++ n ++ Q
               ++ ", MODE=" ++ Q ++ "0666" ++ Q ++ NL)%string).
  { intros created. unfold ruleContent, ruleLine. rewrite Hprod, Hser.
    cbn [empty negb]. rewrite !append_assoc. reflexivity. }
  split; [exact Hvalid|]. split; [|split].
  - unfold createRule. rewrite Hvalid.
    destruct (utils.isValidSymlinkName n); cbn [negb]; [|discriminate].
    unfold bind, getRules.
    destruct (symlinkExists (rules_ m) n); [discriminate|].
    destruct (List.find (sameDeviceTest d) (rules_ m)); [discriminate|].
    rewrite generateRuleContent_run.
    match goal with |- context [writeRuleFile ?p ?c ?m1] =>
      pose proof (writeRuleFile_run p c m1) as [_ Hw];
      destruct (writeRuleFile p c m1) as [result m2]
    end.
    cbn [fst] in Hw. destruct (success result) eqn:Es; cbn [negb].
    + destruct (loadExistingRules m2) as [[] m3]. discriminate.
    + destruct Hw as [Hw|[Hw|Hw]]; rewrite Hw in *; discriminate.
  - intros m0. rewrite generateRuleContent_run. eexists. reflexivity.
  - intros created. split; [apply Hshape|].
    rewrite Hshape.
    do 2 apply contains_append.
    change ("SUBSYSTEM==" ++ Q ++ "tty" ++ Q
            ++ ", ATTRS{idVendor}==" ++ Q ++ DeviceInfo.vendorId d ++ Q
            ++ ", ATTRS{idProduct}==" ++ Q ++ Q
            ++ ", SYMLINK+=" ++ Q ++ n ++ Q ++ ", MODE=" ++ Q ++ "0666" ++ Q ++ NL)%string
      with (("SUBSYSTEM==" ++ Q ++ "tty" ++ Q ++ ", ATTRS{idVendor}==" ++ Q)
            ++ DeviceInfo.vendorId d ++ (Q ++ ", ")
            ++ ("ATTRS{idProduct}==" ++ Q ++ Q)
            ++ ", SYMLINK+=" ++ Q ++ n ++ Q ++ ", MODE=" ++ Q ++ "0666" ++ Q ++ NL)%string.
    do 3 apply contains_append.
    apply contains_prefix, prefix_append.
Qed.

End BareDevice.

(** A run of C10's theorem on a machine whose user is not root: the write
    fails for want of [sudo], not for the device. *)
Lemma createRule_bare_device_witness :
  fst (createRule (DeviceInfo.mk "/dev/ttyUSB2" "" "" "" "1a86" "" "" "" "" "" "ttyUSB2" "" "" "")
         "console" (UdevManager Sim.unprivileged))
  <> Failure "Invalid device information".
Proof.
  apply (createRule_bare_device (UdevManager Sim.unprivileged)
           (DeviceInfo.mk "/dev/ttyUSB2" "" "" "" "1a86" "" "" "" "" "" "ttyUSB2" "" "" "")
           "console"); cbn; congruence.
Defined.

(* ================================================================== *)
(** ** Searching with the four patterns *)
(* ================================================================== *)

Lemma forallb_str_impl (p q : ascii -> bool) (s : string) :
  (forall c, p c = true -> q c = true) ->
  forallb_str p s = true -> forallb_str q s = true.
Proof.
  intros Hpq. induction s as [|c s IH]; [reflexivity|].
  cbn [forallb_str]. rewrite !andb_true_iff. intros [Hc Hs]. auto.
Qed.

Lemma regex_search_hit (re : CaptureRe) (s m : string) :
  match_at re s = Some m -> regex_search re s = Some m.
Proof. intros H. destruct s; cbn [regex_search]; now rewrite H. Qed.

Lemma regex_search_miss (re : CaptureRe) (c : ascii) (s : string) :
  match_at re (String c s) = None ->
  regex_search re (String c s) = regex_search re s.
Proof. intros H. cbn [regex_search]. now rewrite H. Qed.

Lemma strip_prefix_append (lit rest : string) :
  strip_prefix lit (lit ++ rest) = Some rest.
Proof.
  induction lit as [|c lit IH]; [reflexivity|].
  cbn [append strip_prefix]. now rewrite Ascii.eqb_refl.
Qed.

(** The star runs over [v] and stops at the quote that follows. *)
Lemma star_quote_run (cls : ascii -> bool) (v rest : string) :
  cls dq = false -> forallb_str cls v = true ->
  star_quote cls (v ++ String dq rest) = Some v.
Proof.
  intros Hdq. induction v as [|c v IH]; intros Hv.
  - cbn [append star_quote]. now rewrite Hdq, Ascii.eqb_refl.
  - cbn [forallb_str] in Hv. apply andb_true_iff in Hv. destruct Hv as [Hc Hv].
    cbn [append star_quote]. now rewrite Hc, (IH Hv).
Qed.

Lemma plus_quote_run (cls : ascii -> bool) (v rest : string) :
  cls dq = false -> forallb_str cls v = true -> v <> "" ->
  plus_quote cls (v ++ String dq rest) = Some v.
Proof.
  intros Hdq Hv Hne. destruct v as [|c v]; [congruence|].
  cbn [forallb_str] in Hv. apply andb_true_iff in Hv. destruct Hv as [Hc Hv].
  cbn [append plus_quote]. now rewrite Hc, (star_quote_run cls v rest Hdq Hv).
Qed.

Lemma plus_quote_quote (cls : ascii -> bool) (rest : string) :
  cls dq = false -> plus_quote cls (String dq rest) = None.
Proof. intros Hdq. cbn [plus_quote]. now rewrite Hdq. Qed.

Lemma match_at_hit (re : CaptureRe) (v rest : string) :
  re_cls re dq = false -> forallb_str (re_cls re) v = true -> v <> "" ->
  match_at re (re_lit re ++ v ++ String dq rest) = Some v.
Proof.
  intros Hdq Hv Hne. unfold match_at.
  rewrite strip_prefix_append. now apply plus_quote_run.
Qed.

Lemma clash_strip (pat s t : string) :
  clash pat s = true -> strip_prefix pat (s ++ t) = None.
Proof.
  revert s. induction pat as [|p pat IH]; intros [|c s]; cbn; try discriminate.
  destruct (p =? c)%char; [apply IH | reflexivity].
Qed.

(** No match starts inside a piece of text on which the literal clashes at
    every position. *)
Lemma search_skip_lit (re : CaptureRe) (piece t : string) :
  all_clash (re_lit re) piece = true ->
  regex_search re (piece ++ t) = regex_search re t.
Proof.
  induction piece as [|c piece IH]; [reflexivity|].
  cbn [all_clash]. rewrite andb_true_iff. intros [Hc Hs].
  cbn [append]. rewrite regex_search_miss; [now apply IH|].
  unfold match_at.
  change (String c (piece ++ t)) with (String c piece ++ t)%string.
  now rewrite clash_strip.
Qed.

(** The literal holds a character [x] that the text [v] lacks, and the
    character [r0] after [v] is neither [x] nor occurs in the literal before
    [x]: the literal does not fit anywhere in [v]. *)
Lemma strip_prefix_foreign (pre : string) (x : ascii) (post v : string)
    (r0 : ascii) (rest : string) :
  forallb_str (fun c => negb (c =? x)%char) v = true ->
  forallb_str (fun c => negb (c =? r0)%char) pre = true ->
  (x =? r0)%char = false ->
  strip_prefix (pre ++ String x post) (v ++ String r0 rest) = None.
Proof.
  intros Hv Hpre Hx. revert v Hv.
  induction pre as [|p pre IH]; intros [|a v] Hv; cbn [append strip_prefix].
  - now rewrite Hx.
  - cbn [forallb_str] in Hv. apply andb_true_iff in Hv. destruct Hv as [Ha _].
    apply negb_true_iff in Ha. rewrite Ascii.eqb_sym in Ha. now rewrite Ha.
  - cbn [forallb_str] in Hpre. apply andb_true_iff in Hpre. destruct Hpre as [Hp _].
    apply negb_true_iff in Hp. now rewrite Hp.
  - cbn [forallb_str] in Hpre, Hv.
    apply andb_true_iff in Hpre. destruct Hpre as [_ Hpre].
    apply andb_true_iff in Hv. destruct Hv as [_ Hv].
    destruct (p =? a)%char; [now apply IH | reflexivity].
Qed.

Lemma search_skip_foreign (re : CaptureRe) (pre : string) (x : ascii)
    (post v : string) (r0 : ascii) (rest : string) :
  re_lit re = (pre ++ String x post)%string ->
  forallb_str (fun c => negb (c =? x)%char) v = true ->
  forallb_str (fun c => negb (c =? r0)%char) pre = true ->
  (x =? r0)%char = false ->
  regex_search re (v ++ String r0 rest) = regex_search re (String r0 rest).
Proof.
  intros Hlit Hv Hpre Hx. induction v as [|a v IH]; [reflexivity|].
  cbn [append]. rewrite regex_search_miss.
  - apply IH. cbn [forallb_str] in Hv. now apply andb_true_iff in Hv.
  - unfold match_at. rewrite Hlit.
    change (String a (v ++ String r0 rest)) with (String a v ++ String r0 rest)%string.
    now rewrite strip_prefix_foreign.
Qed.

(** A literal that ends in the quote, against text without a quote that is
    closed by one: the literal fits only when the text is the literal. *)
Lemma strip_prefix_quoted (lit s rest : string) :
  forallb_str cls_notquote lit = true ->
  forallb_str cls_notquote s = true ->
  strip_prefix (lit ++ Q) (s ++ String dq rest)
  = if (s =? lit)%string then Some rest else None.
Proof.
  revert s. induction lit as [|p lit IH]; intros [|a s] Hlit Hs;
    cbn [append strip_prefix String.eqb Q].
  - now rewrite Ascii.eqb_refl.
  - cbn [forallb_str] in Hs. apply andb_true_iff in Hs. destruct Hs as [Ha _].
    unfold cls_notquote in Ha. apply negb_true_iff in Ha.
    rewrite Ascii.eqb_sym in Ha. now rewrite Ha.
  - cbn [forallb_str] in Hlit. apply andb_true_iff in Hlit. destruct Hlit as [Hp _].
    unfold cls_notquote in Hp. apply negb_true_iff in Hp. now rewrite Hp.
  - cbn [forallb_str] in Hlit, Hs.
    apply andb_true_iff in Hlit. destruct Hlit as [_ Hlit].
    apply andb_true_iff in Hs. destruct Hs as [_ Hs].
    rewrite (Ascii.eqb_sym a p).
    destruct (p =? a)%char; [now apply IH | reflexivity].
Qed.

Lemma substr_from_append (a b : string) : substr_from (String.length a) (a ++ b) = b.
Proof. induction a as [|c a IH]; [reflexivity | exact IH]. Qed.

Lemma substr_from_split (k : nat) (s : string) :
  exists a, s = (a ++ substr_from k s)%string.
Proof.
  revert s. induction k as [|k IH]; intros s.
  - now exists "".
  - destruct s as [|c s]; [now exists ""|].
    destruct (IH s) as [a Ha]. exists (String c a). cbn. congruence.
Qed.

Lemma endsWith_iff (s suffix : string) :
  utils.endsWith s suffix = true <-> exists a, s = (a ++ suffix)%string.
Proof.
  unfold utils.endsWith. rewrite andb_true_iff, Nat.leb_le, String.eqb_eq. split.
  - intros [_ H]. destruct (substr_from_split (String.length s - String.length suffix) s)
      as [a Ha]. exists a. congruence.
  - intros [a ->]. rewrite length_append. split; [lia|].
    replace (String.length a + String.length suffix - String.length suffix)%nat
      with (String.length a) by lia.
    apply substr_from_append.
Qed.

Lemma endsWith_tail (c : ascii) (s suffix : string) :
  utils.endsWith (String c s) suffix = false -> utils.endsWith s suffix = false.
Proof.
  intros H. apply not_true_is_false. intros Hs.
  apply endsWith_iff in Hs. destruct Hs as [a ->].
  assert (utils.endsWith (String c (a ++ suffix)) suffix = true)
    by (apply endsWith_iff; now exists (String c a)).
  congruence.
Qed.

(** No match starts inside quote-free text [s] closed by a quote, when the
    literal ends in the quote and either [s] does not end in the rest of the
    literal or the class does not fit what follows the closing quote. *)
Lemma search_skip_quoted (re : CaptureRe) (lit s rest : string) :
  re_lit re = (lit ++ Q)%string ->
  forallb_str cls_notquote lit = true ->
  forallb_str cls_notquote s = true ->
  utils.endsWith s lit = false \/ plus_quote (re_cls re) rest = None ->
  regex_search re (s ++ String dq rest) = regex_search re (String dq rest).
Proof.
  intros Hre Hlit Hs Hend. induction s as [|a s IH]; [reflexivity|].
  cbn [append]. rewrite regex_search_miss.
  - apply IH.
    + cbn [forallb_str] in Hs. now apply andb_true_iff in Hs.
    + destruct Hend as [Hend|Hend]; [left; now apply endsWith_tail in Hend | now right].
  - unfold match_at. rewrite Hre.
    change (String a (s ++ String dq rest)) with (String a s ++ String dq rest)%string.
    rewrite strip_prefix_quoted by assumption.
    destruct (String.eqb_spec (String a s) lit) as [E|E]; [|reflexivity].
    destruct Hend as [Hend|Hend]; [|exact Hend].
    assert (utils.endsWith (String a s) lit = true)
      by (apply endsWith_iff; exists ""; now rewrite E).
    congruence.
Qed.

(* ================================================================== *)
(** ** The four patterns on a rendered rule line *)
(* ================================================================== *)

Lemma cls_hex_facts (c : ascii) :
  cls_hex c = true ->
  negb (c =? "T")%char = true /\ negb (c =? "Y")%char = true
  /\ cls_notquote c = true /\ negb (c =? lf)%char = true.
Proof.
  destruct c as [[] [] [] [] [] [] [] []]; vm_compute; intros H;
    try discriminate H; repeat split.
Qed.

Lemma cls_word_facts (c : ascii) :
  cls_word c = true ->
  negb (c =? "{")%char = true /\ cls_notquote c = true
  /\ negb (c =? lf)%char = true.
Proof.
  destruct c as [[] [] [] [] [] [] [] []]; vm_compute; intros H;
    try discriminate H; repeat split.
Qed.

Lemma cls_alpha_word (c : ascii) : cls_alpha c = true -> cls_word c = true.
Proof.
  unfold cls_alpha, cls_word. rewrite !orb_true_iff. tauto.
Qed.

Lemma ruleLine_lineOf (d : DeviceInfo.t) (n : string) :
  ruleLine d n
  = lineOf (DeviceInfo.vendorId d) (DeviceInfo.productId d) (DeviceInfo.serial d) n.
Proof.
  unfold ruleLine, lineOf, serialPart, symlinkPart.
  destruct (DeviceInfo.serial d); cbn [empty negb];
    rewrite ?append_assoc; reflexivity.
Qed.

Section LineSearch.

Variables v p s n : string.
Hypothesis Hv : forallb_str cls_hex v = true.
Hypothesis Hp : forallb_str cls_hex p = true.
Hypothesis Hs : forallb_str cls_notquote s = true.
Hypothesis Hn : forallb_str cls_word n = true.
Hypothesis Hv0 : v <> "".
Hypothesis Hn0 : n <> "".

Lemma n_notquote : forallb_str cls_notquote n = true.
Proof.
  apply (forallb_str_impl cls_word); [|exact Hn].
  intros c Hc. now apply cls_word_facts in Hc.
Qed.

Lemma symlinkPart_symlink : regex_search symlinkRegex (symlinkPart n) = Some n.
Proof.
  unfold symlinkPart. rewrite search_skip_lit by reflexivity.
  apply regex_search_hit.
  change lineEnd with (String dq (", MODE=" ++ Q ++ "0666" ++ Q)).
  apply (match_at_hit symlinkRegex); [reflexivity | apply n_notquote | exact Hn0].
Qed.

(** The patterns for product and serial find nothing from the symlink on. *)
Lemma symlinkPart_none (re : CaptureRe) (post : string) :
  re_lit re = ("ATTRS" ++ String "{" post)%string ->
  regex_search re lineEnd = None ->
  regex_search re (symlinkPart n) = None.
Proof.
  intros Hlit Hend. rewrite <- Hend. unfold symlinkPart.
  change (sep ++ symlinkLit ++ n ++ lineEnd)%string
    with ((sep ++ symlinkLit) ++ n ++ String dq (", MODE=" ++ Q ++ "0666" ++ Q))%string.
  rewrite search_skip_lit by (rewrite Hlit; reflexivity).
  apply (search_skip_foreign re "ATTRS" "{" post); try reflexivity; [exact Hlit|].
  apply (forallb_str_impl cls_word); [|exact Hn].
  intros c Hc. now apply cls_word_facts in Hc.
Qed.

Lemma hex_skip (x : ascii) :
  (forall c, cls_hex c = true -> negb (c =? x)%char = true) ->
  forall h, forallb_str cls_hex h = true ->
  forallb_str (fun c => negb (c =? x)%char) h = true.
Proof. intros Hx h. now apply forallb_str_impl. Qed.

(** A pattern that starts with a letter followed by [x], where no hex digit
    is [x], finds nothing before the quote that closes the product id. *)
Lemma search_past_product (re : CaptureRe) (a x : ascii) (post rest : string) :
  re_lit re = String a (String x post) ->
  (forall c, cls_hex c = true -> negb (c =? x)%char = true) ->
  (a =? dq)%char = false -> (x =? dq)%char = false ->
  all_clash (re_lit re) (lineStart ++ vendorLit) = true ->
  all_clash (re_lit re) (sep ++ productLit) = true ->
  regex_search re (lineStart ++ vendorLit ++ v ++ sep ++ productLit ++ p ++ String dq rest)
  = regex_search re (String dq rest).
Proof.
  intros Hlit Hx Ha Hxq Hc1 Hc2.
  change (lineStart ++ vendorLit ++ v ++ sep ++ productLit ++ p ++ String dq rest)%string
    with ((lineStart ++ vendorLit) ++ v
          ++ String dq (", " ++ productLit ++ p ++ String dq rest))%string.
  rewrite search_skip_lit by exact Hc1.
  rewrite (search_skip_foreign re (String a "") x post);
    [ | exact Hlit | now apply hex_skip | cbn; now rewrite Ha | exact Hxq ].
  change (String dq (", " ++ productLit ++ p ++ String dq rest))%string
    with ((sep ++ productLit) ++ p ++ String dq rest)%string.
  rewrite search_skip_lit by exact Hc2.
  apply (search_skip_foreign re (String a "") x post);
    [ exact Hlit | now apply hex_skip | cbn; now rewrite Ha | exact Hxq ].
Qed.

Lemma serialPart_quote : exists rest, serialPart s n = String dq rest.
Proof. unfold serialPart, symlinkPart. destruct s; eexists; reflexivity. Qed.

Lemma lineOf_vendor : regex_search vendorRegex (lineOf v p s n) = Some v.
Proof.
  unfold lineOf. rewrite search_skip_lit by reflexivity.
  apply regex_search_hit.
  change (sep ++ productLit ++ p ++ serialPart s n)%string
    with (String dq (", " ++ productLit ++ p ++ serialPart s n))%string.
  apply (match_at_hit vendorRegex); [reflexivity | exact Hv | exact Hv0].
Qed.

Lemma lineOf_symlink :
  utils.endsWith s "SYMLINK+=" = false ->
  regex_search symlinkRegex (lineOf v p s n) = Some n.
Proof.
  intros Hend. unfold lineOf.
  destruct serialPart_quote as [rest Hrest]. rewrite Hrest.
  rewrite (search_past_product symlinkRegex "S" "Y" ("MLINK+=" ++ Q) rest);
    try reflexivity; [|intros c Hc; now apply cls_hex_facts in Hc].
  rewrite <- Hrest. unfold serialPart. destruct s as [|c0 s0] eqn:Es.
  - apply symlinkPart_symlink.
  - rewrite <- Es in *.
    change (sep ++ serialLit ++ s ++ symlinkPart n)%string
      with ((sep ++ serialLit) ++ s
            ++ String dq (", " ++ symlinkLit ++ n ++ lineEnd))%string.
    rewrite search_skip_lit by reflexivity.
    rewrite (search_skip_quoted symlinkRegex "SYMLINK+=");
      [apply symlinkPart_symlink | reflexivity | reflexivity | exact Hs | now left].
Qed.

Lemma lineOf_serial :
  regex_search serialRegex (lineOf v p s n)
  = match s with EmptyString => None | String _ _ => Some s end.
Proof.
  unfold lineOf.
  destruct serialPart_quote as [rest Hrest]. rewrite Hrest.
  rewrite (search_past_product serialRegex "A" "T" ("TRS{serial}==" ++ Q) rest);
    try reflexivity; [|intros c Hc; now apply cls_hex_facts in Hc].
  rewrite <- Hrest. unfold serialPart. destruct s as [|c0 s0] eqn:Es.
  - now apply (symlinkPart_none serialRegex ("serial}==" ++ Q)).
  - rewrite <- Es in *. rewrite search_skip_lit by reflexivity.
    apply regex_search_hit. unfold symlinkPart.
    change (sep ++ symlinkLit ++ n ++ lineEnd)%string
      with (String dq (", " ++ symlinkLit ++ n ++ lineEnd))%string.
    apply (match_at_hit serialRegex); [reflexivity | exact Hs | congruence].
Qed.

Lemma lineOf_product :
  regex_search productRegex (lineOf v p s n)
  = match p with EmptyString => None | String _ _ => Some p end.
Proof.
  unfold lineOf.
  destruct serialPart_quote as [rest Hrest].
  change (lineStart ++ vendorLit ++ v ++ sep ++ productLit ++ p ++ serialPart s n)%string
    with ((lineStart ++ vendorLit) ++ v
          ++ String dq (", " ++ productLit ++ p ++ serialPart s n))%string.
  rewrite search_skip_lit by reflexivity.
  rewrite (search_skip_foreign productRegex "A" "T" ("TRS{idProduct}==" ++ Q));
    [ | reflexivity | apply hex_skip;
                      [intros c Hc; now apply cls_hex_facts in Hc | exact Hv]
      | reflexivity | reflexivity ].
  change (String dq (", " ++ productLit ++ p ++ serialPart s n))%string
    with (sep ++ productLit ++ p ++ serialPart s n)%string.
  rewrite search_skip_lit by reflexivity.
  destruct p as [|c0 p0] eqn:Ep.
  - (* the empty value: the class needs one character and meets the quote *)
    cbn [append]. rewrite Hrest.
    change (productLit ++ String dq rest)%string
      with (String "A" ("TTRS{idProduct}==" ++ Q ++ String dq rest))%string.
    rewrite regex_search_miss by reflexivity.
    change ("TTRS{idProduct}==" ++ Q ++ String dq rest)%string
      with (("TTRS{idProduct}==" ++ Q) ++ String dq rest)%string.
    rewrite search_skip_lit by reflexivity.
    rewrite <- Hrest. unfold serialPart. destruct s as [|c1 s1] eqn:Es.
    + now apply (symlinkPart_none productRegex ("idProduct}==" ++ Q)).
    + rewrite <- Es in *.
      change (sep ++ serialLit ++ s ++ symlinkPart n)%string
        with ((sep ++ serialLit) ++ s
              ++ String dq (", " ++ symlinkLit ++ n ++ lineEnd))%string.
      rewrite search_skip_lit by reflexivity.
      rewrite (search_skip_quoted productRegex "ATTRS{idProduct}==");
        [ | reflexivity | reflexivity | exact Hs | now right ].
      now apply (symlinkPart_none productRegex ("idProduct}==" ++ Q)).
  - rewrite <- Ep in *. rewrite Hrest. apply regex_search_hit.
    apply (match_at_hit productRegex); [reflexivity | exact Hp | congruence].
Qed.

End LineSearch.

(* ================================================================== *)
(** ** Rendering, then parsing *)
(* ================================================================== *)

Lemma ruleContent_unlines (created : string) (d : DeviceInfo.t) (n : string) :
  ruleContent created d n = unlines (headerLines created d ++ [""; ruleLine d n]).
Proof.
  unfold ruleContent, commentHeader, headerLines, unlines.
  destruct (DeviceInfo.serial d); cbn [empty negb app fold_right];
    rewrite ?append_assoc, ?append_nil_r; reflexivity.
Qed.

Lemma getlines_line (a rest : string) :
  single_line a = true -> getlines (a ++ NL ++ rest) = a :: getlines rest.
Proof.
  unfold single_line. induction a as [|c a IH]; intros Ha.
  - reflexivity.
  - cbn [forallb_str] in Ha. apply andb_true_iff in Ha. destruct Ha as [Hc Ha].
    apply negb_true_iff in Hc. cbn [append getlines]. rewrite Hc.
    now rewrite (IH Ha).
Qed.

Lemma getlines_unlines (ls : list string) :
  Forall (fun l => single_line l = true) ls -> getlines (unlines ls) = ls.
Proof.
  induction 1 as [|l ls Hl _ IH]; [reflexivity|].
  cbn [unlines fold_right]. rewrite getlines_line by exact Hl.
  f_equal. exact IH.
Qed.

Lemma single_line_append (a b : string) :
  single_line (a ++ b) = single_line a && single_line b.
Proof. apply forallb_str_append. Qed.

Lemma parseLine_comment (rule : UdevRule.t) (l : string) :
  fieldsOf (parseLine rule (String "#" l)) = fieldsOf rule.
Proof. unfold parseLine. destruct (contains _ _); reflexivity. Qed.

Lemma parseLine_empty (rule : UdevRule.t) :
  fieldsOf (parseLine rule "") = fieldsOf rule.
Proof. reflexivity. Qed.

Lemma fold_parseLine_comments (ls : list string) (rule : UdevRule.t) :
  Forall (fun l => exists t, l = String "#" t) ls ->
  fieldsOf (fold_left parseLine ls rule) = fieldsOf rule.
Proof.
  intros H. revert rule. induction H as [|l ls [t ->] _ IH]; intros rule.
  - reflexivity.
  - cbn [fold_left]. rewrite IH. apply parseLine_comment.
Qed.

Lemma headerLines_comments (created : string) (d : DeviceInfo.t) :
  Forall (fun l => exists t, l = String "#" t) (headerLines created d).
Proof.
  unfold headerLines. destruct (DeviceInfo.serial d); cbn [empty negb app];
    repeat constructor; eexists; reflexivity.
Qed.

(** What the loop body makes of a rendered rule line. *)
Lemma parseLine_lineOf (rule : UdevRule.t) (v p s n : string) :
  forallb_str cls_hex v = true -> forallb_str cls_hex p = true ->
  forallb_str cls_notquote s = true -> utils.endsWith s "SYMLINK+=" = false ->
  forallb_str cls_word n = true -> v <> "" -> n <> "" ->
  fieldsOf (parseLine rule (lineOf v p s n))
  = (v,
     match p with EmptyString => UdevRule.productId rule | String _ _ => p end,
     match s with EmptyString => UdevRule.serial rule | String _ _ => s end,
     n).
Proof.
  intros Hv Hp Hs Hend Hn Hv0 Hn0.
  assert (E : exists t, lineOf v p s n = String "S" t) by (eexists; reflexivity).
  destruct E as [t E]. unfold parseLine.
  rewrite (lineOf_vendor v p s n Hv Hv0), (lineOf_product v p s n Hv Hp Hs Hn),
    (lineOf_serial v p s n Hv Hp Hs Hn), (lineOf_symlink v p s n Hv Hp Hs Hn Hn0 Hend).
  rewrite E. cbn [Ascii.eqb Bool.eqb].
  destruct (contains "# Device:" (String "S" t)); destruct p; destruct s; reflexivity.
Qed.

Lemma hex_single_line (h : string) :
  forallb_str cls_hex h = true -> single_line h = true.
Proof.
  apply forallb_str_impl. intros c Hc. now apply cls_hex_facts in Hc.
Qed.

Lemma word_single_line (w : string) :
  forallb_str cls_word w = true -> single_line w = true.
Proof.
  apply forallb_str_impl. intros c Hc. now apply cls_word_facts in Hc.
Qed.

Lemma quotable_single_line (s : string) : quotable s = true -> single_line s = true.
Proof.
  apply forallb_str_impl. intros c Hc. now apply andb_true_iff in Hc.
Qed.

Lemma quotable_notquote (s : string) :
  quotable s = true -> forallb_str cls_notquote s = true.
Proof.
  apply forallb_str_impl. intros c Hc. now apply andb_true_iff in Hc.
Qed.

Lemma valid_name_word (n : string) :
  utils.isValidSymlinkName n = true -> n <> "" /\ forallb_str cls_word n = true.
Proof.
  unfold utils.isValidSymlinkName.
  destruct (empty n || (64 <? String.length n)%nat); [discriminate|].
  destruct n as [|c r]; [discriminate|]. cbn [name_regex_match forallb_str].
  rewrite !andb_true_iff. intros [Hc Hr]. split; [discriminate|].
  split; [now apply cls_alpha_word | exact Hr].
Qed.

(** Splits a goal [single_line (a ++ b ++ ...) = true] into its pieces and
    closes the fixed ones. *)
Ltac single_line_pieces :=
  repeat (rewrite single_line_append; apply andb_true_iff; split);
  try reflexivity; try assumption.

Lemma lineOf_single_line (v p s n : string) :
  single_line v = true -> single_line p = true -> single_line s = true ->
  single_line n = true -> single_line (lineOf v p s n) = true.
Proof.
  intros Hv Hp Hs Hn. unfold lineOf, serialPart, symlinkPart.
  destruct s as [|c s0] eqn:Es; rewrite <- ?Es in *; single_line_pieces.
Qed.

Lemma headerLines_single_line (created : string) (d : DeviceInfo.t) :
  comments_single_line created d = true ->
  single_line (DeviceInfo.vendorId d) = true ->
  single_line (DeviceInfo.productId d) = true ->
  single_line (DeviceInfo.serial d) = true ->
  Forall (fun l => single_line l = true) (headerLines created d).
Proof.
  unfold comments_single_line. rewrite !andb_true_iff.
  intros [[[[Hprod Hnode] Hman] Hpath] Hcre] Hv Hp Hs.
  assert (Hname : single_line (DeviceInfo.getDisplayName d) = true).
  { unfold DeviceInfo.getDisplayName.
    destruct (negb (empty (DeviceInfo.product d))); [single_line_pieces | exact Hnode]. }
  unfold headerLines.
  destruct (negb (empty (DeviceInfo.serial d))); cbn [app];
    repeat (constructor; [single_line_pieces|]); constructor.
Qed.

(** C3, as the code has it.  Let the device be valid and the name be
    grammatical, let the vendor id and the product id consist of hexadecimal
    digits (the product id may be empty), let the serial hold neither a double
    quote nor a line feed and not end in [SYMLINK+=], and let the attributes
    and the time stamp written into the comments hold no line feed.  Then
    parsing the rendered text succeeds, whatever the file is called, and the
    record has the device's vendor id, product id and serial and the chosen
    name as its symlink. *)
Theorem parse_render_roundtrip (filePath created : string) (d : DeviceInfo.t)
    (n : string) :
  DeviceInfo.isValid d = true ->
  utils.isValidSymlinkName n = true ->
  forallb_str cls_hex (DeviceInfo.vendorId d) = true ->
  forallb_str cls_hex (DeviceInfo.productId d) = true ->
  quotable (DeviceInfo.serial d) = true ->
  utils.endsWith (DeviceInfo.serial d) "SYMLINK+=" = false ->
  comments_single_line created d = true ->
  exists r,
    parseRuleText filePath (ruleContent created d n) = Some r
    /\ UdevRule.vendorId r = DeviceInfo.vendorId d
    /\ UdevRule.productId r = DeviceInfo.productId d
    /\ UdevRule.serial r = DeviceInfo.serial d
    /\ UdevRule.symlink r = n.
Proof.
  intros Hvalid Hname Hv Hp Hq Hend Hcom.
  apply isValid_iff in Hvalid. destruct Hvalid as [_ Hv0].
  destruct (valid_name_word n Hname) as [Hn0 Hn].
  pose proof (quotable_notquote _ Hq) as Hs.
  assert (Hlines : getlines (ruleContent created d n)
                   = headerLines created d ++ [""; ruleLine d n]).
  { rewrite ruleContent_unlines. apply getlines_unlines.
    apply Forall_app. split.
    - apply headerLines_single_line; auto using hex_single_line, quotable_single_line.
    - repeat constructor. rewrite ruleLine_lineOf.
      apply lineOf_single_line;
        auto using hex_single_line, quotable_single_line, word_single_line. }
  unfold parseRuleText. rewrite Hlines, fold_left_app. cbn [fold_left].
  match goal with |- context [fold_left parseLine (headerLines created d) ?r0] =>
    pose proof (fold_parseLine_comments _ r0 (headerLines_comments created d)) as Hhead;
    set (rule1 := fold_left parseLine (headerLines created d) r0) in *
  end.
  clearbody rule1.
  pose proof (parseLine_empty rule1) as Hblank.
  set (rule2 := parseLine rule1 "") in *. clearbody rule2.
  rewrite Hhead in Hblank. cbn in Hblank.
  pose proof (parseLine_lineOf rule2 _ _ _ n Hv Hp Hs Hend Hn Hv0 Hn0) as Hline.
  rewrite <- ruleLine_lineOf in Hline.
  set (rule3 := parseLine rule2 (ruleLine d n)) in *. clearbody rule3.
  unfold fieldsOf in Hblank, Hline.
  injection Hblank as _ Hp2 Hs2 _. injection Hline as Hv3 Hp3 Hs3 Hn3.
  assert (Hp3' : UdevRule.productId rule3 = DeviceInfo.productId d)
    by (rewrite Hp3; destruct (DeviceInfo.productId d); congruence).
  assert (Hs3' : UdevRule.serial rule3 = DeviceInfo.serial d)
    by (rewrite Hs3; destruct (DeviceInfo.serial d); congruence).
  rewrite Hv3, Hn3.
  destruct (DeviceInfo.vendorId d) as [|a v'] eqn:Ev; [congruence|].
  destruct n as [|b n'] eqn:En; [congruence|]. cbn [empty orb].
  destruct (empty (UdevRule.name rule3)); eexists; (split; [reflexivity|]);
    cbn; repeat split; congruence.
Qed.

(** A run of C3's theorem on the adapter with a serial and the name
    [RS485_1]. *)
Lemma parse_render_roundtrip_witness :
  exists r,
    parseRuleText "/etc/udev/rules.d/99-easytty-RS485_1.rules"
      (ruleContent "Tue Nov  3 06:26:00 UTC 2026" Sim.ftdi "RS485_1") = Some r
    /\ UdevRule.vendorId r = "0403"
    /\ UdevRule.productId r = "6001"
    /\ UdevRule.serial r = "A50285BI"
    /\ UdevRule.symlink r = "RS485_1".
Proof.
  apply (parse_render_roundtrip "/etc/udev/rules.d/99-easytty-RS485_1.rules"
           "Tue Nov  3 06:26:00 UTC 2026" Sim.ftdi "RS485_1");
    vm_compute; reflexivity.
Defined.

(** C3 as stated fails.  Both devices are valid and the name is grammatical.
    For the vendor id [04g3] the rendered text does not parse at all; for the
    serial made of [A], a double quote and [1] it parses, and the serial read
    back is [A]. *)
Lemma parse_render_not_roundtrip :
  utils.isValidSymlinkName "RS485_1" = true
  /\ DeviceInfo.isValid Sim.odd_vendor = true
  /\ readBack Sim.odd_vendor = None
  /\ DeviceInfo.isValid Sim.quoted_serial = true
  /\ readBack Sim.quoted_serial = Some ("0403", "6001", "A", "RS485_1")
  /\ DeviceInfo.serial Sim.quoted_serial <> "A".
Proof. repeat split; try (vm_compute; reflexivity). discriminate. Qed.

(** The other conditions of the round trip are needed as well: a serial that
    ends in [SYMLINK+=] gives a wrong symlink, a product id that is not
    hexadecimal is lost, and a line feed in the product name lets a comment
    supply a serial the device does not have. *)
Example readBack_symlink_serial :
  readBack Sim.symlink_serial = Some ("0403", "6001", "xSYMLINK+=", ", SYMLINK+=").
Proof. vm_compute. reflexivity. Qed.

Example readBack_odd_product :
  readBack Sim.odd_product = Some ("0403", "", "A1", "RS485_1").
Proof. vm_compute. reflexivity. Qed.

Example readBack_two_line_product :
  readBack Sim.two_line_product = Some ("0403", "6001", "zz", "RS485_1").
Proof. vm_compute. reflexivity. Qed.

(* ================================================================== *)
(** ** Runs on the small machine *)
(* ================================================================== *)

(** A rule without a serial against a device with and without one. *)
Example matchesDevice_serial_presence :
  let rule := UdevRule.mk "x" "0403" "6001" "" "x" "" "" 99 true in
  let device s := DeviceInfo.mk "/dev/ttyUSB0" "" "" "" "0403" "6001" s "" "" ""
                    "" "" "" "" in
  UdevRule.matchesDevice rule (device "X") = false
  /\ UdevRule.matchesDevice rule (device "") = true.
Proof. split; reflexivity. Qed.

(** The scenario of the specification: the rule for the adapter is written
    as [99-easytty-RS485_1.rules] and the reload yields exactly one record. *)
Example scenario_RS485_1 :
  fst (createRule Sim.ftdi "RS485_1" (UdevManager Sim.fresh))
  = Success "Rule created successfully: /dev/RS485_1"
  /\ rules_ Sim.one_rule = [Sim.rule_RS485_1]
  /\ map fst (Sim.files (world Sim.one_rule))
     = ["/etc/udev/rules.d/99-easytty-RS485_1.rules"].
Proof. repeat split; vm_compute; reflexivity. Qed.

(** A run of C5's theorem on a cache that holds a rule.  The user is not root
    and has no [sudo]: [createRule] for a second adapter passes its checks and
    fails in the write, [deleteRule] and [deleteRuleFile] for the cached rule
    fail because the file is still there after [sudo rm], and [deleteRuleFile]
    on a path that does not exist fails at once.  Each time the cache still
    holds the rule. *)
Lemma failed_mutation_keeps_cache_witness :
  rules_ (UdevManager Sim.locked) = [Sim.rule_RS485_1]
  /\ (success (fst (createRule Sim.cp210x "GPS" (UdevManager Sim.locked))) = false
      /\ rules_ (snd (createRule Sim.cp210x "GPS" (UdevManager Sim.locked)))
         = [Sim.rule_RS485_1])
  /\ (success (fst (deleteRule "RS485_1" (UdevManager Sim.locked))) = false
      /\ rules_ (snd (deleteRule "RS485_1" (UdevManager Sim.locked)))
         = [Sim.rule_RS485_1])
  /\ (success (fst (deleteRuleFile "/etc/udev/rules.d/99-easytty-RS485_1.rules"
                      (UdevManager Sim.locked))) = false
      /\ rules_ (snd (deleteRuleFile "/etc/udev/rules.d/99-easytty-RS485_1.rules"
                        (UdevManager Sim.locked)))
         = [Sim.rule_RS485_1])
  /\ deleteRuleFile "/etc/udev/rules.d/99-easytty-gone.rules" (UdevManager Sim.locked)
     = (Failure "Rule file does not exist: /etc/udev/rules.d/99-easytty-gone.rules",
        UdevManager Sim.locked).
Proof.
  assert (Hcache : rules_ (UdevManager Sim.locked) = [Sim.rule_RS485_1])
    by (vm_compute; reflexivity).
  assert (Hc : success (fst (createRule Sim.cp210x "GPS" (UdevManager Sim.locked))) = false)
    by (vm_compute; reflexivity).
  assert (Hd : success (fst (deleteRule "RS485_1" (UdevManager Sim.locked))) = false)
    by (vm_compute; reflexivity).
  assert (Hf : success (fst (deleteRuleFile "/etc/udev/rules.d/99-easytty-RS485_1.rules"
                               (UdevManager Sim.locked))) = false)
    by (vm_compute; reflexivity).
  assert (Hg : os_exists (world (UdevManager Sim.locked))
                 "/etc/udev/rules.d/99-easytty-gone.rules" = false)
    by (vm_compute; reflexivity).
  split; [exact Hcache|].
  split; [split; [exact Hc|]|].
  { exact (eq_trans
             (proj1 (failed_mutation_keeps_cache (UdevManager Sim.locked))
                Sim.cp210x "GPS" Hc) Hcache). }
  split; [split; [exact Hd|]|].
  { exact (eq_trans
             (proj1 (proj2 (failed_mutation_keeps_cache (UdevManager Sim.locked)))
                "RS485_1" Hd) Hcache). }
  split; [split; [exact Hf|]|].
  { exact (eq_trans
             (proj1 (proj2 (proj2 (failed_mutation_keeps_cache (UdevManager Sim.locked))))
                "/etc/udev/rules.d/99-easytty-RS485_1.rules" Hf) Hcache). }
  exact (proj2 (proj2 (proj2 (failed_mutation_keeps_cache (UdevManager Sim.locked))))
           "/etc/udev/rules.d/99-easytty-gone.rules" Hg).
Defined.

(** In that run the failures come after the system was asked: the write of
    [createRule] went through [sudo tee], and the removal through [sudo rm]. *)
Example failed_mutation_after_the_call :
  trace (snd (createRule Sim.cp210x "GPS" (UdevManager Sim.locked)))
  = [EvPopen "date";
     EvSystem (teeCommand "/etc/udev/rules.d/99-easytty-GPS.rules"
                 (ruleContent "Tue Nov  3 06:26:00 UTC 2026" Sim.cp210x "GPS"))]
  /\ trace (snd (deleteRule "RS485_1" (UdevManager Sim.locked)))
     = [EvPopen (rmCommand "/etc/udev/rules.d/99-easytty-RS485_1.rules")].
Proof. split; vm_compute; reflexivity. Qed.



(** A run of C9's theorem: the state after the first [createRule]. *)
Lemma cache_records_complete_witness : Forall complete (rules_ Sim.one_rule).
Proof.
  apply (proj1 cache_records_complete Sim.one_rule).
  unfold Sim.one_rule. apply reach_createRule, reach_new.
Defined.

(* ================================================================== *)
(** ** More of Utils.hpp: trim, split, case, sanitizing, hex ids *)
(* ================================================================== *)

Lemma trim_left_fixed (s : string) :
  starts_nonspace s = true -> utils.trim_left s = s.
Proof.
  destruct s as [|c r]; [discriminate|]. cbn. now destruct (isspace c).
Qed.

Lemma trim_right_fixed (s : string) :
  ends_nonspace s = true -> utils.trim_right s = s.
Proof.
  induction s as [|c r IH]; [discriminate|].
  intros H. rewrite trim_right_cons. destruct r as [|c' r'].
  - cbn in *. apply negb_true_iff in H. now rewrite H.
  - rewrite IH by exact H. reflexivity.
Qed.

Lemma trim_left_starts (s : string) :
  utils.trim_left s = "" \/ starts_nonspace (utils.trim_left s) = true.
Proof.
  induction s as [|c r IH]; [now left|].
  cbn [utils.trim_left]. destruct (isspace c) eqn:E; [exact IH|].
  right. cbn. now rewrite E.
Qed.

Lemma trim_right_ends (s : string) :
  utils.trim_right s = "" \/ ends_nonspace (utils.trim_right s) = true.
Proof.
  induction s as [|c r IH]; [now left|].
  rewrite trim_right_cons.
  destruct (utils.trim_right r) as [|c' r'] eqn:E; cbn [empty andb].
  - destruct (isspace c) eqn:Ec; [now left|]. right. cbn. now rewrite Ec.
  - right. destruct IH as [IH|IH]; [discriminate|]. exact IH.
Qed.

Lemma trim_right_starts (s : string) :
  starts_nonspace s = true -> starts_nonspace (utils.trim_right s) = true.
Proof.
  destruct s as [|c r]; [discriminate|]. cbn [starts_nonspace]. intros H.
  rewrite trim_right_cons. apply negb_true_iff in H. rewrite H, andb_false_r.
  cbn. now rewrite H.
Qed.

Lemma trim_left_blank (s : string) :
  utils.trim_left s = "" <-> forallb_str isspace s = true.
Proof.
  induction s as [|c r IH]; [easy|].
  cbn [utils.trim_left forallb_str]. destruct (isspace c); cbn [andb].
  - exact IH.
  - split; discriminate.
Qed.

(** X1.  [trim] removes exactly the white space around a text: the result is
    empty or begins and ends with a character that is not white space, it is
    empty exactly for a text of white space only, a text without white space
    at its ends is returned as it is, and trimming twice changes nothing. *)
Theorem trim_spec (s : string) :
  (utils.trim s = ""
   \/ (starts_nonspace (utils.trim s) = true /\ ends_nonspace (utils.trim s) = true))
  /\ (utils.trim s = "" <-> forallb_str isspace s = true)
  /\ (starts_nonspace s = true -> ends_nonspace s = true -> utils.trim s = s)
  /\ utils.trim (utils.trim s) = utils.trim s.
Proof.
  assert (Hshape : utils.trim s = ""
            \/ (starts_nonspace (utils.trim s) = true
                /\ ends_nonspace (utils.trim s) = true)).
  { unfold utils.trim. destruct (trim_left_starts s) as [E|E].
    - left. now rewrite E.
    - destruct (trim_right_ends (utils.trim_left s)) as [E'|E']; [now left|].
      right. split; [now apply trim_right_starts | exact E']. }
  assert (Hfix : forall t, starts_nonspace t = true -> ends_nonspace t = true ->
                           utils.trim t = t).
  { intros t H1 H2. unfold utils.trim. now rewrite trim_left_fixed, trim_right_fixed. }
  split; [exact Hshape|]. split; [|split].
  - rewrite <- trim_left_blank. unfold utils.trim. split.
    + intros E. destruct (trim_left_starts s) as [E'|E']; [exact E'|].
      apply trim_right_starts in E'. rewrite E in E'. discriminate.
    + intros ->. reflexivity.
  - apply Hfix.
  - destruct Hshape as [->|[H1 H2]]; [reflexivity | now apply Hfix].
Qed.

Lemma split_nil (s : string) (d : ascii) : utils.split s d = [] -> s = "".
Proof.
  destruct s as [|c r]; [reflexivity|]. cbn [utils.split].
  destruct (c =? d)%char; [discriminate|].
  destruct (utils.split r d); discriminate.
Qed.

Lemma split_tokens_free (s : string) (d : ascii) :
  Forall (fun t => delimiter_free d t = true) (utils.split s d).
Proof.
  induction s as [|c r IH]; [constructor|].
  cbn [utils.split]. destruct (c =? d)%char eqn:E.
  - constructor; [reflexivity | exact IH].
  - destruct (utils.split r d) as [|t ts].
    + repeat constructor. cbn. now rewrite E.
    + inversion IH as [|? ? Ht Hts]; subst. constructor; [|exact Hts].
      unfold delimiter_free in *. cbn. now rewrite E, Ht.
Qed.

Lemma split_join (d : ascii) (tokens : list string) :
  Forall (fun t => delimiter_free d t = true) tokens ->
  utils.split (joinTokens d tokens) d = tokens.
Proof.
  induction 1 as [|t ts Ht _ IH]; [reflexivity|].
  cbn [joinTokens fold_right]. fold (joinTokens d ts).
  induction t as [|c t IHt].
  - cbn [append utils.split]. now rewrite Ascii.eqb_refl, IH.
  - unfold delimiter_free in Ht. cbn [forallb_str] in Ht.
    apply andb_true_iff in Ht. destruct Ht as [Hc Ht]. apply negb_true_iff in Hc.
    cbn [append utils.split]. rewrite Hc, (IHt Ht). reflexivity.
Qed.

Lemma join_split (s : string) (d : ascii) :
  joinTokens d (utils.split s d) = s
  \/ joinTokens d (utils.split s d) = (s ++ String d "")%string.
Proof.
  induction s as [|c r IH]; [now left|].
  cbn [utils.split]. destruct (c =? d)%char eqn:E.
  - apply Ascii.eqb_eq in E. subst c. cbn [joinTokens fold_right append].
    fold (joinTokens d (utils.split r d)).
    destruct IH as [->| ->]; [now left | now right].
  - destruct (utils.split r d) as [|t ts] eqn:Es.
    + apply split_nil in Es. subst r. now right.
    + cbn [joinTokens fold_right append] in *.
      destruct IH as [->| ->]; [now left | now right].
Qed.

(** X2.  [split] cuts a text at the delimiter: no token holds the delimiter;
    writing every token followed by the delimiter gives the text back, with
    one delimiter added at the end unless the text is empty or ends in one;
    and tokens that hold no delimiter, each followed by the delimiter, are
    split into exactly these tokens.  The empty text has no tokens. *)
Theorem split_spec (d : ascii) :
  (forall s, Forall (fun t => delimiter_free d t = true) (utils.split s d))
  /\ (forall s, joinTokens d (utils.split s d) = s
                \/ joinTokens d (utils.split s d) = (s ++ String d "")%string)
  /\ (forall tokens, Forall (fun t => delimiter_free d t = true) tokens ->
                     utils.split (joinTokens d tokens) d = tokens)
  /\ (forall s, utils.split s d = [] <-> s = "").
Proof.
  split; [intros s; apply split_tokens_free|].
  split; [intros s; apply join_split|].
  split; [apply split_join|].
  intros s. split; [apply split_nil | now intros ->].
Qed.

Lemma prefix_iff (p s : string) :
  prefix p s = true <-> exists t, s = (p ++ t)%string.
Proof.
  revert s. induction p as [|c p IH]; intros s.
  - split; [intros _; now exists s | now destruct s].
  - destruct s as [|c' s]; cbn [prefix append].
    + split; [discriminate | intros [t Ht]; discriminate].
    + destruct (ascii_dec c c') as [->|Hne].
      * rewrite IH. split; intros [t Ht]; exists t; congruence.
      * split; [discriminate | intros [t Ht]; congruence].
Qed.

(** X3.  [startsWith] holds exactly when the text is the prefix followed by
    something, [endsWith] exactly when it is something followed by the
    suffix; both accept the empty affix and the text itself. *)
Theorem startsWith_endsWith_spec (str affix : string) :
  (utils.startsWith str affix = true <-> exists t, str = (affix ++ t)%string)
  /\ (utils.endsWith str affix = true <-> exists t, str = (t ++ affix)%string)
  /\ utils.startsWith str "" = true /\ utils.endsWith str "" = true
  /\ utils.startsWith str str = true /\ utils.endsWith str str = true.
Proof.
  assert (Hs : forall a b, utils.startsWith a b = true <-> exists t, a = (b ++ t)%string).
  { intros a b. unfold utils.startsWith. rewrite andb_true_iff, Nat.leb_le, prefix_iff.
    split; [tauto|]. intros [t ->]. split; [|now exists t].
    rewrite length_append. lia. }
  split; [apply Hs|]. split; [apply endsWith_iff|].
  repeat split.
  - apply Hs. now exists str.
  - apply endsWith_iff. exists str. now rewrite append_nil_r.
  - apply Hs. exists "". now rewrite append_nil_r.
  - apply endsWith_iff. now exists "".
Qed.

Lemma transform_length (f : ascii -> ascii) (s : string) :
  String.length (utils.transform f s) = String.length s.
Proof. induction s as [|c r IH]; cbn; congruence. Qed.

Lemma transform_compose (f g h : ascii -> ascii) (s : string) :
  (forall c, f (g c) = h c) ->
  utils.transform f (utils.transform g s) = utils.transform h s.
Proof. intros H. induction s as [|c r IH]; cbn; congruence. Qed.

Lemma tolower_facts (c : ascii) :
  utils.tolower (utils.tolower c) = utils.tolower c
  /\ utils.toupper (utils.toupper c) = utils.toupper c
  /\ utils.tolower (utils.toupper c) = utils.tolower c
  /\ utils.toupper (utils.tolower c) = utils.toupper c
  /\ in_range "A" "Z" (utils.tolower c) = false
  /\ in_range "a" "z" (utils.toupper c) = false.
Proof. destruct c as [[] [] [] [] [] [] [] []]; vm_compute; repeat split. Qed.

(** X4.  [toLower] and [toUpper] keep the length, changing the case twice is
    changing it once, the later conversion wins, and no upper-case letter is
    left by [toLower] and no lower-case letter by [toUpper]. *)
Theorem case_conversion_spec (s : string) :
  String.length (utils.toLower s) = String.length s
  /\ String.length (utils.toUpper s) = String.length s
  /\ utils.toLower (utils.toLower s) = utils.toLower s
  /\ utils.toUpper (utils.toUpper s) = utils.toUpper s
  /\ utils.toLower (utils.toUpper s) = utils.toLower s
  /\ utils.toUpper (utils.toLower s) = utils.toUpper s
  /\ forallb_str (fun c => negb (in_range "A" "Z" c)) (utils.toLower s) = true
  /\ forallb_str (fun c => negb (in_range "a" "z" c)) (utils.toUpper s) = true.
Proof.
  unfold utils.toLower, utils.toUpper.
  repeat split; try apply transform_length;
    try (apply transform_compose; intros c; apply tolower_facts).
  - induction s as [|c r IH]; [reflexivity|]. cbn.
    rewrite IH, andb_true_r. apply negb_true_iff, tolower_facts.
  - induction s as [|c r IH]; [reflexivity|]. cbn.
    rewrite IH, andb_true_r. apply negb_true_iff, tolower_facts.
Qed.

Lemma sanitize_keeps (c : ascii) :
  utils.isalnum c || (c =? "_")%char || (c =? "-")%char = cls_word c.
Proof.
  unfold utils.isalnum, cls_word.
  destruct (in_range "0" "9" c), (in_range "a" "z" c), (in_range "A" "Z" c),
    (c =? "_")%char, (c =? "-")%char; reflexivity.
Qed.

Lemma sanitize_word (s : string) :
  forallb_str cls_word (utils.sanitizeForUdev s) = true.
Proof.
  induction s as [|c r IH]; [reflexivity|].
  cbn [utils.sanitizeForUdev]. rewrite sanitize_keeps.
  destruct (cls_word c) eqn:E; [cbn; now rewrite E|].
  destruct (c =? " ")%char; [exact IH | exact IH].
Qed.

Lemma sanitize_fixed (s : string) :
  forallb_str cls_word s = true -> utils.sanitizeForUdev s = s.
Proof.
  induction s as [|c r IH]; [reflexivity|].
  cbn [forallb_str utils.sanitizeForUdev]. rewrite andb_true_iff. intros [Hc Hr].
  now rewrite sanitize_keeps, Hc, IH.
Qed.

Lemma sanitize_length (s : string) :
  (String.length (utils.sanitizeForUdev s) <= String.length s)%nat.
Proof.
  induction s as [|c r IH]; [reflexivity|].
  cbn [utils.sanitizeForUdev].
  destruct (_ || _); [cbn; lia|]. destruct (c =? " ")%char; cbn; lia.
Qed.

(** X5.  [sanitizeForUdev] returns only letters, digits, underscores and
    hyphens, never more characters than it was given; a text of such
    characters is returned as it is, so sanitizing twice changes nothing.
    The result passes [isValidSymlinkName] exactly when it starts with a
    letter and has at most 64 characters: a product name that starts with a
    digit or holds no usable character gives a default name the validation
    refuses. *)
Theorem sanitizeForUdev_spec (s : string) :
  forallb_str cls_word (utils.sanitizeForUdev s) = true
  /\ (String.length (utils.sanitizeForUdev s) <= String.length s)%nat
  /\ (forallb_str cls_word s = true -> utils.sanitizeForUdev s = s)
  /\ utils.sanitizeForUdev (utils.sanitizeForUdev s) = utils.sanitizeForUdev s
  /\ (utils.isValidSymlinkName (utils.sanitizeForUdev s) = true
      <-> (exists c r, utils.sanitizeForUdev s = String c r /\ cls_alpha c = true)
          /\ (String.length (utils.sanitizeForUdev s) <= 64)%nat).
Proof.
  split; [apply sanitize_word|]. split; [apply sanitize_length|].
  split; [apply sanitize_fixed|]. split; [apply sanitize_fixed, sanitize_word|].
  pose proof (sanitize_word s) as Hw.
  set (t := utils.sanitizeForUdev s) in *. clearbody t.
  unfold utils.isValidSymlinkName.
  destruct (Nat.ltb_spec 64 (String.length t)) as [Hlen|Hlen].
  - rewrite orb_true_r. split; [discriminate | intros [_ H]; lia].
  - rewrite orb_false_r. destruct t as [|c r]; cbn [empty name_regex_match].
    + split; [discriminate | intros [(c & r & H & _) _]; discriminate].
    + cbn [forallb_str] in Hw. apply andb_true_iff in Hw. destruct Hw as [_ Hr].
      rewrite Hr, andb_true_r. split.
      * intros Hc. split; [now exists c, r | exact Hlen].
      * intros [(c' & r' & E & Hc) _]. now injection E as <- <-.
Qed.

Lemma padLoop_length (fuel : nat) (s : string) :
  (4 <= String.length s + fuel)%nat ->
  (4 <= String.length (utils.padLoop fuel s))%nat
  /\ ((String.length s <= 4)%nat -> String.length (utils.padLoop fuel s) = 4%nat).
Proof.
  revert s. induction fuel as [|f IH]; intros s H; cbn [utils.padLoop].
  - split; lia.
  - destruct (Nat.ltb_spec (String.length s) 4) as [Hlt|Hge].
    + destruct (IH (String "0" s)) as [H1 H2]; [cbn; lia|].
      split; [exact H1|]. intros _. apply H2. cbn. lia.
    + split; lia.
Qed.

(** The padding loop of [formatHexId] stops because its condition fails, not
    because the four turns are used up. *)
Lemma padLoop_done (s : string) :
  (String.length (utils.padLoop 4 s) <? 4)%nat = false.
Proof. apply Nat.ltb_ge. apply padLoop_length. lia. Qed.

Lemma padLoop_hex (fuel : nat) (s : string) :
  forallb_str cls_hex s = true -> forallb_str cls_hex (utils.padLoop fuel s) = true.
Proof.
  revert s. induction fuel as [|f IH]; intros s H; cbn [utils.padLoop]; [exact H|].
  destruct (String.length s <? 4)%nat; [|exact H]. apply IH. cbn. exact H.
Qed.

Lemma tolower_hex (c : ascii) : cls_hex c = true -> cls_hex (utils.tolower c) = true.
Proof.
  destruct c as [[] [] [] [] [] [] [] []]; vm_compute; intros H;
    try discriminate H; reflexivity.
Qed.

Lemma toLower_hex (s : string) :
  forallb_str cls_hex s = true -> forallb_str cls_hex (utils.toLower s) = true.
Proof.
  induction s as [|c r IH]; [reflexivity|].
  cbn [forallb_str utils.toLower utils.transform]. rewrite !andb_true_iff.
  intros [Hc Hr]. split; [now apply tolower_hex | now apply IH].
Qed.

Lemma hex_not_x (c : ascii) :
  cls_hex c = true -> (c =? "x")%char || (c =? "X")%char = false.
Proof.
  destruct c as [[] [] [] [] [] [] [] []]; vm_compute; intros H;
    try discriminate H; reflexivity.
Qed.

(** X6.  [formatHexId] never returns fewer than four characters, in
    particular never the empty string, and never an upper-case letter.  An
    id of at most four hexadecimal digits comes back as exactly four
    hexadecimal digits, which is what [parseRuleFile] can read. *)
Theorem formatHexId_spec (id : string) :
  (4 <= String.length (utils.formatHexId id))%nat
  /\ utils.formatHexId id <> ""
  /\ utils.toLower (utils.formatHexId id) = utils.formatHexId id
  /\ (forallb_str cls_hex id = true -> (String.length id <= 4)%nat ->
      String.length (utils.formatHexId id) = 4%nat
      /\ forallb_str cls_hex (utils.formatHexId id) = true).
Proof.
  assert (Hlen : (4 <= String.length (utils.formatHexId id))%nat).
  { unfold utils.formatHexId, utils.toLower. rewrite transform_length.
    apply padLoop_length. lia. }
  split; [exact Hlen|]. split; [|split].
  - intros E. rewrite E in Hlen. cbn in Hlen. lia.
  - unfold utils.formatHexId, utils.toLower.
    apply transform_compose. intros c. apply tolower_facts.
  - intros Hhex Hshort.
    assert (E : utils.formatHexId id = utils.toLower (utils.padLoop 4 id)).
    { unfold utils.formatHexId. destruct id as [|c0 [|c1 rest]]; try reflexivity.
      cbn [forallb_str] in Hhex. apply andb_true_iff in Hhex.
      destruct Hhex as [_ Hhex]. apply andb_true_iff in Hhex.
      destruct Hhex as [H1 _]. rewrite (hex_not_x c1 H1), andb_false_r. reflexivity. }
    rewrite E. split.
    + unfold utils.toLower. rewrite transform_length.
      apply padLoop_length; [lia | exact Hshort].
    + apply toLower_hex, padLoop_hex, Hhex.
Qed.

(** A run of X6's theorem: the vendor id [403] is padded to [0403]. *)
Lemma formatHexId_spec_witness :
  String.length (utils.formatHexId "403") = 4%nat
  /\ forallb_str cls_hex (utils.formatHexId "403") = true.
Proof.
  apply (proj2 (proj2 (proj2 (formatHexId_spec "403")))); [reflexivity | cbn; lia].
Defined.

(* ================================================================== *)
(** ** File names and priorities *)
(* ================================================================== *)

Lemma filePriority_to_string (p : Z) (rest : string) :
  (-9 <= p <= 99)%Z ->
  filePriority (to_string p ++ "-easytty-" ++ rest) = p.
Proof.
  intros Hp.
  replace p with (Z.of_nat (Z.to_nat (p + 9)) - 9)%Z by lia.
  assert (Hn : (Z.to_nat (p + 9) < 109)%nat) by lia.
  revert Hn. generalize (Z.to_nat (p + 9)). intros n Hn.
  do 109 (destruct n as [|n]; [reflexivity|]). lia.
Qed.

Lemma prefix_nil (s : string) : prefix "" s = true.
Proof. now destruct s. Qed.

(** The first character decides whether a one-character text is a prefix. *)
Lemma prefix_char (x c : ascii) (r : string) :
  prefix (String x "") (String c r) = (x =? c)%char.
Proof.
  cbn [prefix]. destruct (ascii_dec x c) as [->|Hne].
  - now rewrite prefix_nil, Ascii.eqb_refl.
  - symmetry. now apply Ascii.eqb_neq.
Qed.

Lemma contains_slash_append (a b : string) :
  contains "/" a = false -> contains "/" b = false -> contains "/" (a ++ b) = false.
Proof.
  intros Ha Hb. induction a as [|c a IH]; [exact Hb|].
  cbn [append]. rewrite contains_cons in *. apply orb_false_iff in Ha.
  destruct Ha as [Hc Ha]. rewrite (IH Ha), orb_false_r.
  rewrite prefix_char in *. exact Hc.
Qed.

Lemma path_filename_plain (f : string) :
  contains "/" f = false -> path_filename f = f.
Proof.
  destruct f as [|c r]; [reflexivity|]. rewrite contains_cons.
  intros H. apply orb_false_iff in H. destruct H as [Hc Hr].
  rewrite prefix_char, Ascii.eqb_sym in Hc.
  cbn [path_filename]. now rewrite Hr, Hc.
Qed.

Lemma path_filename_dir (dir f : string) :
  contains "/" f = false -> path_filename (dir ++ String "/" f) = f.
Proof.
  intros Hf. induction dir as [|c dir IH].
  - cbn [append path_filename]. rewrite Ascii.eqb_refl.
    now apply path_filename_plain.
  - cbn [append path_filename].
    assert (Hc : contains "/" (dir ++ String "/" f) = true)
      by (apply contains_append, contains_prefix; now rewrite prefix_char).
    rewrite Hc. destruct (c =? "/")%char; exact IH.
Qed.

Lemma word_no_slash (n : string) :
  forallb_str cls_word n = true -> contains "/" n = false.
Proof.
  induction n as [|c r IH]; [reflexivity|].
  cbn [forallb_str]. rewrite andb_true_iff. intros [Hc Hr].
  rewrite contains_cons, (IH Hr), orb_false_r, prefix_char.
  destruct (Ascii.eqb_spec "/" c) as [<-|]; [discriminate Hc | reflexivity].
Qed.

Lemma ruleFileName_no_slash (n : string) :
  forallb_str cls_word n = true -> contains "/" (generateRuleFileName n) = false.
Proof.
  intros Hn. unfold generateRuleFileName.
  change (to_string DEFAULT_PRIORITY ++ "-easytty-" ++ n ++ ".rules")%string
    with ("99-easytty-" ++ n ++ ".rules")%string.
  apply contains_slash_append; [reflexivity|].
  apply contains_slash_append; [now apply word_no_slash | reflexivity].
Qed.

(** X7.  The priority read from a file name undoes [UdevRule::getFileName]
    for every priority from -9 to 99, whatever the symlink.  The name
    [createRule] gives its file is the name a rule of priority 99 has; for a
    grammatical symlink it is the last component of the path the file is
    written to, it carries the tool's marker and the rule-file extension, and
    its priority reads back as 99: the files the store writes are the files
    its reload accepts. *)
Theorem getFileName_priority (r : UdevRule.t) (n : string) :
  ((-9 <= UdevRule.priority r <= 99)%Z ->
   filePriority (UdevRule.getFileName r) = UdevRule.priority r)
  /\ (UdevRule.priority r = DEFAULT_PRIORITY ->
      UdevRule.getFileName r = generateRuleFileName (UdevRule.symlink r))
  /\ (utils.isValidSymlinkName n = true ->
      path_filename (RULES_DIR ++ "/" ++ generateRuleFileName n) = generateRuleFileName n
      /\ contains "easytty" (generateRuleFileName n) = true
      /\ utils.endsWith (generateRuleFileName n) ".rules" = true
      /\ filePriority (generateRuleFileName n) = 99%Z).
Proof.
  split; [|split].
  - intros Hp. unfold UdevRule.getFileName. now apply filePriority_to_string.
  - intros Hp. unfold UdevRule.getFileName, generateRuleFileName. now rewrite Hp.
  - intros Hn. destruct (valid_name_word n Hn) as [_ Hw].
    split; [|split; [|split]].
    + apply (path_filename_dir RULES_DIR). now apply ruleFileName_no_slash.
    + unfold generateRuleFileName.
      change (to_string DEFAULT_PRIORITY ++ "-easytty-" ++ n ++ ".rules")%string
        with ("99-" ++ "easytty" ++ "-" ++ n ++ ".rules")%string.
      apply contains_append, contains_prefix, prefix_append.
    + apply endsWith_iff. exists ("99-easytty-" ++ n)%string.
      unfold generateRuleFileName. now rewrite !append_assoc.
    + unfold generateRuleFileName. now apply filePriority_to_string.
Qed.

(** A run of X7's theorem. *)
Lemma getFileName_priority_witness :
  filePriority (UdevRule.getFileName Sim.rule_RS485_1) = 99%Z
  /\ path_filename (RULES_DIR ++ "/" ++ generateRuleFileName "RS485_1")
     = generateRuleFileName "RS485_1".
Proof.
  split.
  - apply (proj1 (getFileName_priority Sim.rule_RS485_1 "RS485_1")). cbn. lia.
  - apply (proj2 (proj2 (getFileName_priority Sim.rule_RS485_1 "RS485_1"))).
    reflexivity.
Defined.

(* ================================================================== *)
(** ** Reading back what was written *)
(* ================================================================== *)

Lemma fold_parseLine_passedOver (ls : list string) (rule : UdevRule.t) :
  Forall passedOver ls -> fieldsOf (fold_left parseLine ls rule) = fieldsOf rule.
Proof.
  intros H. revert rule. induction H as [|l ls Hl _ IH]; intros rule; [reflexivity|].
  cbn [fold_left]. rewrite IH. destruct Hl as [->|[t ->]].
  - apply parseLine_empty.
  - apply parseLine_comment.
Qed.

Lemma parseLine_flags (rule : UdevRule.t) (line : string) :
  UdevRule.isActive (parseLine rule line) = UdevRule.isActive rule
  /\ UdevRule.interfaceNum (parseLine rule line) = UdevRule.interfaceNum rule.
Proof.
  unfold parseLine.
  destruct (contains "# Device:" line); destruct line as [|c l];
    try (split; reflexivity);
    destruct (c =? "#")%char; try (split; reflexivity);
    destruct (regex_search vendorRegex _); destruct (regex_search productRegex _);
    destruct (regex_search serialRegex _); destruct (regex_search symlinkRegex _);
    split; reflexivity.
Qed.

Lemma fold_parseLine_flags (lines : list string) (rule : UdevRule.t) :
  UdevRule.isActive (fold_left parseLine lines rule) = UdevRule.isActive rule
  /\ UdevRule.interfaceNum (fold_left parseLine lines rule) = UdevRule.interfaceNum rule.
Proof.
  revert rule. induction lines as [|l ls IH]; intros rule; cbn [fold_left].
  - split; reflexivity.
  - destruct (IH (parseLine rule l)) as [H1 H2].
    destruct (parseLine_flags rule l) as [H3 H4]. split; congruence.
Qed.

(** Every record [parseRuleFile] returns is marked active and has no
    interface number. *)
Lemma parseRuleText_flags (filePath text : string) (r : UdevRule.t) :
  parseRuleText filePath text = Some r ->
  UdevRule.isActive r = true /\ UdevRule.interfaceNum r = "".
Proof.
  unfold parseRuleText.
  match goal with |- context [fold_left parseLine ?ls ?r0] =>
    destruct (fold_parseLine_flags ls r0) as [Ha Hi];
    set (rule := fold_left parseLine ls r0) in *
  end.
  cbn in Ha, Hi. clearbody rule.
  destruct (empty (UdevRule.vendorId rule) || empty (UdevRule.symlink rule));
    [discriminate|].
  destruct (empty (UdevRule.name rule)); intros E; injection E as <-;
    cbn; now split.
Qed.

(** Text whose lines are comments and empty lines followed by one rendered
    rule line parses into a record with the rendered values. *)
Lemma parse_after_comments (filePath text : string) (pre : list string)
    (v p s n : string) :
  getlines text = pre ++ [lineOf v p s n] ->
  Forall passedOver pre ->
  forallb_str cls_hex v = true -> forallb_str cls_hex p = true ->
  forallb_str cls_notquote s = true -> utils.endsWith s "SYMLINK+=" = false ->
  forallb_str cls_word n = true -> v <> "" -> n <> "" ->
  exists r, parseRuleText filePath text = Some r /\ fieldsOf r = (v, p, s, n).
Proof.
  intros Hlines Hpre Hv Hp Hs Hend Hn Hv0 Hn0.
  unfold parseRuleText. rewrite Hlines, fold_left_app. cbn [fold_left].
  match goal with |- context [fold_left parseLine pre ?r0] =>
    pose proof (fold_parseLine_passedOver pre r0 Hpre) as Hhead;
    set (rule1 := fold_left parseLine pre r0) in *
  end.
  clearbody rule1. cbn in Hhead.
  pose proof (parseLine_lineOf rule1 v p s n Hv Hp Hs Hend Hn Hv0 Hn0) as Hline.
  set (rule2 := parseLine rule1 (lineOf v p s n)) in *. clearbody rule2.
  unfold fieldsOf in Hhead, Hline.
  injection Hhead as _ Hp1 Hs1 _. injection Hline as Hv2 Hp2 Hs2 Hn2.
  assert (Hp2' : UdevRule.productId rule2 = p)
    by (rewrite Hp2; destruct p; congruence).
  assert (Hs2' : UdevRule.serial rule2 = s)
    by (rewrite Hs2; destruct s; congruence).
  rewrite Hv2, Hn2.
  destruct v as [|a v']; [congruence|]. destruct n as [|b n']; [congruence|].
  cbn [empty orb].
  destruct (empty (UdevRule.name rule2)); eexists; (split; [reflexivity|]);
    unfold fieldsOf; cbn; congruence.
Qed.

Lemma getlines_last (a : string) :
  single_line a = true -> a <> "" -> getlines a = [a].
Proof.
  unfold single_line. induction a as [|c r IH]; [congruence|]. intros Ha _.
  cbn [forallb_str] in Ha. apply andb_true_iff in Ha. destruct Ha as [Hc Hr].
  apply negb_true_iff in Hc. cbn [getlines]. rewrite Hc.
  destruct r as [|c' r']; [reflexivity|]. rewrite IH; [reflexivity | exact Hr | discriminate].
Qed.

(** The same text as C3's theorem is about, with more of the record. *)
Lemma render_then_parse (filePath created : string) (d : DeviceInfo.t) (n : string) :
  DeviceInfo.isValid d = true ->
  utils.isValidSymlinkName n = true ->
  forallb_str cls_hex (DeviceInfo.vendorId d) = true ->
  forallb_str cls_hex (DeviceInfo.productId d) = true ->
  quotable (DeviceInfo.serial d) = true ->
  utils.endsWith (DeviceInfo.serial d) "SYMLINK+=" = false ->
  comments_single_line created d = true ->
  exists r,
    parseRuleText filePath (ruleContent created d n) = Some r
    /\ fieldsOf r
       = (DeviceInfo.vendorId d, DeviceInfo.productId d, DeviceInfo.serial d, n).
Proof.
  intros Hvalid Hname Hv Hp Hq Hend Hcom.
  apply isValid_iff in Hvalid. destruct Hvalid as [_ Hv0].
  destruct (valid_name_word n Hname) as [Hn0 Hn].
  pose proof (quotable_notquote _ Hq) as Hs.
  apply (parse_after_comments filePath _ (headerLines created d ++ [""]));
    try assumption.
  - rewrite ruleContent_unlines, getlines_unlines.
    + rewrite <- app_assoc, ruleLine_lineOf. reflexivity.
    + apply Forall_app. split.
      * apply headerLines_single_line;
          auto using hex_single_line, quotable_single_line.
      * repeat constructor. rewrite ruleLine_lineOf.
        apply lineOf_single_line;
          auto using hex_single_line, quotable_single_line, word_single_line.
  - apply Forall_app. split.
    + eapply Forall_impl; [|apply headerLines_comments]. intros l Hl. now right.
    + constructor; [now left | constructor].
Qed.

Lemma generateRule_lines (r : UdevRule.t) :
  UdevRule.generateRule r
  = (("# EasyTTY auto-generated rule for " ++ UdevRule.name r) ++ NL
     ++ "# Created by easyTTY - USB device persistent naming" ++ NL
     ++ lineOf (UdevRule.vendorId r) (UdevRule.productId r) (UdevRule.serial r)
          (UdevRule.symlink r))%string.
Proof.
  unfold UdevRule.generateRule, lineOf, serialPart, symlinkPart.
  destruct (UdevRule.serial r); cbn [empty negb];
    rewrite ?append_assoc; reflexivity.
Qed.

Lemma to_string_no_slash (p : Z) :
  (-9 <= p <= 99)%Z -> contains "/" (to_string p) = false.
Proof.
  intros Hp.
  replace p with (Z.of_nat (Z.to_nat (p + 9)) - 9)%Z by lia.
  assert (Hn : (Z.to_nat (p + 9) < 109)%nat) by lia.
  revert Hn. generalize (Z.to_nat (p + 9)). intros n Hn.
  do 109 (destruct n as [|n]; [reflexivity|]). lia.
Qed.

(** X8.  What [UdevRule::generateRule] writes, [parseRuleFile] reads back:
    for a rule whose vendor id is a non-empty run of hexadecimal digits,
    whose product id is a run of hexadecimal digits, whose serial holds no
    double quote and no line feed and does not end in [SYMLINK+=], whose
    symlink is a grammatical name and whose name holds no line feed, the
    text parses into a record with the same vendor id, product id, serial and
    symlink, marked active.  Stored under [getFileName] in the rule directory
    with a priority from -9 to 99, it is read back with the same priority. *)
Theorem generateRule_roundtrip (r : UdevRule.t) (filePath : string) :
  UdevRule.vendorId r <> "" ->
  forallb_str cls_hex (UdevRule.vendorId r) = true ->
  forallb_str cls_hex (UdevRule.productId r) = true ->
  quotable (UdevRule.serial r) = true ->
  utils.endsWith (UdevRule.serial r) "SYMLINK+=" = false ->
  utils.isValidSymlinkName (UdevRule.symlink r) = true ->
  single_line (UdevRule.name r) = true ->
  exists r',
    parseRuleText filePath (UdevRule.generateRule r) = Some r'
    /\ UdevRule.vendorId r' = UdevRule.vendorId r
    /\ UdevRule.productId r' = UdevRule.productId r
    /\ UdevRule.serial r' = UdevRule.serial r
    /\ UdevRule.symlink r' = UdevRule.symlink r
    /\ UdevRule.filePath r' = filePath
    /\ UdevRule.isActive r' = true
    /\ (filePath = (RULES_DIR ++ "/" ++ UdevRule.getFileName r)%string ->
        (-9 <= UdevRule.priority r <= 99)%Z ->
        UdevRule.priority r' = UdevRule.priority r).
Proof.
  intros Hv0 Hv Hp Hq Hend Hname Hnm.
  destruct (valid_name_word _ Hname) as [Hn0 Hn].
  pose proof (quotable_notquote _ Hq) as Hs.
  destruct (parse_after_comments filePath (UdevRule.generateRule r)
              [("# EasyTTY auto-generated rule for " ++ UdevRule.name r)%string;
               "# Created by easyTTY - USB device persistent naming"]
              (UdevRule.vendorId r) (UdevRule.productId r) (UdevRule.serial r)
              (UdevRule.symlink r)) as (r' & Hparse & Hfields); try assumption.
  - rewrite generateRule_lines.
    rewrite getlines_line by (single_line_pieces).
    rewrite getlines_line by reflexivity.
    rewrite getlines_last; [reflexivity | | ].
    + apply lineOf_single_line;
        auto using hex_single_line, quotable_single_line, word_single_line.
    + discriminate.
  - constructor; [right; eexists; reflexivity|].
    constructor; [right; eexists; reflexivity | constructor].
  - exists r'. unfold fieldsOf in Hfields. injection Hfields as E1 E2 E3 E4.
    destruct (parseRuleText_some _ _ _ Hparse) as (Hf & Hprio & _).
    destruct (parseRuleText_flags _ _ _ Hparse) as [Hact _].
    repeat (split; [assumption|]).
    intros -> Hrange. rewrite Hprio.
    change (RULES_DIR ++ "/" ++ UdevRule.getFileName r)%string
      with (RULES_DIR ++ String "/" (UdevRule.getFileName r))%string.
    rewrite path_filename_dir.
    + unfold UdevRule.getFileName. now apply filePriority_to_string.
    + unfold UdevRule.getFileName.
      apply contains_slash_append; [now apply to_string_no_slash|].
      apply contains_slash_append; [reflexivity|].
      apply contains_slash_append; [now apply word_no_slash | reflexivity].
Qed.

(** A run of X8's theorem on the record of the scenario. *)
Lemma generateRule_roundtrip_witness :
  exists r',
    parseRuleText "/etc/udev/rules.d/99-easytty-RS485_1.rules"
      (UdevRule.generateRule Sim.rule_RS485_1) = Some r'
    /\ UdevRule.vendorId r' = "0403"
    /\ UdevRule.productId r' = "6001"
    /\ UdevRule.serial r' = "A50285BI"
    /\ UdevRule.symlink r' = "RS485_1"
    /\ UdevRule.filePath r' = "/etc/udev/rules.d/99-easytty-RS485_1.rules"
    /\ UdevRule.isActive r' = true
    /\ UdevRule.priority r' = 99%Z.
Proof.
  destruct (generateRule_roundtrip Sim.rule_RS485_1
              "/etc/udev/rules.d/99-easytty-RS485_1.rules")
    as (r' & H1 & H2 & H3 & H4 & H5 & H6 & H7 & H8);
    try (vm_compute; reflexivity); [discriminate|].
  exists r'. repeat (split; [assumption|]).
  apply H8; [reflexivity | cbn; lia].
Defined.

(** X9.  The rule the store renders for a device is a rule for that device:
    under the conditions of the round trip, the record parsed from the
    rendered text matches the device under [matchesDevice] and passes the
    test of [ruleExists] and [createRule], and its symlink is the chosen
    name. *)
Theorem rendered_rule_matches (filePath created : string) (d : DeviceInfo.t)
    (n : string) :
  DeviceInfo.isValid d = true ->
  utils.isValidSymlinkName n = true ->
  forallb_str cls_hex (DeviceInfo.vendorId d) = true ->
  forallb_str cls_hex (DeviceInfo.productId d) = true ->
  quotable (DeviceInfo.serial d) = true ->
  utils.endsWith (DeviceInfo.serial d) "SYMLINK+=" = false ->
  comments_single_line created d = true ->
  exists r,
    parseRuleText filePath (ruleContent created d n) = Some r
    /\ UdevRule.matchesDevice r d = true
    /\ sameDeviceTest d r = true
    /\ ruleExists [r] d = true
    /\ symlinkExists [r] n = true.
Proof.
  intros Hvalid Hname Hv Hp Hq Hend Hcom.
  destruct (render_then_parse filePath created d n Hvalid Hname Hv Hp Hq Hend Hcom)
    as (r & Hparse & Hfields).
  exists r. split; [exact Hparse|].
  unfold fieldsOf in Hfields. injection Hfields as E1 E2 E3 E4.
  assert (Hm : UdevRule.matchesDevice r d = true).
  { apply matchesDevice_iff. unfold spec_matches. rewrite E1, E2, E3.
    repeat split; congruence. }
  assert (Ht : sameDeviceTest d r = true) by now apply matchesDevice_sameDeviceTest.
  repeat split; try assumption.
  - cbn. now rewrite Ht.
  - cbn. rewrite E4, String.eqb_refl. reflexivity.
Qed.

(** A run of X9's theorem. *)
Lemma rendered_rule_matches_witness :
  exists r,
    parseRuleText "/etc/udev/rules.d/99-easytty-RS485_1.rules"
      (ruleContent "Tue Nov  3 06:26:00 UTC 2026" Sim.ftdi "RS485_1") = Some r
    /\ UdevRule.matchesDevice r Sim.ftdi = true
    /\ sameDeviceTest Sim.ftdi r = true
    /\ ruleExists [r] Sim.ftdi = true
    /\ symlinkExists [r] "RS485_1" = true.
Proof.
  apply (rendered_rule_matches "/etc/udev/rules.d/99-easytty-RS485_1.rules"
           "Tue Nov  3 06:26:00 UTC 2026" Sim.ftdi "RS485_1");
    vm_compute; reflexivity.
Defined.

(* ================================================================== *)
(** ** More invariants of the cache *)
(* ================================================================== *)

Lemma ascii_compare_refl (c : ascii) : Ascii.compare c c = Eq.
Proof. apply N.compare_refl. Qed.

Lemma string_compare_trans (a b c : string) :
  String.compare a b <> Gt -> String.compare b c <> Gt -> String.compare a c <> Gt.
Proof.
  revert b c. induction a as [|x a IH]; intros [|y b] [|z c]; cbn; try congruence.
  destruct (Ascii.compare x y) eqn:Exy; destruct (Ascii.compare y z) eqn:Eyz;
    try congruence.
  - apply Ascii.compare_eq_iff in Exy, Eyz. subst. rewrite ascii_compare_refl.
    apply IH.
  - apply Ascii.compare_eq_iff in Exy. subst. rewrite Eyz. congruence.
  - apply Ascii.compare_eq_iff in Eyz. subst. rewrite Exy. congruence.
  - unfold Ascii.compare in *. rewrite N.compare_lt_iff in Exy, Eyz.
    assert (E : (N_of_ascii x ?= N_of_ascii z)%N = Lt)
      by (apply N.compare_lt_iff; lia).
    rewrite E. congruence.
Qed.

Lemma string_leb_trans (a b c : string) :
  String.leb a b = true -> String.leb b c = true -> String.leb a c = true.
Proof.
  unfold String.leb. intros H1 H2.
  pose proof (string_compare_trans a b c) as H.
  destruct (String.compare a b); destruct (String.compare b c);
    destruct (String.compare a c); try discriminate; try reflexivity;
    exfalso; apply H; congruence.
Qed.

Lemma ltb_true_leb (a b : string) : String.ltb a b = true -> String.leb a b = true.
Proof. unfold String.ltb, String.leb. now destruct (String.compare a b). Qed.

Lemma ltb_false_leb (a b : string) : String.ltb a b = false -> String.leb b a = true.
Proof.
  unfold String.ltb, String.leb. rewrite (String.compare_antisym b a).
  now destruct (String.compare a b).
Qed.

Lemma insert_by_symlink_sorted (r : UdevRule.t) (l : list UdevRule.t) :
  StronglySorted symlink_le l -> StronglySorted symlink_le (insert_by_symlink r l).
Proof.
  induction 1 as [|x xs Hs IH Hx]; cbn [insert_by_symlink].
  - constructor; constructor.
  - destruct (String.ltb (UdevRule.symlink r) (UdevRule.symlink x)) eqn:E.
    + apply ltb_true_leb in E. constructor; [now constructor|].
      constructor; [exact E|].
      eapply Forall_impl; [|exact Hx]. intros y Hy. unfold symlink_le in *.
      eapply string_leb_trans; eassumption.
    + apply ltb_false_leb in E. constructor; [exact IH|].
      apply (Permutation_Forall (Permutation_sym (insert_by_symlink_perm r xs))).
      now constructor.
Qed.

Lemma sort_by_symlink_sorted (l : list UdevRule.t) :
  StronglySorted symlink_le (sort_by_symlink l).
Proof.
  unfold sort_by_symlink.
  enough (H : forall sorted,
             StronglySorted symlink_le sorted ->
             StronglySorted symlink_le
               (fold_left (fun sorted r => insert_by_symlink r sorted) l sorted))
    by (apply H; constructor).
  induction l as [|x xs IH]; intros sorted Hs; cbn [fold_left]; [exact Hs|].
  apply IH. now apply insert_by_symlink_sorted.
Qed.

Lemma substring_short (f : string) : (String.length (substring 0 2 f) <= 2)%nat.
Proof.
  destruct f as [|a [|b r]]; cbn; try lia.
  destruct r; cbn; lia.
Qed.

Lemma isdigit_bounds (a : ascii) : isdigit a = true -> (0 <= digit_val a <= 9)%Z.
Proof. intros H. now apply isdigit_facts in H. Qed.

(** [std::stoi] on at most two characters stays between -9 and 99. *)
Lemma stoi_short (s : string) :
  (String.length s <= 2)%nat ->
  match stoi s with Some v => (-9 <= v <= 99)%Z | None => True end.
Proof.
  intros Hlen. destruct s as [|a [|b [|c r]]]; [exact I | | | cbn in Hlen; lia].
  - unfold stoi. cbn [skip_space].
    destruct (isspace a); [exact I|].
    destruct (a =? "-")%char; [exact I|]. destruct (a =? "+")%char; [exact I|].
    destruct (isdigit a) eqn:Ha; [|exact I]. cbn [digits_val]. rewrite Ha.
    pose proof (isdigit_bounds a Ha). destruct (andb _ _); [lia | exact I].
  - unfold stoi. cbn [skip_space].
    destruct (isspace a).
    + destruct (isspace b); [exact I|].
      destruct (b =? "-")%char; [exact I|]. destruct (b =? "+")%char; [exact I|].
      destruct (isdigit b) eqn:Hb; [|exact I]. cbn [digits_val]. rewrite Hb.
      pose proof (isdigit_bounds b Hb). destruct (andb _ _); [lia | exact I].
    + destruct (a =? "-")%char; [|destruct (a =? "+")%char].
      * destruct (isdigit b) eqn:Hb; [|exact I]. cbn [digits_val]. rewrite Hb.
        pose proof (isdigit_bounds b Hb). destruct (andb _ _); [lia | exact I].
      * destruct (isdigit b) eqn:Hb; [|exact I]. cbn [digits_val]. rewrite Hb.
        pose proof (isdigit_bounds b Hb). destruct (andb _ _); [lia | exact I].
      * destruct (isdigit a) eqn:Ha; [|exact I]. cbn [digits_val]. rewrite Ha.
        pose proof (isdigit_bounds a Ha).
        destruct (isdigit b) eqn:Hb.
        -- pose proof (isdigit_bounds b Hb). destruct (andb _ _); [lia | exact I].
        -- destruct (andb _ _); [lia | exact I].
Qed.

Lemma filePriority_bounds (f : string) : (-9 <= filePriority f <= 99)%Z.
Proof.
  unfold filePriority. pose proof (stoi_short _ (substring_short f)) as H.
  destruct (stoi (substring 0 2 f)); [exact H | unfold DEFAULT_PRIORITY; lia].
Qed.

Section CacheInvariants.

Context {W : Type} {OS : OsOps W}.

(** Whatever holds of every reloaded cache holds of every reachable one. *)
Lemma reachable_cache (P : list UdevRule.t -> Prop) :
  (forall m : Machine W, P (rules_ (snd (loadExistingRules m)))) ->
  forall m : Machine W, Reachable m -> P (rules_ m).
Proof.
  intros HP m Hm. induction Hm as
    [w | m d n Hm IH | m n Hm IH | m p Hm IH | m Hm IH
     | m Hm IH | m Hm IH | m Hm IH | m w' Hm IH].
  - apply HP.
  - destruct (createRule_cache d n m) as [->|[_ [m' ->]]]; [assumption | apply HP].
  - destruct (deleteRule_cache n m) as [[_ ->]|[_ [m' ->]]]; [assumption | apply HP].
  - destruct (deleteRuleFile_cache p m) as [[_ ->]|[_ [m' ->]]];
      [assumption | apply HP].
  - apply HP.
  - now rewrite reloadRules_rules.
  - now rewrite triggerRules_rules.
  - now rewrite applyRules_rules.
  - exact IH.
Qed.

(** X10.  In every state a [UdevManager] can reach, the cache is sorted by
    symlink: no record comes after one with a greater symlink.  The list
    [getRules] returns is the cache, so it is sorted as well. *)
Theorem cache_sorted (m : Machine W) :
  Reachable m ->
  StronglySorted symlink_le (rules_ m)
  /\ StronglySorted symlink_le (fst (getRules m)).
Proof.
  intros Hm.
  assert (H : StronglySorted symlink_le (rules_ m)).
  { revert m Hm. apply reachable_cache. intros m. rewrite loadExistingRules_run.
    cbn [snd rules_]. destruct (os_exists (world m) RULES_DIR).
    - apply sort_by_symlink_sorted.
    - constructor. }
  split; exact H.
Qed.

(** X11.  In every state a [UdevManager] can reach, every cached record is
    marked active, has no interface number, lies in a file whose name holds
    [easytty] and ends in [.rules], and has a priority from -9 to 99. *)
Theorem cache_records_wellFormed (m : Machine W) :
  Reachable m -> Forall wellFormed (rules_ m).
Proof.
  revert m. apply reachable_cache. intros m. apply Forall_forall. intros r Hin.
  destruct (loadExistingRules_in m r Hin) as (e & _ & _ & Hc & He & text & _ & Hp).
  destruct (parseRuleText_some _ _ _ Hp) as (Hf & Hprio & _).
  destruct (parseRuleText_flags _ _ _ Hp) as [Ha Hi].
  unfold wellFormed. rewrite Hf, Hprio. repeat split; try assumption;
    apply filePriority_bounds.
Qed.

End CacheInvariants.

(** A run of X10's theorem on a cache of two rules: [RS485_1] was created
    first and its file comes first in the directory, and the cache lists
    [GPS] before it. *)
Lemma cache_sorted_witness :
  StronglySorted symlink_le (rules_ Sim.two_rules)
  /\ map UdevRule.symlink (rules_ Sim.two_rules) = ["GPS"; "RS485_1"]
  /\ map de_path (os_listDir (world Sim.two_rules) RULES_DIR)
     = ["/etc/udev/rules.d/99-easytty-RS485_1.rules";
        "/etc/udev/rules.d/99-easytty-GPS.rules"].
Proof.
  split; [|split; vm_compute; reflexivity].
  apply (cache_sorted Sim.two_rules).
  unfold Sim.two_rules, Sim.one_rule. apply reach_createRule, reach_createRule, reach_new.
Defined.

(** Rules with one symlink stay in the order of the directory, and
    [deleteRule] by that symlink removes the file of the first. *)
Example equal_symlinks_keep_directory_order :
  map UdevRule.filePath (rules_ (UdevManager Sim.twins))
  = ["/etc/udev/rules.d/99-easytty-x.rules"; "/etc/udev/rules.d/98-easytty-x.rules"]
  /\ trace (snd (deleteRule "x" (UdevManager Sim.twins)))
     = [EvRemove "/etc/udev/rules.d/99-easytty-x.rules"].
Proof. split; vm_compute; reflexivity. Qed.

(** A run of X11's theorem. *)
Lemma cache_records_wellFormed_witness : Forall wellFormed (rules_ Sim.one_rule).
Proof.
  apply (cache_records_wellFormed Sim.one_rule).
  unfold Sim.one_rule. apply reach_createRule, reach_new.
Defined.

(* ================================================================== *)
(** ** What the store asks of the system, and when *)
(* ================================================================== *)

Lemma find_existsb {A} (f : A -> bool) (l : list A) :
  List.find f l = None <-> existsb f l = false.
Proof.
  induction l as [|x xs IH]; cbn; [tauto|].
  destruct (f x); cbn; [split; discriminate | exact IH].
Qed.

Section SystemCalls.

Context {W : Type} {OS : OsOps W}.

Lemma writeRuleFile_trace (filePath content : string) (m : Machine W) :
  trace (snd (writeRuleFile filePath content m))
  = trace m ++ [if os_isRoot (world m) then EvOfstream filePath content
                else EvSystem (teeCommand filePath content)].
Proof.
  unfold writeRuleFile, isRoot, bind, observe, perform, ret, teeCommand.
  destruct (os_isRoot (world m)).
  - destruct (os_ofstream (world m) filePath content); reflexivity.
  - destruct (os_system (world m) _) as [r w']. destruct (r =? 0)%Z; reflexivity.
Qed.

Lemma createRule_rejected (d : DeviceInfo.t) (n : string) (m : Machine W) :
  createChecks (rules_ m) d n = false ->
  snd (createRule d n m) = m /\ success (fst (createRule d n m)) = false.
Proof.
  unfold createChecks, createRule, ruleExists.
  destruct (utils.isValidSymlinkName n); cbn [andb negb]; [|now split].
  destruct (DeviceInfo.isValid d); cbn [andb negb]; [|now split].
  unfold bind, getRules.
  destruct (symlinkExists (rules_ m) n); cbn [andb negb]; [now split|].
  intros H. apply negb_false_iff in H.
  destruct (List.find (sameDeviceTest d) (rules_ m)) eqn:Ef; [now split|].
  apply find_existsb in Ef. congruence.
Qed.

(** X12.  [createRule] touches the system only after all four checks have
    passed (grammatical name, valid device, name not in use, device not
    bound): if one fails, the call fails and the machine is handed back as
    it was.  If all pass, it makes two calls and no more: [date] through
    [popen], and one write of the rendered text to
    [/etc/udev/rules.d/99-easytty-<name>.rules], directly when the user is
    root and through [sudo tee] otherwise.  It never removes a file. *)
Theorem createRule_system_calls (d : DeviceInfo.t) (n : string) (m : Machine W) :
  (createChecks (rules_ m) d n = false ->
   snd (createRule d n m) = m /\ success (fst (createRule d n m)) = false)
  /\ (createChecks (rules_ m) d n = true ->
      let created := fst (executeCommand "date" m) in
      let m1 := snd (executeCommand "date" m) in
      let filePath := (RULES_DIR ++ "/99-easytty-" ++ n ++ ".rules")%string in
      let content := ruleContent created d n in
      trace (snd (createRule d n m))
      = trace m ++ [EvPopen "date";
                    if os_isRoot (world m1) then EvOfstream filePath content
                    else EvSystem (teeCommand filePath content)]).
Proof.
  split; [apply createRule_rejected|].
  intros H created m1 filePath content.
  unfold createChecks in H. rewrite !andb_true_iff, !negb_true_iff in H.
  destruct H as [[[Hn Hd] Hs] He].
  rewrite (createRule_checked d n m Hd Hn Hs).
  unfold ruleExists in He. apply find_existsb in He. rewrite He.
  rewrite generateRuleContent_run. fold created m1 content.
  change (RULES_DIR ++ "/" ++ generateRuleFileName n)%string with filePath.
  pose proof (writeRuleFile_trace filePath content m1) as Hw.
  destruct (writeRuleFile filePath content m1) as [result m2]. cbn [snd] in Hw.
  assert (Ht : trace m1 = trace m ++ [EvPopen "date"])
    by (unfold m1; rewrite executeCommand_run; reflexivity).
  rewrite Ht, <- app_assoc in Hw. cbn [app] in Hw.
  destruct (success result); cbn [snd]; [|exact Hw].
  rewrite loadExistingRules_run. exact Hw.
Qed.

Lemma removeRuleFile_trace (p : string) (m : Machine W) :
  trace (snd (removeRuleFile p m))
  = if os_exists (world m) p
    then trace m ++ [if os_isRoot (world m) then EvRemove p
                     else EvPopen (rmCommand p)]
    else trace m.
Proof.
  unfold removeRuleFile, isRoot, bind, observe, perform, ret, rmCommand.
  destruct (os_exists (world m) p); cbn [negb]; [|reflexivity].
  destruct (os_isRoot (world m)).
  - destruct (os_remove (world m) p) as [what|w']; reflexivity.
  - rewrite executeCommand_run. cbn [world].
    destruct (os_exists _ p); reflexivity.
Qed.

Lemma removeRuleFile_run (p : string) (m : Machine W) :
  removeRuleFile p m
  = if os_exists (world m) p then
      if os_isRoot (world m) then
        match os_remove (world m) p with
        | inl what => (Failure ("Failed to delete rule: " ++ what),
                       mkMachine (rules_ m) (world m) (trace m ++ [EvRemove p]))
        | inr w' => (Success "Rule deleted successfully",
                     mkMachine (rules_ m) w' (trace m ++ [EvRemove p]))
        end
      else
        let w' := snd (os_popen (world m) (rmCommand p)) in
        (if os_exists w' p
         then Failure "Failed to delete rule file (sudo required)"
         else Success "Rule deleted successfully",
         mkMachine (rules_ m) w' (trace m ++ [EvPopen (rmCommand p)]))
    else (Failure ("Rule file does not exist: " ++ p), m).
Proof.
  unfold removeRuleFile, isRoot, bind, observe, perform, ret.
  destruct (os_exists (world m) p); cbn [negb]; [|reflexivity].
  destruct (os_isRoot (world m)).
  - destruct (os_remove (world m) p) as [what|w']; reflexivity.
  - fold (rmCommand p). rewrite executeCommand_run. cbn [world].
    destruct (os_exists _ p); reflexivity.
Qed.

(** X13.  [removeRuleFile] on a path that does not exist fails without a
    call to the system.  For an existing file and a user who is not root it
    runs [sudo rm -f] and then looks again: it succeeds exactly when the file
    is gone afterwards, whatever the command printed.  For root it calls
    [fs::remove] once and fails only when that throws. *)
Theorem removeRuleFile_outcomes (p : string) (m : Machine W) :
  (os_exists (world m) p = false ->
   removeRuleFile p m = (Failure ("Rule file does not exist: " ++ p), m))
  /\ (os_exists (world m) p = true -> os_isRoot (world m) = false ->
      trace (snd (removeRuleFile p m)) = trace m ++ [EvPopen (rmCommand p)]
      /\ world (snd (removeRuleFile p m)) = snd (os_popen (world m) (rmCommand p))
      /\ success (fst (removeRuleFile p m))
         = negb (os_exists (world (snd (removeRuleFile p m))) p))
  /\ (os_exists (world m) p = true -> os_isRoot (world m) = true ->
      trace (snd (removeRuleFile p m)) = trace m ++ [EvRemove p]
      /\ match os_remove (world m) p with
         | inr w' => fst (removeRuleFile p m) = Success "Rule deleted successfully"
                     /\ world (snd (removeRuleFile p m)) = w'
         | inl what => fst (removeRuleFile p m)
                       = Failure ("Failed to delete rule: " ++ what)
                       /\ world (snd (removeRuleFile p m)) = world m
         end).
Proof.
  rewrite removeRuleFile_run. split; [|split].
  - intros He. now rewrite He.
  - intros He Hr. rewrite He, Hr. cbn [fst snd trace world].
    split; [reflexivity|]. split; [reflexivity|].
    destruct (os_exists (snd (os_popen (world m) (rmCommand p))) p); reflexivity.
  - intros He Hr. rewrite He, Hr.
    destruct (os_remove (world m) p) as [what|w']; cbn [fst snd trace world];
      repeat split.
Qed.

Lemma deleteRuleFile_trace (p : string) (m : Machine W) :
  trace (snd (deleteRuleFile p m)) = trace (snd (removeRuleFile p m)).
Proof.
  unfold deleteRuleFile, bind.
  destruct (removeRuleFile p m) as [result m1]. cbn [snd].
  destruct (success result); [|reflexivity].
  rewrite loadExistingRules_run. reflexivity.
Qed.

(** X14.  [deleteRule] with a name that is neither the symlink nor the name
    of a cached rule fails with "Rule not found" and leaves the machine as it
    was.  Otherwise it is [deleteRuleFile] on the file of the first cached
    rule with that symlink or name; whatever it removes, directly or through
    [sudo rm -f], is the file of such a rule, and it writes nothing. *)
Theorem deleteRule_only_cached_files (n : string) (m : Machine W) :
  let wanted r := (UdevRule.symlink r =? n)%string || (UdevRule.name r =? n)%string in
  (existsb wanted (rules_ m) = false ->
   deleteRule n m = (Failure ("Rule not found: " ++ n), m))
  /\ (existsb wanted (rules_ m) = true ->
      exists r, In r (rules_ m)
                /\ (UdevRule.symlink r = n \/ UdevRule.name r = n)
                /\ deleteRule n m = deleteRuleFile (UdevRule.filePath r) m
                /\ (trace (snd (deleteRule n m)) = trace m
                    \/ trace (snd (deleteRule n m))
                       = trace m ++ [EvRemove (UdevRule.filePath r)]
                    \/ trace (snd (deleteRule n m))
                       = trace m ++ [EvPopen (rmCommand (UdevRule.filePath r))])).
Proof.
  intros wanted. unfold deleteRule, bind, getRules. fold wanted. split.
  - intros H. apply find_existsb in H. now rewrite H.
  - intros H. destruct (List.find wanted (rules_ m)) as [r|] eqn:Ef.
    + destruct (find_some _ _ Ef) as [Hin Hw]. exists r.
      split; [exact Hin|]. split.
      * unfold wanted in Hw. apply orb_true_iff in Hw.
        destruct Hw as [Hw|Hw]; apply String.eqb_eq in Hw; auto.
      * split; [reflexivity|].
        rewrite deleteRuleFile_trace, removeRuleFile_trace.
        destruct (os_exists (world m) (UdevRule.filePath r)); [|now left].
        destruct (os_isRoot (world m)); auto.
    + apply find_existsb in Ef. congruence.
Qed.

End SystemCalls.

(** A run of X12's theorem: the first rule on the fresh machine. *)
Lemma createRule_system_calls_witness :
  trace (snd (createRule Sim.ftdi "RS485_1" (UdevManager Sim.fresh)))
  = [EvPopen "date";
     EvOfstream "/etc/udev/rules.d/99-easytty-RS485_1.rules"
       (ruleContent "Tue Nov  3 06:26:00 UTC 2026" Sim.ftdi "RS485_1")].
Proof.
  assert (Hc : createChecks (rules_ (UdevManager Sim.fresh)) Sim.ftdi "RS485_1" = true)
    by (vm_compute; reflexivity).
  pose proof (proj2 (createRule_system_calls Sim.ftdi "RS485_1" (UdevManager Sim.fresh))
                Hc) as H.
  vm_compute in H. vm_compute. exact H.
Defined.

(** A run of X13's theorem: without root and without [sudo], the file of the
    scenario stays and the removal fails. *)
Lemma removeRuleFile_outcomes_witness :
  let m := mkMachine [] (Sim.mkWorld false (Sim.files (world Sim.one_rule)) "") [] in
  success (fst (removeRuleFile "/etc/udev/rules.d/99-easytty-RS485_1.rules" m))
  = negb (os_exists
            (world (snd (removeRuleFile "/etc/udev/rules.d/99-easytty-RS485_1.rules" m)))
            "/etc/udev/rules.d/99-easytty-RS485_1.rules").
Proof.
  intros m.
  apply (proj1 (proj2 (removeRuleFile_outcomes
                         "/etc/udev/rules.d/99-easytty-RS485_1.rules" m)));
    vm_compute; reflexivity.
Defined.

(** A run of X14's theorem: deleting the scenario's rule by its symlink. *)
Lemma deleteRule_only_cached_files_witness :
  exists r, In r (rules_ Sim.one_rule)
            /\ deleteRule "RS485_1" Sim.one_rule
               = deleteRuleFile (UdevRule.filePath r) Sim.one_rule.
Proof.
  destruct (proj2 (deleteRule_only_cached_files "RS485_1" Sim.one_rule))
    as (r & Hin & _ & Heq & _); [vm_compute; reflexivity|].
  exists r. now split.
Defined.

(* ================================================================== *)
(** ** From a successful createRule to a bound device *)
(* ================================================================== *)

Section Bound.

Context {W : Type} {OS : OsOps W}.

Lemma loadEntry_keeps (w : W) (acc : list UdevRule.t) (e : DirEntry) (r : UdevRule.t) :
  In r acc -> In r (loadEntry w acc e).
Proof.
  intros H. unfold loadEntry.
  destruct (negb (de_is_regular_file e)); [exact H|].
  destruct (negb (contains "easytty" _)); [exact H|].
  destruct (negb (utils.endsWith _ _)); [exact H|].
  destruct (parseRuleFile w (de_path e)); [|exact H].
  apply in_or_app. now left.
Qed.

Lemma fold_loadEntry_keeps (w : W) (es : list DirEntry) (acc : list UdevRule.t)
    (r : UdevRule.t) :
  In r acc -> In r (fold_left (loadEntry w) es acc).
Proof.
  revert acc. induction es as [|e es IH]; intros acc H; [exact H|].
  cbn [fold_left]. apply IH. now apply loadEntry_keeps.
Qed.

(** An accepted file of the directory is in the cache after the reload. *)
Lemma fold_loadEntry_complete (w : W) (es : list DirEntry) (acc : list UdevRule.t)
    (e : DirEntry) (r : UdevRule.t) :
  In e es -> accepted w e r -> In r (fold_left (loadEntry w) es acc).
Proof.
  intros Hin (Hreg & Hc & He & text & Ho & Hp).
  revert acc. induction es as [|e' es IH]; intros acc; [destruct Hin|].
  cbn [fold_left]. destruct Hin as [->|Hin]; [|now apply IH].
  apply fold_loadEntry_keeps. unfold loadEntry, parseRuleFile.
  rewrite Hreg, Hc, He, Ho, Hp. cbn [negb]. apply in_or_app. right. now left.
Qed.

Lemma loadExistingRules_complete_for (m : Machine W) (e : DirEntry) (r : UdevRule.t) :
  os_exists (world m) RULES_DIR = true ->
  In e (os_listDir (world m) RULES_DIR) ->
  accepted (world m) e r ->
  In r (rules_ (snd (loadExistingRules m))).
Proof.
  intros Hex Hin Hacc. rewrite loadExistingRules_run. cbn [snd rules_]. rewrite Hex.
  apply (Permutation_in _ (Permutation_sym (sort_by_symlink_perm _))).
  now apply (fold_loadEntry_complete _ _ _ e).
Qed.

(** X15.  Let all checks of [createRule] pass for a device whose attributes
    meet the conditions of the round trip, let the user be root, and let the
    file system keep what is written: the file opens for writing, and
    afterwards the rule directory exists, lists the file as a regular file and
    the file reads back as written.  Then [createRule] succeeds, and in the
    state it leaves the name is in use and the device is bound: [symlinkExists]
    and [ruleExists] answer [true], and every further [createRule] for the
    same device, under whatever name, fails and changes nothing. *)
Theorem createRule_binds_device (m : Machine W) (d : DeviceInfo.t) (n : string) :
  let created := fst (executeCommand "date" m) in
  let m1 := snd (executeCommand "date" m) in
  let filePath := (RULES_DIR ++ "/" ++ generateRuleFileName n)%string in
  let content := ruleContent created d n in
  createChecks (rules_ m) d n = true ->
  forallb_str cls_hex (DeviceInfo.vendorId d) = true ->
  forallb_str cls_hex (DeviceInfo.productId d) = true ->
  quotable (DeviceInfo.serial d) = true ->
  utils.endsWith (DeviceInfo.serial d) "SYMLINK+=" = false ->
  comments_single_line created d = true ->
  os_isRoot (world m1) = true ->
  forall w2,
    os_ofstream (world m1) filePath content = Some w2 ->
    os_exists w2 RULES_DIR = true ->
    In {| de_path := filePath; de_is_regular_file := true |} (os_listDir w2 RULES_DIR) ->
    os_ifstream w2 filePath = Some content ->
    let m' := snd (createRule d n m) in
    fst (createRule d n m) = Success ("Rule created successfully: /dev/" ++ n)
    /\ world m' = w2
    /\ symlinkExists (rules_ m') n = true
    /\ ruleExists (rules_ m') d = true
    /\ (forall n2, success (fst (createRule d n2 m')) = false
                   /\ snd (createRule d n2 m') = m').
Proof.
  intros created m1 filePath content Hchecks Hv Hp Hq Hend Hcom Hroot
    w2 Hwrite Hdir Hlist Hread m'.
  pose proof Hchecks as Hc. unfold createChecks in Hc.
  rewrite !andb_true_iff, !negb_true_iff in Hc.
  destruct Hc as [[[Hn Hd] Hs] He].
  destruct (render_then_parse filePath created d n Hd Hn Hv Hp Hq Hend Hcom)
    as (r & Hparse & Hfields).
  unfold fieldsOf in Hfields. injection Hfields as E1 E2 E3 E4.
  (* the run of createRule *)
  assert (Hrun : createRule d n m
                 = (Success ("Rule created successfully: /dev/" ++ n),
                    snd (loadExistingRules
                           (mkMachine (rules_ m1) w2
                              (trace m1 ++ [EvOfstream filePath content]))))).
  { rewrite (createRule_checked d n m Hd Hn Hs).
    unfold ruleExists in He. apply find_existsb in He. rewrite He.
    rewrite generateRuleContent_run. fold created m1 content filePath.
    unfold writeRuleFile, isRoot, bind, observe, perform, ret.
    rewrite Hroot, Hwrite. reflexivity. }
  assert (Hin : In r (rules_ m')).
  { unfold m'. rewrite Hrun. cbn [snd].
    apply (loadExistingRules_complete_for _
             {| de_path := filePath; de_is_regular_file := true |});
      cbn [world]; try assumption.
    destruct (valid_name_word n Hn) as [_ Hw].
    unfold accepted. cbn [de_path de_is_regular_file]. unfold filePath.
    change (RULES_DIR ++ "/" ++ generateRuleFileName n)%string
      with (RULES_DIR ++ String "/" (generateRuleFileName n))%string.
    rewrite path_filename_dir by now apply ruleFileName_no_slash.
    split; [reflexivity|]. split.
    - unfold generateRuleFileName.
      change (to_string DEFAULT_PRIORITY ++ "-easytty-" ++ n ++ ".rules")%string
        with ("99-" ++ "easytty" ++ "-" ++ n ++ ".rules")%string.
      apply contains_append, contains_prefix, prefix_append.
    - split.
      + apply endsWith_iff. exists ("99-easytty-" ++ n)%string.
        unfold generateRuleFileName. now rewrite !append_assoc.
      + exists content. split; assumption. }
  assert (Hsym : symlinkExists (rules_ m') n = true).
  { apply existsb_exists. exists r. split; [exact Hin|]. now apply String.eqb_eq. }
  assert (Hbound : ruleExists (rules_ m') d = true).
  { apply existsb_exists. exists r. split; [exact Hin|].
    apply sameDeviceTest_iff. unfold store_matches. auto. }
  split; [now rewrite Hrun|]. split.
  { unfold m'. rewrite Hrun, loadExistingRules_run. reflexivity. }
  split; [exact Hsym|]. split; [exact Hbound|].
  intros n2. destruct (createRule_rejected d n2 m') as [H1 H2]; [|now split].
  unfold createChecks. rewrite Hbound. cbn [negb]. apply andb_false_r.
Qed.

End Bound.

(** A run of X15's theorem: the scenario on the fresh machine. *)
Lemma createRule_binds_device_witness :
  fst (createRule Sim.ftdi "RS485_1" (UdevManager Sim.fresh))
  = Success "Rule created successfully: /dev/RS485_1"
  /\ world Sim.one_rule = world Sim.one_rule
  /\ symlinkExists (rules_ Sim.one_rule) "RS485_1" = true
  /\ ruleExists (rules_ Sim.one_rule) Sim.ftdi = true
  /\ (forall n2, success (fst (createRule Sim.ftdi n2 Sim.one_rule)) = false
                 /\ snd (createRule Sim.ftdi n2 Sim.one_rule) = Sim.one_rule).
Proof.
  apply (createRule_binds_device (UdevManager Sim.fresh) Sim.ftdi "RS485_1");
    try (vm_compute; reflexivity).
  vm_compute. left. reflexivity.
Defined.

(* ================================================================== *)
(** ** The device detector *)
(* ================================================================== *)

Lemma insert_by_devPath_perm (d : DeviceInfo.t) (l : list DeviceInfo.t) :
  Permutation (DeviceDetector.insert_by_devPath d l) (d :: l).
Proof.
  induction l as [|x xs IH]; cbn; [reflexivity|].
  destruct (String.ltb _ _); [reflexivity|]. rewrite IH. apply perm_swap.
Qed.

Lemma sort_by_devPath_perm (l : list DeviceInfo.t) :
  Permutation (DeviceDetector.sort_by_devPath l) l.
Proof.
  unfold DeviceDetector.sort_by_devPath.
  enough (H : forall sorted,
             Permutation
               (fold_left (fun sorted d => DeviceDetector.insert_by_devPath d sorted)
                  l sorted)
               (l ++ sorted))
    by (rewrite H, app_nil_r; reflexivity).
  induction l as [|x xs IH]; intros sorted; cbn [fold_left app]; [reflexivity|].
  rewrite IH, insert_by_devPath_perm. symmetry. apply Permutation_middle.
Qed.

Lemma insert_by_devPath_sorted (d : DeviceInfo.t) (l : list DeviceInfo.t) :
  StronglySorted devPath_le l ->
  StronglySorted devPath_le (DeviceDetector.insert_by_devPath d l).
Proof.
  induction 1 as [|x xs Hs IH Hx]; cbn [DeviceDetector.insert_by_devPath].
  - constructor; constructor.
  - destruct (String.ltb (DeviceInfo.devPath d) (DeviceInfo.devPath x)) eqn:E.
    + apply ltb_true_leb in E. constructor; [now constructor|].
      constructor; [exact E|].
      eapply Forall_impl; [|exact Hx]. intros y Hy. unfold devPath_le in *.
      eapply string_leb_trans; eassumption.
    + apply ltb_false_leb in E. constructor; [exact IH|].
      apply (Permutation_Forall (Permutation_sym (insert_by_devPath_perm d xs))).
      now constructor.
Qed.

Lemma sort_by_devPath_sorted (l : list DeviceInfo.t) :
  StronglySorted devPath_le (DeviceDetector.sort_by_devPath l).
Proof.
  unfold DeviceDetector.sort_by_devPath.
  enough (H : forall sorted,
             StronglySorted devPath_le sorted ->
             StronglySorted devPath_le
               (fold_left (fun sorted d => DeviceDetector.insert_by_devPath d sorted)
                  l sorted))
    by (apply H; constructor).
  induction l as [|x xs IH]; intros sorted Hs; cbn [fold_left]; [exact Hs|].
  apply IH. now apply insert_by_devPath_sorted.
Qed.

Lemma scanEntry_in (u : DeviceDetector.Udev) (acc : list DeviceInfo.t) (path : string)
    (d : DeviceInfo.t) :
  In d (DeviceDetector.scanEntry u acc path) <-> In d acc \/ scanned u path d.
Proof.
  unfold DeviceDetector.scanEntry, scanned.
  destruct (DeviceDetector.device_from_syspath u path) as [dev|];
    [|split; [now left | intros [H|(dev & node & H & _)]; [exact H | discriminate]]].
  destruct (DeviceDetector.td_devnode dev) as [node|] eqn:En;
    [|split; [now left
             | intros [H|(dev' & node & H & H' & _)];
               [exact H | injection H as <-; congruence]]].
  destruct (DeviceDetector.isSerialNode node) eqn:Es;
    [|split; [now left
             | intros [H|(dev' & node' & H & H' & H'' & _)];
               [exact H | injection H as <-; congruence]]].
  destruct (DeviceInfo.isValid (DeviceDetector.extractDeviceInfo dev)) eqn:Ev.
  - rewrite in_app_iff. split.
    + intros [H|[<-|[]]]; [now left|]. right. exists dev, node. repeat split; assumption.
    + intros [H|(dev' & node' & H & _ & _ & -> & _)]; [now left|].
      injection H as <-. right. now left.
  - split; [now left|].
    intros [H|(dev' & node' & H & _ & _ & -> & Hv)]; [exact H|].
    injection H as <-. congruence.
Qed.

Lemma fold_scanEntry_in (u : DeviceDetector.Udev) (paths : list string)
    (acc : list DeviceInfo.t) (d : DeviceInfo.t) :
  In d (fold_left (DeviceDetector.scanEntry u) paths acc)
  <-> In d acc \/ exists path, In path paths /\ scanned u path d.
Proof.
  revert acc. induction paths as [|p ps IH]; intros acc; cbn [fold_left].
  - split; [now left | intros [H|(p & [] & _)]; exact H].
  - rewrite IH, scanEntry_in. split.
    + intros [[H|H]|(p' & Hp' & H)]; [now left | right; exists p; split; [now left | exact H]
                                     | right; exists p'; split; [now right | exact H]].
    + intros [H|(p' & [<-|Hp'] & H)]; [left; now left | left; now right
                                      | right; exists p'; now split].
Qed.

Lemma scanDevices_in (u : DeviceDetector.Udev) (d : DeviceInfo.t) :
  In d (DeviceDetector.scanDevices u)
  <-> exists paths path,
        DeviceDetector.enumerate_tty u = Some paths /\ In path paths /\ scanned u path d.
Proof.
  unfold DeviceDetector.scanDevices.
  destruct (DeviceDetector.enumerate_tty u) as [paths|].
  - split.
    + intros H. apply (Permutation_in _ (sort_by_devPath_perm _)) in H.
      apply fold_scanEntry_in in H. destruct H as [[]|(path & Hp & Hs)].
      exists paths, path. now repeat split.
    + intros (paths' & path & E & Hp & Hs). injection E as <-.
      apply (Permutation_in _ (Permutation_sym (sort_by_devPath_perm _))).
      apply fold_scanEntry_in. right. now exists path.
  - split; [intros [] | intros (paths & path & E & _); discriminate].
Qed.

Lemma formatHexId_nonempty (id : string) : empty (utils.formatHexId id) = false.
Proof.
  apply empty_false_iff. intros E.
  assert (H : (4 <= String.length (utils.formatHexId id))%nat).
  { unfold utils.formatHexId, utils.toLower. rewrite transform_length.
    apply padLoop_length. lia. }
  rewrite E in H. cbn in H. lia.
Qed.

Lemma contains_nonempty (pat s : string) :
  pat <> "" -> contains pat s = true -> s <> "".
Proof.
  intros Hp H ->. rewrite contains_nil in H. destruct pat; [congruence | discriminate].
Qed.

Lemma isSerialNode_nonempty (node : string) :
  DeviceDetector.isSerialNode node = true -> node <> "".
Proof.
  unfold DeviceDetector.isSerialNode. rewrite !orb_true_iff.
  intros [[[H|H]|H]|H]; revert H; apply contains_nonempty; discriminate.
Qed.

(** A device is valid exactly when it has a device node that is not empty
    and a USB device among its ancestors. *)
Lemma extractDeviceInfo_valid (dev : DeviceDetector.TtyDevice) :
  DeviceInfo.isValid (DeviceDetector.extractDeviceInfo dev) = true
  <-> (exists node, DeviceDetector.td_devnode dev = Some node /\ node <> "")
      /\ DeviceDetector.td_usb_device dev <> None.
Proof.
  unfold DeviceInfo.isValid, DeviceDetector.extractDeviceInfo.
  cbn [DeviceInfo.devPath DeviceInfo.vendorId].
  rewrite andb_true_iff, !negb_true_iff.
  destruct (DeviceDetector.td_devnode dev) as [node|];
    destruct (DeviceDetector.td_usb_device dev) as [usb|];
    rewrite ?formatHexId_nonempty, ?empty_false_iff; cbn [empty]; split;
    intros [H1 H2]; try congruence;
    try (destruct H1 as (node' & E & Hn); try discriminate; injection E as <-);
    try congruence;
    split; first [ assumption | reflexivity | discriminate
                 | eexists; split; [reflexivity | assumption] ].
Qed.

(** X16.  [scanDevices] returns exactly the devices extracted from the
    enumerated tty devices that have a device node holding [ttyUSB],
    [ttyACM], [ttyAMA] or [ttySC] and a USB device among their ancestors; a
    tty device without such an ancestor is left out.  Every device returned
    is valid, and the list is sorted by device path.  When the enumeration
    cannot be created the list is empty. *)
Theorem scanDevices_spec (u : DeviceDetector.Udev) :
  (forall d,
     In d (DeviceDetector.scanDevices u)
     <-> exists paths path dev node,
           DeviceDetector.enumerate_tty u = Some paths /\ In path paths
           /\ DeviceDetector.device_from_syspath u path = Some dev
           /\ DeviceDetector.td_devnode dev = Some node
           /\ DeviceDetector.isSerialNode node = true
           /\ DeviceDetector.td_usb_device dev <> None
           /\ d = DeviceDetector.extractDeviceInfo dev)
  /\ Forall (fun d => DeviceInfo.isValid d = true
                      /\ DeviceDetector.isSerialNode (DeviceInfo.devPath d) = true)
       (DeviceDetector.scanDevices u)
  /\ StronglySorted devPath_le (DeviceDetector.scanDevices u)
  /\ (DeviceDetector.enumerate_tty u = None -> DeviceDetector.scanDevices u = []).
Proof.
  split; [|split; [|split]].
  - intros d. rewrite scanDevices_in. split.
    + intros (paths & path & E & Hp & dev & node & Hd & Hn & Hs & -> & Hv).
      exists paths, path, dev, node. repeat split; try assumption.
      now apply extractDeviceInfo_valid in Hv.
    + intros (paths & path & dev & node & E & Hp & Hd & Hn & Hs & Hu & ->).
      exists paths, path. repeat split; try assumption.
      exists dev, node. repeat split; try assumption.
      apply extractDeviceInfo_valid. split; [|exact Hu].
      exists node. split; [exact Hn | now apply isSerialNode_nonempty].
  - apply Forall_forall. intros d Hd. apply scanDevices_in in Hd.
    destruct Hd as (paths & path & _ & _ & dev & node & _ & Hn & Hs & -> & Hv).
    split; [exact Hv|].
    unfold DeviceDetector.extractDeviceInfo. cbn [DeviceInfo.devPath]. now rewrite Hn.
  - unfold DeviceDetector.scanDevices.
    destruct (DeviceDetector.enumerate_tty u); [apply sort_by_devPath_sorted | constructor].
  - intros E. unfold DeviceDetector.scanDevices. now rewrite E.
Qed.

Lemma filter_sorted {A} (R : A -> A -> Prop) (f : A -> bool) (l : list A) :
  StronglySorted R l -> StronglySorted R (filter f l).
Proof.
  induction 1 as [|x xs Hs IH Hx]; cbn [filter]; [constructor|].
  destruct (f x); [|exact IH]. constructor; [exact IH|].
  apply Forall_forall. intros y Hy. apply filter_In in Hy.
  rewrite Forall_forall in Hx. now apply Hx.
Qed.

Lemma contains_empty_pattern (s : string) : contains "" s = true.
Proof. apply contains_prefix, prefix_nil. Qed.

(** X17.  [scanDevices(pattern)] returns the devices of a scan whose device
    path holds the pattern, in the order of the scan, so sorted by device
    path; with the empty pattern it returns the whole scan. *)
Theorem scanDevicesMatching_spec (u : DeviceDetector.Udev) (pattern : string) :
  (forall d, In d (DeviceDetector.scanDevicesMatching u pattern)
             <-> In d (DeviceDetector.scanDevices u)
                 /\ contains pattern (DeviceInfo.devPath d) = true)
  /\ StronglySorted devPath_le (DeviceDetector.scanDevicesMatching u pattern)
  /\ DeviceDetector.scanDevicesMatching u "" = DeviceDetector.scanDevices u.
Proof.
  unfold DeviceDetector.scanDevicesMatching. split; [|split].
  - intros d. apply filter_In.
  - apply filter_sorted. unfold DeviceDetector.scanDevices.
    destruct (DeviceDetector.enumerate_tty u); [apply sort_by_devPath_sorted | constructor].
  - induction (DeviceDetector.scanDevices u) as [|x xs IH]; [reflexivity|].
    cbn [filter]. now rewrite contains_empty_pattern, IH.
Qed.

(** X18.  [getDeviceInfo] never returns an invalid device.  When the path
    does not resolve under [/sys/class/tty], what it returns is the first
    device of a fresh scan with exactly that device path, and nothing when
    the scan has none. *)
Theorem getDeviceInfo_spec (u : DeviceDetector.Udev) (devPath : string) :
  (forall d, DeviceDetector.getDeviceInfo u devPath = Some d ->
             DeviceInfo.isValid d = true)
  /\ (DeviceDetector.device_from_syspath u
        ("/sys/class/tty/" ++ DeviceDetector.afterLastSlash devPath) = None ->
      (forall d, DeviceDetector.getDeviceInfo u devPath = Some d ->
                 In d (DeviceDetector.scanDevices u) /\ DeviceInfo.devPath d = devPath)
      /\ (DeviceDetector.getDeviceInfo u devPath = None <->
          forall d, In d (DeviceDetector.scanDevices u) ->
                    DeviceInfo.devPath d <> devPath)).
Proof.
  unfold DeviceDetector.getDeviceInfo. split.
  - intros d.
    destruct (DeviceDetector.device_from_syspath u _) as [dev|].
    + destruct (DeviceInfo.isValid (DeviceDetector.extractDeviceInfo dev)) eqn:Ev;
        [|discriminate]. intros E. injection E as <-. exact Ev.
    + intros Hf. apply find_some in Hf. destruct Hf as [Hin _].
      apply scanDevices_in in Hin.
      destruct Hin as (_ & _ & _ & _ & _ & _ & _ & _ & _ & _ & Hv). exact Hv.
  - intros ->. split.
    + intros d Hf. apply find_some in Hf. destruct Hf as [Hin He].
      split; [exact Hin | now apply String.eqb_eq].
    + split.
      * intros Hf d Hin E. pose proof (find_none _ _ Hf d Hin) as Hn. cbn in Hn.
        apply String.eqb_neq in Hn. congruence.
      * intros H. apply find_existsb. apply not_true_is_false. intros He.
        apply existsb_exists in He. destruct He as (d & Hin & Hd).
        apply String.eqb_eq in Hd. now apply (H d).
Qed.

(** A scan of the sample context: the two adapters, in the order of their
    device paths, with the vendor id padded to four digits and the serial
    trimmed; the port of the board is left out. *)
Example scanDevices_sample :
  map (fun d => (DeviceInfo.devPath d, DeviceInfo.devNode d, DeviceInfo.vendorId d,
                 DeviceInfo.productId d, DeviceInfo.serial d, DeviceInfo.driver d))
      (DeviceDetector.scanDevices sampleUdev)
  = [("/dev/ttyUSB0", "ttyUSB0", "0403", "6001", "A50285BI", "ftdi_sio");
     ("/dev/ttyUSB1", "ttyUSB1", "0403", "6001", "", "ftdi_sio")]
  /\ map DeviceInfo.devPath (DeviceDetector.scanDevicesMatching sampleUdev "USB1")
     = ["/dev/ttyUSB1"]
  /\ option_map DeviceInfo.devPath (DeviceDetector.getDeviceInfo sampleUdev "/dev/ttyUSB0")
     = Some "/dev/ttyUSB0"
  /\ DeviceDetector.getDeviceInfo sampleUdev "/dev/ttyAMA0" = None.
Proof. repeat split; vm_compute; reflexivity. Qed.

Lemma trim_idem (s : string) : utils.trim (utils.trim s) = utils.trim s.
Proof.
  unfold utils.trim at 2 3.
  destruct (trim_left_starts s) as [E|E]; [now rewrite E|].
  destruct (trim_right_ends (utils.trim_left s)) as [E'|E']; [now rewrite E'|].
  apply trim_right_starts in E. unfold utils.trim.
  now rewrite trim_left_fixed, trim_right_fixed.
Qed.

Lemma rfind_none (c : ascii) (s : string) :
  DeviceDetector.rfind c s = None <-> contains (String c "") s = false.
Proof.
  induction s as [|a r IH]; [easy|].
  cbn [DeviceDetector.rfind]. rewrite contains_cons, prefix_char, orb_false_iff.
  destruct (DeviceDetector.rfind c r) as [i|].
  - split; [discriminate|]. intros [_ H]. apply IH in H. discriminate.
  - rewrite (Ascii.eqb_sym c a). destruct (a =? c)%char.
    + split; [discriminate | intros [H _]; discriminate].
    + split; [intros _; split; [reflexivity | now apply IH] | reflexivity].
Qed.

(** Cutting after the last slash by [rfind] and [substr] gives what
    [fs::path::filename] gives. *)
Lemma afterLastSlash_filename (s : string) :
  DeviceDetector.afterLastSlash s = path_filename s.
Proof.
  induction s as [|a r IH]; [reflexivity|].
  unfold DeviceDetector.afterLastSlash in *. cbn [DeviceDetector.rfind path_filename].
  destruct (DeviceDetector.rfind "/" r) as [i|] eqn:Er.
  - assert (Hc : contains "/" r = true).
    { destruct (contains "/" r) eqn:E; [reflexivity|].
      apply (rfind_none "/" r) in E. congruence. }
    rewrite Hc. cbn [substr_from] in *. rewrite IH. now destruct (a =? "/")%char.
  - pose proof (proj1 (rfind_none "/" r) Er) as Hc. rewrite Hc.
    destruct (a =? "/")%char; cbn [substr_from]; [|reflexivity].
    symmetry. now apply path_filename_plain.
Qed.

Lemma path_filename_no_slash (s : string) : contains "/" (path_filename s) = false.
Proof.
  induction s as [|a r IH]; [reflexivity|]. cbn [path_filename].
  destruct (a =? "/")%char eqn:Ea; [exact IH|].
  destruct (contains "/" r) eqn:Er; [exact IH|].
  rewrite contains_cons, Er, orb_false_r, prefix_char, Ascii.eqb_sym. exact Ea.
Qed.

Lemma path_filename_suffix (s : string) : exists a, s = (a ++ path_filename s)%string.
Proof.
  induction s as [|c r [a Ha]]; [now exists ""|]. cbn [path_filename].
  destruct (c =? "/")%char; [exists (String c a); cbn; congruence|].
  destruct (contains "/" r); [exists (String c a); cbn; congruence | now exists ""].
Qed.

(** X19.  What [extractDeviceInfo] makes of a tty device.  The record is
    valid exactly when the device has a device node that is not empty and a
    USB device among its ancestors.  With such an ancestor, vendor id and
    product id have at least four characters, whatever the attributes hold,
    also when they are missing, and serial, manufacturer and product carry no
    white space at their ends; without one, all of these are empty.  The
    short name is what follows the last slash of the device node and holds no
    slash.  The driver of the USB interface, when there is one, wins over the
    driver of the USB device. *)
Theorem extractDeviceInfo_spec (dev : DeviceDetector.TtyDevice) :
  let info := DeviceDetector.extractDeviceInfo dev in
  (DeviceInfo.isValid info = true
   <-> (exists node, DeviceDetector.td_devnode dev = Some node /\ node <> "")
       /\ DeviceDetector.td_usb_device dev <> None)
  /\ (DeviceDetector.td_usb_device dev <> None ->
      (4 <= String.length (DeviceInfo.vendorId info))%nat
      /\ (4 <= String.length (DeviceInfo.productId info))%nat
      /\ utils.trim (DeviceInfo.serial info) = DeviceInfo.serial info
      /\ utils.trim (DeviceInfo.manufacturer info) = DeviceInfo.manufacturer info
      /\ utils.trim (DeviceInfo.product info) = DeviceInfo.product info)
  /\ (DeviceDetector.td_usb_device dev = None ->
      DeviceInfo.vendorId info = "" /\ DeviceInfo.productId info = ""
      /\ DeviceInfo.serial info = "" /\ DeviceInfo.manufacturer info = ""
      /\ DeviceInfo.product info = "")
  /\ contains "/" (DeviceInfo.devNode info) = false
  /\ (exists a, DeviceInfo.devPath info = (a ++ DeviceInfo.devNode info)%string)
  /\ (forall i v, DeviceDetector.td_usb_interface dev = Some i ->
                  DeviceDetector.un_driver i = Some v -> DeviceInfo.driver info = v).
Proof.
  intros info. split; [apply extractDeviceInfo_valid|].
  assert (Hlen : forall id, (4 <= String.length (utils.formatHexId id))%nat).
  { intros id. unfold utils.formatHexId, utils.toLower. rewrite transform_length.
    apply padLoop_length. lia. }
  assert (Htrim : forall u a, utils.trim (DeviceDetector.getSysAttr u a)
                              = DeviceDetector.getSysAttr u a).
  { intros u a. unfold DeviceDetector.getSysAttr.
    destruct (DeviceDetector.un_sysattr u a); [apply trim_idem | reflexivity]. }
  unfold info, DeviceDetector.extractDeviceInfo.
  cbn [DeviceInfo.vendorId DeviceInfo.productId DeviceInfo.serial
       DeviceInfo.manufacturer DeviceInfo.product DeviceInfo.devNode
       DeviceInfo.devPath DeviceInfo.driver].
  split; [|split; [|split; [|split]]].
  - destruct (DeviceDetector.td_usb_device dev) as [u|]; [|congruence].
    intros _. repeat split; auto.
  - intros ->. repeat split.
  - destruct (DeviceDetector.td_devnode dev) as [node|]; [|reflexivity].
    rewrite afterLastSlash_filename. apply path_filename_no_slash.
  - destruct (DeviceDetector.td_devnode dev) as [node|]; [|now exists ""].
    rewrite afterLastSlash_filename. apply path_filename_suffix.
  - intros i v -> Hv. now rewrite Hv.
Qed.

(* ================================================================== *)
(** ** Menu navigation *)
(* ================================================================== *)

Lemma ensureVisible_window_aux (visibleHeight : Z) (menu : Menu.t) :
  (1 <= visibleHeight)%Z ->
  Menu.items_ (Menu.ensureVisible visibleHeight menu) = Menu.items_ menu
  /\ Menu.selectedIndex_ (Menu.ensureVisible visibleHeight menu)
     = Menu.selectedIndex_ menu
  /\ (Menu.scrollOffset_ (Menu.ensureVisible visibleHeight menu)
      <= Menu.selectedIndex_ (Menu.ensureVisible visibleHeight menu)
      < Menu.scrollOffset_ (Menu.ensureVisible visibleHeight menu) + visibleHeight)%Z.
Proof.
  intros Hh. unfold Menu.ensureVisible.
  destruct (Z.ltb_spec (Menu.selectedIndex_ menu) (Menu.scrollOffset_ menu));
    [cbn; repeat split; lia|].
  destruct (Z.geb_spec (Menu.selectedIndex_ menu)
              (Menu.scrollOffset_ menu + visibleHeight));
    cbn; repeat split; lia.
Qed.

(** X20.  After [ensureVisible], with room for at least one line, the
    selected line lies in the window that starts at the scroll offset; items
    and selection are as before, and a selection that was in the window
    leaves the offset alone. *)
Theorem ensureVisible_window (visibleHeight : Z) (menu : Menu.t) :
  (1 <= visibleHeight)%Z ->
  let menu' := Menu.ensureVisible visibleHeight menu in
  Menu.items_ menu' = Menu.items_ menu
  /\ Menu.selectedIndex_ menu' = Menu.selectedIndex_ menu
  /\ (Menu.scrollOffset_ menu' <= Menu.selectedIndex_ menu'
      < Menu.scrollOffset_ menu' + visibleHeight)%Z
  /\ ((Menu.scrollOffset_ menu <= Menu.selectedIndex_ menu
       < Menu.scrollOffset_ menu + visibleHeight)%Z -> menu' = menu).
Proof.
  intros Hh menu'. unfold menu', Menu.ensureVisible.
  destruct (Z.ltb_spec (Menu.selectedIndex_ menu) (Menu.scrollOffset_ menu));
    [cbn; repeat split; lia|].
  destruct (Z.geb_spec (Menu.selectedIndex_ menu)
              (Menu.scrollOffset_ menu + visibleHeight));
    cbn; repeat split; lia.
Qed.

(** A run of X20's theorem: line 12 of a menu scrolled to the top, with
    five visible lines. *)
Lemma ensureVisible_window_witness :
  Menu.scrollOffset_ (Menu.ensureVisible 5 (Menu.mk [] 12 0)) = 8%Z.
Proof.
  destruct (ensureVisible_window 5 (Menu.mk [] 12 0) ltac:(lia)) as (_ & _ & H & _).
  cbn in *. reflexivity.
Defined.

Lemma moveDownLoop_lands (items : list Menu.MenuItem) (start : Z) :
  (0 <= start < Menu.size items)%Z ->
  forall fuel cur,
    (0 <= cur < Menu.size items)%Z ->
    ((if (cur <? start)%Z then start - cur else start - cur + Menu.size items)
     <= Z.of_nat fuel)%Z ->
    exists r, Menu.moveDownLoop fuel items start cur = Some r
              /\ (0 <= r < Menu.size items)%Z
              /\ (Menu.isSelectable (Menu.item_at items r) = true \/ r = start).
Proof.
  intros Hs. induction fuel as [|fuel IH]; intros cur Hc Hd.
  - destruct (Z.ltb_spec cur start); lia.
  - cbn [Menu.moveDownLoop].
    set (nxt := if (cur + 1 >=? Menu.size items)%Z then 0%Z else (cur + 1)%Z).
    assert (Hn : (0 <= nxt < Menu.size items)%Z)
      by (unfold nxt; destruct (Z.geb_spec (cur + 1) (Menu.size items)); lia).
    destruct (Menu.isSelectable (Menu.item_at items nxt)) eqn:Esel; cbn [negb andb].
    + exists nxt. auto.
    + destruct (Z.eqb_spec nxt start) as [E|E]; cbn [negb].
      * exists nxt. auto.
      * apply IH; [exact Hn|]. unfold nxt in *.
        destruct (Z.geb_spec (cur + 1) (Menu.size items));
          destruct (Z.ltb_spec cur start); destruct (Z.ltb_spec 0 start);
          destruct (Z.ltb_spec (cur + 1) start); lia.
Qed.

Lemma moveUpLoop_lands (items : list Menu.MenuItem) (start : Z) :
  (0 <= start < Menu.size items)%Z ->
  forall fuel cur,
    (0 <= cur < Menu.size items)%Z ->
    ((if (start <? cur)%Z then cur - start else cur - start + Menu.size items)
     <= Z.of_nat fuel)%Z ->
    exists r, Menu.moveUpLoop fuel items start cur = Some r
              /\ (0 <= r < Menu.size items)%Z
              /\ (Menu.isSelectable (Menu.item_at items r) = true \/ r = start).
Proof.
  intros Hs. induction fuel as [|fuel IH]; intros cur Hc Hd.
  - destruct (Z.ltb_spec start cur); lia.
  - cbn [Menu.moveUpLoop].
    set (nxt := if (cur - 1 <? 0)%Z then (Menu.size items - 1)%Z else (cur - 1)%Z).
    assert (Hn : (0 <= nxt < Menu.size items)%Z)
      by (unfold nxt; destruct (Z.ltb_spec (cur - 1) 0); lia).
    destruct (Menu.isSelectable (Menu.item_at items nxt)) eqn:Esel; cbn [negb andb].
    + exists nxt. auto.
    + destruct (Z.eqb_spec nxt start) as [E|E]; cbn [negb].
      * exists nxt. auto.
      * apply IH; [exact Hn|]. unfold nxt in *.
        destruct (Z.ltb_spec (cur - 1) 0);
          destruct (Z.ltb_spec start cur);
          destruct (Z.ltb_spec start (Menu.size items - 1));
          destruct (Z.ltb_spec start (cur - 1)); lia.
Qed.

(** More turns than needed change nothing. *)
Lemma moveDownLoop_more (items : list Menu.MenuItem) (start : Z) (fuel extra : nat)
    (cur r : Z) :
  Menu.moveDownLoop fuel items start cur = Some r ->
  Menu.moveDownLoop (fuel + extra) items start cur = Some r.
Proof.
  revert cur. induction fuel as [|fuel IH]; intros cur; [discriminate|].
  cbn [Menu.moveDownLoop Nat.add]. destruct (_ && _); [apply IH | auto].
Qed.

Lemma moveUpLoop_more (items : list Menu.MenuItem) (start : Z) (fuel extra : nat)
    (cur r : Z) :
  Menu.moveUpLoop fuel items start cur = Some r ->
  Menu.moveUpLoop (fuel + extra) items start cur = Some r.
Proof.
  revert cur. induction fuel as [|fuel IH]; intros cur; [discriminate|].
  cbn [Menu.moveUpLoop Nat.add]. destruct (_ && _); [apply IH | auto].
Qed.

(** X21.  From a selection inside the menu, [moveDown] and [moveUp] end
    after at most as many turns of their loop as the menu has items, and more
    turns give the same result.  The items stay as they are, the new
    selection is inside the menu and is a selectable item or the old
    selection, and with room for at least one line it lies in the visible
    window. *)
Theorem move_stays_inside (visibleHeight : Z) (menu : Menu.t) (extra : nat) :
  (0 <= Menu.selectedIndex_ menu < Menu.size (Menu.items_ menu))%Z ->
  (1 <= visibleHeight)%Z ->
  let landed menu' :=
    Menu.items_ menu' = Menu.items_ menu
    /\ (0 <= Menu.selectedIndex_ menu' < Menu.size (Menu.items_ menu))%Z
    /\ (Menu.isSelectable (Menu.item_at (Menu.items_ menu) (Menu.selectedIndex_ menu'))
        = true
        \/ Menu.selectedIndex_ menu' = Menu.selectedIndex_ menu)
    /\ (Menu.scrollOffset_ menu' <= Menu.selectedIndex_ menu'
        < Menu.scrollOffset_ menu' + visibleHeight)%Z in
  (exists menu',
     Menu.moveDown (List.length (Menu.items_ menu) + extra) visibleHeight menu
     = Some menu' /\ landed menu')
  /\ (exists menu',
        Menu.moveUp (List.length (Menu.items_ menu) + extra) visibleHeight menu
        = Some menu' /\ landed menu').
Proof.
  intros Hsel Hh landed.
  assert (Hne : Menu.items_ menu <> [])
    by (intros E; rewrite E in Hsel; cbn in Hsel; lia).
  split.
  - destruct (moveDownLoop_lands (Menu.items_ menu) (Menu.selectedIndex_ menu) Hsel
                (List.length (Menu.items_ menu)) (Menu.selectedIndex_ menu) Hsel)
      as (r & Hr & Hin & Hok).
    { rewrite Z.ltb_irrefl. unfold Menu.size. lia. }
    apply (moveDownLoop_more _ _ _ extra) in Hr.
    unfold Menu.moveDown. destruct (Menu.items_ menu) as [|x xs] eqn:E; [congruence|].
    rewrite Hr. eexists. split; [reflexivity|].
    destruct (ensureVisible_window_aux visibleHeight
                (Menu.mk (x :: xs) r (Menu.scrollOffset_ menu)) Hh) as (H1 & H2 & H3).
    unfold landed. rewrite H1, H2. cbn [Menu.items_ Menu.selectedIndex_] in *.
    repeat split; try assumption; lia.
  - destruct (moveUpLoop_lands (Menu.items_ menu) (Menu.selectedIndex_ menu) Hsel
                (List.length (Menu.items_ menu)) (Menu.selectedIndex_ menu) Hsel)
      as (r & Hr & Hin & Hok).
    { rewrite Z.ltb_irrefl. unfold Menu.size. lia. }
    apply (moveUpLoop_more _ _ _ extra) in Hr.
    unfold Menu.moveUp. destruct (Menu.items_ menu) as [|x xs] eqn:E; [congruence|].
    rewrite Hr. eexists. split; [reflexivity|].
    destruct (ensureVisible_window_aux visibleHeight
                (Menu.mk (x :: xs) r (Menu.scrollOffset_ menu)) Hh) as (H1 & H2 & H3).
    unfold landed. rewrite H1, H2. cbn [Menu.items_ Menu.selectedIndex_] in *.
    repeat split; try assumption; lia.
Qed.

(** A run of X21's theorem: with two visible lines, down from the first line
    goes to the fourth and scrolls by two. *)
Lemma move_stays_inside_witness :
  exists menu', Menu.moveDown 4 2 sampleMenu = Some menu'
                /\ Menu.selectedIndex_ menu' = 3%Z
                /\ Menu.scrollOffset_ menu' = 2%Z.
Proof.
  assert (H1 : (0 <= Menu.selectedIndex_ sampleMenu
                < Menu.size (Menu.items_ sampleMenu))%Z) by (vm_compute; intuition congruence).
  assert (H2 : (1 <= 2)%Z) by lia.
  destruct (move_stays_inside 2 sampleMenu 0 H1 H2) as [(menu' & Hrun & _) _].
  exists menu'. split; [exact Hrun|].
  vm_compute in Hrun. injection Hrun as <-. split; reflexivity.
Defined.

Lemma firstSelectable_spec_aux (rest : list Menu.MenuItem) :
  forall sel,
    let r := Menu.firstSelectable rest sel in
    (sel <= r <= sel + Menu.size rest)%Z
    /\ (forall k, (k < Z.to_nat (r - sel))%nat ->
                  Menu.isSelectable (nth k rest Menu.blankItem) = false)
    /\ ((r < sel + Menu.size rest)%Z ->
        Menu.isSelectable (nth (Z.to_nat (r - sel)) rest Menu.blankItem) = true).
Proof.
  unfold Menu.size. induction rest as [|item rest IH]; intros sel; cbn zeta.
  - cbn [Menu.firstSelectable List.length]. rewrite Z.sub_diag.
    split; [lia|]. split; [intros k Hk; cbn in Hk; lia | intros Hlt; lia].
  - cbn [Menu.firstSelectable].
    destruct (Menu.isSelectable item) eqn:Esel; cbn [negb].
    + rewrite Z.sub_diag. cbn [Z.to_nat nth List.length].
      split; [lia|]. split; [intros k Hk; lia | intros _; exact Esel].
    + destruct (IH (sel + 1)%Z) as (Hr & Hbefore & Hat). cbn zeta in *.
      set (r := Menu.firstSelectable rest (sel + 1)) in *.
      cbn [List.length]. rewrite Nat2Z.inj_succ.
      replace (Z.to_nat (r - sel)) with (S (Z.to_nat (r - (sel + 1)))) by lia.
      split; [lia|]. split.
      * intros [|k] Hk; [exact Esel|]. cbn [nth]. apply Hbefore. lia.
      * intros Hlt. cbn [nth]. apply Hat. lia.
Qed.

(** X22.  The loop at the start of [Menu::run], started at the first line,
    stops at the first selectable item: every line before the one it stops at
    is a separator or disabled, the line it stops at is selectable, and it
    stops one past the last line exactly when the menu has no selectable
    item. *)
Theorem run_selects_first_selectable (items : list Menu.MenuItem) :
  let r := Menu.firstSelectable items 0 in
  (0 <= r <= Menu.size items)%Z
  /\ (forall i, (0 <= i < r)%Z -> Menu.isSelectable (Menu.item_at items i) = false)
  /\ ((r < Menu.size items)%Z -> Menu.isSelectable (Menu.item_at items r) = true)
  /\ (r = Menu.size items <->
      forall item, In item items -> Menu.isSelectable item = false).
Proof.
  intros r. destruct (firstSelectable_spec_aux items 0) as (Hr & Hbefore & Hat).
  cbn zeta in *. fold r in Hr, Hbefore, Hat.
  rewrite Z.sub_0_r in *. rewrite Z.add_0_l in *.
  split; [exact Hr|]. split; [|split; [exact Hat|]].
  - intros i Hi. apply Hbefore. lia.
  - split.
    + intros E item Hin. apply (In_nth _ _ Menu.blankItem) in Hin.
      destruct Hin as (k & Hk & <-). apply Hbefore. rewrite E. unfold Menu.size. lia.
    + intros Hall. destruct (Z.eq_dec r (Menu.size items)) as [E|E]; [exact E|].
      assert (Hlt : (r < Menu.size items)%Z) by lia.
      specialize (Hat Hlt). rewrite Hall in Hat; [discriminate|].
      apply nth_In. unfold Menu.size in Hlt. lia.
Qed.

Lemma moveDownLoop_no_selectable (items : list Menu.MenuItem) :
  (forall item, In item items -> Menu.isSelectable item = false) ->
  items <> [] ->
  forall fuel cur,
    (-1 <= cur <= Menu.size items)%Z ->
    Menu.moveDownLoop fuel items (Menu.size items) cur = None.
Proof.
  intros Hall Hne.
  assert (Hpos : (0 < Menu.size items)%Z)
    by (unfold Menu.size; destruct items; [congruence | cbn [List.length]; lia]).
  induction fuel as [|fuel IH]; intros cur Hc; [reflexivity|].
  cbn [Menu.moveDownLoop].
  set (nxt := if (cur + 1 >=? Menu.size items)%Z then 0%Z else (cur + 1)%Z).
  assert (Hn : (0 <= nxt < Menu.size items)%Z)
    by (unfold nxt; destruct (Z.geb_spec (cur + 1) (Menu.size items)); lia).
  rewrite Hall by (apply nth_In; unfold Menu.size in Hn; lia).
  destruct (Z.eqb_spec nxt (Menu.size items)); [lia|].
  cbn [negb andb]. apply IH. lia.
Qed.

Lemma moveUpLoop_no_selectable (items : list Menu.MenuItem) :
  (forall item, In item items -> Menu.isSelectable item = false) ->
  items <> [] ->
  forall fuel cur,
    (0 <= cur <= Menu.size items)%Z ->
    Menu.moveUpLoop fuel items (Menu.size items) cur = None.
Proof.
  intros Hall Hne.
  assert (Hpos : (0 < Menu.size items)%Z)
    by (unfold Menu.size; destruct items; [congruence | cbn [List.length]; lia]).
  induction fuel as [|fuel IH]; intros cur Hc; [reflexivity|].
  cbn [Menu.moveUpLoop].
  set (nxt := if (cur - 1 <? 0)%Z then (Menu.size items - 1)%Z else (cur - 1)%Z).
  assert (Hn : (0 <= nxt < Menu.size items)%Z)
    by (unfold nxt; destruct (Z.ltb_spec (cur - 1) 0); lia).
  rewrite Hall by (apply nth_In; unfold Menu.size in Hn; lia).
  destruct (Z.eqb_spec nxt (Menu.size items)); [lia|].
  cbn [negb andb]. apply IH. lia.
Qed.

(** X23.  In a menu that has items but no selectable one, the loop at the
    start of [Menu::run] leaves the selection one past the last line, and
    from there the loops of [moveDown] and [moveUp] do not end: they pass
    over every line and never meet the line they started from, whatever the
    number of turns. *)
Theorem move_never_ends_without_selectable (items : list Menu.MenuItem)
    (scrollOffset visibleHeight : Z) (fuel : nat) :
  items <> [] ->
  (forall item, In item items -> Menu.isSelectable item = false) ->
  let menu := Menu.mk items (Menu.firstSelectable items 0) scrollOffset in
  Menu.selectedIndex_ menu = Menu.size items
  /\ Menu.moveDown fuel visibleHeight menu = None
  /\ Menu.moveUp fuel visibleHeight menu = None.
Proof.
  intros Hne Hall menu.
  assert (E : Menu.firstSelectable items 0 = Menu.size items).
  { destruct (firstSelectable_spec_aux items 0) as (Hr & _ & Hat). cbn zeta in *.
    destruct (Z.eq_dec (Menu.firstSelectable items 0) (Menu.size items)) as [E|E];
      [exact E|].
    assert (Hlt : (Menu.firstSelectable items 0 < 0 + Menu.size items)%Z) by lia.
    specialize (Hat Hlt). rewrite Hall in Hat; [discriminate|].
    apply nth_In. unfold Menu.size in Hlt. lia. }
  assert (Hpos : (0 < Menu.size items)%Z)
    by (unfold Menu.size; destruct items; [congruence | cbn [List.length]; lia]).
  unfold menu, Menu.moveDown, Menu.moveUp. cbn [Menu.items_ Menu.selectedIndex_].
  rewrite E. split; [reflexivity|].
  rewrite (moveDownLoop_no_selectable items Hall Hne) by lia.
  rewrite (moveUpLoop_no_selectable items Hall Hne) by lia.
  destruct items; [congruence|]. split; reflexivity.
Qed.

(** A run of X23's theorem on the menu without a selectable line, with a
    thousand turns. *)
Lemma move_never_ends_without_selectable_witness :
  Menu.moveDown 1000 10 (Menu.mk deadItems (Menu.firstSelectable deadItems 0) 0) = None.
Proof.
  assert (H1 : deadItems <> []) by discriminate.
  assert (H2 : forall item, In item deadItems -> Menu.isSelectable item = false).
  { intros item [<-|[<-|[]]]; reflexivity. }
  exact (proj1 (proj2 (move_never_ends_without_selectable deadItems 0 10 1000 H1 H2))).
Defined.

(** X24.  [setSelectedIndex] ignores an index outside the menu; an index
    inside becomes the selection and, with room for at least one line, is
    scrolled into the window.  [setItems] replaces the items and puts
    selection and window back at the first line. *)
Theorem setSelectedIndex_spec (visibleHeight index : Z) (menu : Menu.t) :
  (1 <= visibleHeight)%Z ->
  let menu' := Menu.setSelectedIndex visibleHeight index menu in
  Menu.items_ menu' = Menu.items_ menu
  /\ ((0 <= index < Menu.size (Menu.items_ menu))%Z ->
      Menu.selectedIndex_ menu' = index
      /\ (Menu.scrollOffset_ menu' <= index < Menu.scrollOffset_ menu' + visibleHeight)%Z)
  /\ (~ (0 <= index < Menu.size (Menu.items_ menu))%Z -> menu' = menu)
  /\ (forall items, Menu.setItems items menu' = Menu.mk items 0 0).
Proof.
  intros Hh menu'. unfold menu', Menu.setSelectedIndex.
  destruct (Z.geb_spec index 0); destruct (Z.ltb_spec index (Menu.size (Menu.items_ menu)));
    cbn [andb];
    try (split; [reflexivity|]; split; [intros; lia|]; split; [reflexivity|];
         intros items; reflexivity).
  destruct (ensureVisible_window_aux visibleHeight
              (Menu.mk (Menu.items_ menu) index (Menu.scrollOffset_ menu)) Hh)
    as (H1 & H2 & H3).
  cbn [Menu.items_ Menu.selectedIndex_] in *.
  split; [exact H1|]. split; [|split].
  - intros _. rewrite H2 in H3. split; [exact H2 | exact H3].
  - intros Hout. lia.
  - intros items. reflexivity.
Qed.

(** A run of X24's theorem: the fourth line of the sample menu, with two
    visible lines. *)
Lemma setSelectedIndex_spec_witness :
  Menu.scrollOffset_ (Menu.setSelectedIndex 2 3 sampleMenu) = 2%Z
  /\ Menu.setSelectedIndex 2 4 sampleMenu = sampleMenu.
Proof.
  destruct (setSelectedIndex_spec 2 3 sampleMenu ltac:(lia)) as (_ & _ & _ & _).
  destruct (setSelectedIndex_spec 2 4 sampleMenu ltac:(lia)) as (_ & _ & Hout & _).
  split; [reflexivity|]. apply Hout. cbn. lia.
Defined.

(* ================================================================== *)
(** ** The create dialog *)
(* ================================================================== *)

Section CreateDialogFacts.

Context {W : Type} {OS : OsOps W}.

(** With a valid name, [createRule] has no reason to complain about the
    name. *)
Lemma createRule_valid_message (d : DeviceInfo.t) (n : string) (m : Machine W) :
  utils.isValidSymlinkName n = true ->
  message (fst (createRule d n m)) <> message invalidNameFailure.
Proof.
  intros Hn. unfold createRule. rewrite Hn. cbn [negb].
  destruct (DeviceInfo.isValid d); cbn [negb]; [|cbn; discriminate].
  unfold bind, getRules.
  destruct (symlinkExists (rules_ m) n); [cbn; discriminate|].
  destruct (List.find (sameDeviceTest d) (rules_ m)); [cbn; discriminate|].
  rewrite generateRuleContent_run.
  match goal with |- context [writeRuleFile ?p ?c ?m1] =>
    destruct (writeRuleFile_run p c m1) as [_ Hw];
    destruct (writeRuleFile p c m1) as [res m2] end.
  cbn [fst] in Hw.
  destruct Hw as [-> | [-> | ->]]; cbn [success Success0 Success Failure negb].
  - destruct (loadExistingRules m2). cbn. discriminate.
  - cbn. discriminate.
  - cbn. discriminate.
Qed.

(** X25.  [createRuleForDevice] trims what was typed and goes on only with a
    name that is not empty, is valid and was confirmed; otherwise nothing is
    touched.  When it goes on and [createRule] fails, the cache is as before
    and the failure is shown as an error; when [createRule] succeeds,
    [applyRules] runs on the state it leaves, keeps the cache, and the dialog
    reports success whether or not [applyRules] succeeded.  A success dialog
    is shown in no other case, and no dialog shows [createRule]'s complaint
    about the name. *)
Theorem createRuleForDevice_spec (input : string) (confirmed : bool)
    (device : DeviceInfo.t) (m : Machine W) :
  let symlinkName := utils.trim input in
  let asked := negb (empty symlinkName) && utils.isValidSymlinkName symlinkName
               && confirmed in
  let created := createRule device symlinkName m in
  let dialog := fst (Application.createRuleForDevice input confirmed device m) in
  let m' := snd (Application.createRuleForDevice input confirmed device m) in
  (asked = false -> m' = m)
  /\ (asked = true -> success (fst created) = false ->
      m' = snd created
      /\ rules_ m' = rules_ m
      /\ dialog = Some {| Application.dlg_title := "Error";
                          Application.dlg_message := message (fst created);
                          Application.dlg_isError := true |})
  /\ (asked = true -> success (fst created) = true ->
      m' = snd (applyRules (snd created))
      /\ rules_ m' = rules_ (snd created)
      /\ exists d, dialog = Some d
                   /\ Application.dlg_title d = "Success"
                   /\ Application.dlg_isError d = false
                   /\ prefix ("Rule created: /dev/" ++ symlinkName)
                        (Application.dlg_message d) = true)
  /\ (forall d, dialog = Some d -> Application.dlg_title d = "Success" ->
                asked = true /\ success (fst created) = true)
  /\ (forall d, dialog = Some d ->
                Application.dlg_message d <> message invalidNameFailure).
Proof.
  intros symlinkName asked created dialog m'.
  unfold dialog, m', asked, created, Application.createRuleForDevice.
  fold symlinkName.
  destruct (empty symlinkName) eqn:Eempty; cbn [negb andb].
  { unfold ret. cbn [fst snd].
    split; [reflexivity|]. split; [discriminate|]. split; [discriminate|]. split.
    - intros d [= <-]; discriminate.
    - intros d [= <-]; cbn; discriminate. }
  destruct (utils.isValidSymlinkName symlinkName) eqn:Evalid; cbn [negb andb].
  2:{ unfold ret. cbn [fst snd].
      split; [reflexivity|]. split; [discriminate|]. split; [discriminate|]. split.
      - intros d [= <-]; discriminate.
      - intros d [= <-]; cbn; discriminate. }
  destruct confirmed; cbn [negb].
  2:{ unfold ret. cbn [fst snd].
      split; [reflexivity|]. split; [discriminate|]. split; [discriminate|].
      split; discriminate. }
  unfold bind.
  pose proof (createRule_valid_message device symlinkName m Evalid) as Hmsg.
  pose proof (createRule_cache device symlinkName m) as Hcache.
  destruct (createRule device symlinkName m) as [result m1]. cbn [fst snd] in *.
  destruct (success result) eqn:Esucc.
  - pose proof (applyRules_rules m1) as Happly.
    destruct (applyRules m1) as [applyResult m2]. unfold ret. cbn [fst snd] in *.
    split; [discriminate|]. split; [discriminate|]. split; [|split].
    + intros _ _. split; [reflexivity|]. split; [exact Happly|].
      eexists. split; [reflexivity|]. cbn [Application.dlg_title
        Application.dlg_isError Application.dlg_message].
      split; [reflexivity|]. split; [reflexivity|].
      rewrite <- append_assoc. apply prefix_append.
    + intros d _ _. split; reflexivity.
    + intros d [= <-]. cbn. discriminate.
  - unfold ret. cbn [fst snd].
    split; [discriminate|]. split; [|split; [discriminate|split]].
    + intros _ _. split; [reflexivity|]. split; [|reflexivity].
      destruct Hcache as [H | [H _]]; [exact H | discriminate].
    + intros d [= <-]. discriminate.
    + intros d [= <-]. exact Hmsg.
Qed.

End CreateDialogFacts.

(** On the machine whose device manager complains, the typed name is
    trimmed, the rule is created, [applyRules] fails, and the dialog still
    reports success without a word about the failure. *)
Example createRuleForDevice_unapplied :
  let run := Application.createRuleForDevice "  RS485_1 " true Sim.ftdi
               (UdevManager Sim.broken) in
  fst run = Some {| Application.dlg_title := "Success";
                    Application.dlg_message := "Rule created: /dev/RS485_1";
                    Application.dlg_isError := false |}
  /\ map UdevRule.symlink (rules_ (snd run)) = ["RS485_1"]
  /\ success (fst (applyRules (snd (createRule Sim.ftdi "RS485_1"
                                      (UdevManager Sim.broken))))) = false.
Proof. repeat split; vm_compute; reflexivity. Qed.

(* ================================================================== *)
(** ** List labels and device identifiers *)
(* ================================================================== *)

Lemma append_inj_l (a x y : string) : (a ++ x = a ++ y)%string -> x = y.
Proof. induction a as [|c a IH]; cbn; [auto | intros [= H]; auto]. Qed.

Lemma append_inj_r (z x y : string) : (x ++ z = y ++ z)%string -> x = y.
Proof.
  intros H.
  assert (Hlen : String.length x = String.length y).
  { apply (f_equal String.length) in H. rewrite !length_append in H. lia. }
  revert y H Hlen. induction x as [|c x IH]; intros [|d y] H Hlen;
    cbn in Hlen; try discriminate; [reflexivity|].
  cbn in H. injection H as -> H. f_equal. apply IH; [exact H | lia].
Qed.

Lemma length_substring_0 (n : nat) (s : string) :
  String.length (substring 0 n s) = Nat.min n (String.length s).
Proof.
  revert s. induction n as [|n IH]; intros [|c s]; cbn; auto.
Qed.

Lemma formatDeviceForList_serialLabel (d : DeviceInfo.t) :
  exists before,
    before = (DeviceInfo.devNode d
              ++ (if negb (empty (DeviceInfo.product d))
                  then " - " ++ DeviceInfo.product d
                  else if negb (empty (DeviceInfo.manufacturer d))
                       then " - " ++ DeviceInfo.manufacturer d
                       else "")
              ++ " [" ++ DeviceInfo.vendorId d ++ ":" ++ DeviceInfo.productId d)%string
    /\ Application.formatDeviceForList d
       = (before ++ serialLabel (DeviceInfo.serial d) ++ "]")%string.
Proof.
  eexists. split; [reflexivity|].
  unfold Application.formatDeviceForList, serialLabel.
  now rewrite !append_assoc.
Qed.

Lemma formatRuleForList_serialLabel (r : UdevRule.t) :
  Application.formatRuleForList r
  = ((UdevRule.symlink r ++ " [" ++ UdevRule.vendorId r ++ ":" ++ UdevRule.productId r)
     ++ serialLabel (UdevRule.serial r) ++ "]")%string.
Proof.
  unfold Application.formatRuleForList, serialLabel. now rewrite !append_assoc.
Qed.

Lemma serialLabel_short (s1 s2 : string) :
  (String.length s1 <= 8)%nat -> (String.length s2 <= 8)%nat ->
  (serialLabel s1 = serialLabel s2 <-> s1 = s2).
Proof.
  intros H1 H2. split; [|now intros ->].
  unfold serialLabel, Application.shortSerial.
  destruct (Nat.ltb_spec 8 (String.length s1)); [lia|].
  destruct (Nat.ltb_spec 8 (String.length s2)); [lia|].
  destruct s1, s2; cbn; congruence.
Qed.

Lemma serialLabel_long (s1 s2 : string) :
  (8 < String.length s1)%nat -> (8 < String.length s2)%nat ->
  (serialLabel s1 = serialLabel s2 <-> substring 0 8 s1 = substring 0 8 s2).
Proof.
  intros H1 H2. unfold serialLabel, Application.shortSerial.
  destruct (Nat.ltb_spec 8 (String.length s1)); [|lia].
  destruct (Nat.ltb_spec 8 (String.length s2)); [|lia].
  destruct s1 as [|c1 s1]; [cbn in H1; lia|].
  destruct s2 as [|c2 s2]; [cbn in H2; lia|].
  cbn [empty negb]. split.
  - intros E. apply append_inj_l in E. now apply append_inj_r in E.
  - now intros ->.
Qed.

Lemma serialLabel_length (s : string) : (String.length (serialLabel s) <= 13)%nat.
Proof.
  unfold serialLabel, Application.shortSerial.
  destruct (empty s); cbn [negb]; [cbn; lia|].
  rewrite length_append.
  destruct (Nat.ltb_spec 8 (String.length s)).
  - rewrite length_append, length_substring_0. cbn [String.length]. lia.
  - cbn [String.length]. lia.
Qed.

(** X26.  The label of a device in the list shows at most thirteen
    characters for the serial, however long it is.  Among devices that agree
    on node, product, manufacturer and ids, serials of at most eight
    characters are told apart by the label, and serials of more than eight
    characters are told apart exactly when they differ in their first
    eight. *)
Theorem formatDeviceForList_serials (d1 d2 : DeviceInfo.t) :
  DeviceInfo.devNode d1 = DeviceInfo.devNode d2 ->
  DeviceInfo.product d1 = DeviceInfo.product d2 ->
  DeviceInfo.manufacturer d1 = DeviceInfo.manufacturer d2 ->
  DeviceInfo.vendorId d1 = DeviceInfo.vendorId d2 ->
  DeviceInfo.productId d1 = DeviceInfo.productId d2 ->
  let s1 := DeviceInfo.serial d1 in
  let s2 := DeviceInfo.serial d2 in
  let same := Application.formatDeviceForList d1 = Application.formatDeviceForList d2 in
  ((String.length s1 <= 8)%nat -> (String.length s2 <= 8)%nat -> (same <-> s1 = s2))
  /\ ((8 < String.length s1)%nat -> (8 < String.length s2)%nat ->
      (same <-> substring 0 8 s1 = substring 0 8 s2))
  /\ (String.length (Application.formatDeviceForList d1)
      <= String.length (Application.formatDeviceForList
                          (DeviceInfo.mk (DeviceInfo.devPath d1) (DeviceInfo.sysPath d1)
                             (DeviceInfo.subsystem d1) (DeviceInfo.vendor d1)
                             (DeviceInfo.vendorId d1) (DeviceInfo.productId d1) ""
                             (DeviceInfo.manufacturer d1) (DeviceInfo.product d1)
                             (DeviceInfo.driver d1) (DeviceInfo.devNode d1)
                             (DeviceInfo.busNum d1) (DeviceInfo.devNum d1)
                             (DeviceInfo.interfaceNum d1))) + 13)%nat.
Proof.
  intros Hn Hp Hm Hv Hi s1 s2 same.
  assert (Hsame : same <-> serialLabel s1 = serialLabel s2).
  { unfold same.
    destruct (formatDeviceForList_serialLabel d1) as (b1 & Hb1 & ->).
    destruct (formatDeviceForList_serialLabel d2) as (b2 & Hb2 & ->).
    assert (E : b1 = b2) by (rewrite Hb1, Hb2, Hn, Hp, Hm, Hv, Hi; reflexivity).
    rewrite E. fold s1 s2. split.
    - intros H. apply append_inj_l in H. now apply append_inj_r in H.
    - now intros ->. }
  split; [|split].
  - intros H1 H2. rewrite Hsame. now apply serialLabel_short.
  - intros H1 H2. rewrite Hsame. now apply serialLabel_long.
  - destruct (formatDeviceForList_serialLabel d1) as (b1 & Hb1 & ->).
    match goal with |- context [Application.formatDeviceForList ?d] =>
      destruct (formatDeviceForList_serialLabel d) as (b0 & Hb0 & ->) end.
    cbn [DeviceInfo.devNode DeviceInfo.product DeviceInfo.manufacturer
         DeviceInfo.vendorId DeviceInfo.productId DeviceInfo.serial] in *.
    rewrite <- Hb1 in Hb0. subst b0.
    rewrite !length_append. pose proof (serialLabel_length (DeviceInfo.serial d1)).
    cbn. lia.
Qed.

(** A run of X26's theorem: the two adapters get the same label. *)
Lemma formatDeviceForList_serials_witness :
  Application.formatDeviceForList ftdi_long_1 = Application.formatDeviceForList ftdi_long_2.
Proof.
  apply (proj1 (proj2 (formatDeviceForList_serials ftdi_long_1 ftdi_long_2
                         eq_refl eq_refl eq_refl eq_refl eq_refl)));
    [cbn; lia | cbn; lia | reflexivity].
Defined.

(** X27.  The same for the label of a rule in the list: among rules that
    agree on symlink and ids, serials of at most eight characters are told
    apart, longer ones exactly when they differ in their first eight
    characters, and the serial takes at most thirteen characters of the
    label. *)
Theorem formatRuleForList_serials (r1 r2 : UdevRule.t) :
  UdevRule.symlink r1 = UdevRule.symlink r2 ->
  UdevRule.vendorId r1 = UdevRule.vendorId r2 ->
  UdevRule.productId r1 = UdevRule.productId r2 ->
  let s1 := UdevRule.serial r1 in
  let s2 := UdevRule.serial r2 in
  let same := Application.formatRuleForList r1 = Application.formatRuleForList r2 in
  ((String.length s1 <= 8)%nat -> (String.length s2 <= 8)%nat -> (same <-> s1 = s2))
  /\ ((8 < String.length s1)%nat -> (8 < String.length s2)%nat ->
      (same <-> substring 0 8 s1 = substring 0 8 s2))
  /\ (String.length (Application.formatRuleForList r1)
      <= String.length (UdevRule.symlink r1) + String.length (UdevRule.vendorId r1)
         + String.length (UdevRule.productId r1) + 17)%nat.
Proof.
  intros Hn Hv Hi s1 s2 same.
  assert (Hsame : same <-> serialLabel s1 = serialLabel s2).
  { unfold same. rewrite !formatRuleForList_serialLabel, Hn, Hv, Hi. fold s1 s2.
    split.
    - intros H. apply append_inj_l in H. now apply append_inj_r in H.
    - now intros ->. }
  split; [|split].
  - intros H1 H2. rewrite Hsame. now apply serialLabel_short.
  - intros H1 H2. rewrite Hsame. now apply serialLabel_long.
  - rewrite formatRuleForList_serialLabel, !length_append.
    pose proof (serialLabel_length (UdevRule.serial r1)). cbn. lia.
Qed.

(** A run of X27's theorem: two rules for the adapters above under one
    name get the same label. *)
Lemma formatRuleForList_serials_witness :
  Application.formatRuleForList
    (UdevRule.mk "" "0403" "6001" "A50285BI-0001" "RS485_1" "" "" 99 true)
  = Application.formatRuleForList
      (UdevRule.mk "" "0403" "6001" "A50285BI-0002" "RS485_1" "" "" 99 true).
Proof.
  apply (proj1 (proj2 (formatRuleForList_serials
                         (UdevRule.mk "" "0403" "6001" "A50285BI-0001" "RS485_1" "" "" 99 true)
                         (UdevRule.mk "" "0403" "6001" "A50285BI-0002" "RS485_1" "" "" 99 true)
                         eq_refl eq_refl eq_refl)));
    [cbn; lia | cbn; lia | reflexivity].
Defined.

Lemma split_at_colon (a b x y : string) :
  forallb_str cls_hex a = true ->
  forallb_str cls_hex b = true ->
  (a ++ ":" ++ x = b ++ ":" ++ y)%string ->
  a = b /\ x = y.
Proof.
  revert b. induction a as [|c a IH]; intros [|d b] Ha Hb H; cbn in H.
  - injection H as H. now split.
  - injection H as <- _. cbn in Hb. discriminate Hb.
  - injection H as -> _. cbn in Ha. discriminate Ha.
  - injection H as -> H. cbn [forallb_str] in Ha, Hb.
    apply andb_true_iff in Ha, Hb.
    destruct (IH b (proj2 Ha) (proj2 Hb) H) as [-> ->]. now split.
Qed.

(** X28.  For devices that report a serial and whose ids are hexadecimal,
    [getUniqueId] stands for exactly what the rules compare: two such devices
    have the same identifier if and only if they agree on vendor id, product
    id and serial. *)
Theorem getUniqueId_injective (d1 d2 : DeviceInfo.t) :
  forallb_str cls_hex (DeviceInfo.vendorId d1) = true ->
  forallb_str cls_hex (DeviceInfo.productId d1) = true ->
  forallb_str cls_hex (DeviceInfo.vendorId d2) = true ->
  forallb_str cls_hex (DeviceInfo.productId d2) = true ->
  DeviceInfo.serial d1 <> "" ->
  DeviceInfo.serial d2 <> "" ->
  (DeviceInfo.getUniqueId d1 = DeviceInfo.getUniqueId d2
   <-> DeviceInfo.vendorId d1 = DeviceInfo.vendorId d2
       /\ DeviceInfo.productId d1 = DeviceInfo.productId d2
       /\ DeviceInfo.serial d1 = DeviceInfo.serial d2).
Proof.
  intros Hv1 Hp1 Hv2 Hp2 Hs1 Hs2. unfold DeviceInfo.getUniqueId.
  apply empty_false_iff in Hs1, Hs2. rewrite Hs1, Hs2. cbn [negb].
  split.
  - intros H. apply split_at_colon in H; [|assumption..]. destruct H as [Ev H].
    apply split_at_colon in H; [|assumption..]. tauto.
  - intros (-> & -> & ->). reflexivity.
Qed.

(** A run of X28's theorem: the two adapters above have different
    identifiers. *)
Lemma getUniqueId_injective_witness :
  DeviceInfo.getUniqueId ftdi_long_1 <> DeviceInfo.getUniqueId ftdi_long_2.
Proof.
  intros H.
  apply (proj1 (getUniqueId_injective ftdi_long_1 ftdi_long_2
                  eq_refl eq_refl eq_refl eq_refl
                  ltac:(discriminate) ltac:(discriminate))) in H.
  destruct H as (_ & _ & H). discriminate H.
Defined.

(** Without the condition on the serial the identifiers can meet: a device
    whose serial spells a bus position has the identifier of the device
    without serial at that position. *)
Example getUniqueId_collision :
  DeviceInfo.getUniqueId
    (DeviceInfo.mk "" "" "" "" "0403" "6001" "bus001dev004" "" "" "" "" "002" "009" "")
  = DeviceInfo.getUniqueId
      (DeviceInfo.mk "" "" "" "" "0403" "6001" "" "" "" "" "" "001" "004" "").
Proof. reflexivity. Qed.
